(** * seapy.roms.analysis

    A shallow embedding of the routines of [seapy/roms/analysis.py]:
    [constant_depth], [depth_average] and [transect] with the properties
    their description states, and further properties of these three, of
    the observation plots [plot_obs_spatial] and [plot_obs_profile] and
    of the standard-deviation files [gen_std_i] and [gen_std_f].

    Conventions of the embedding.
    - Finite floating-point values are exact rationals ([Q]); rounding is
      not modelled.  The non-finite values the code itself can produce
      (the infinities written into [upper] and [lower], the NaN of an
      empty mean, a division by zero) are the extra constructors of
      [float64].
    - numpy masked arrays are arrays of [masked] cells: the raw data and
      the mask bit, both kept, because [np.where] and the in-place
      operators of the source look at the raw data under the mask.
    - Python exceptions are the [Raise] results of a small state and error
      monad; the state holds what the properties observe: the jobs handed to the
      worker pool, the calls of the scattered interpolation, the heap
      of the caller's arrays, the calls made to pyplot and the operations
      on the netCDF files.
    - Functions of seapy, joblib, scipy and numpy that are not part of
      the analysed file ([adddim], [oasurf], [oavol], [earth_distance],
      [griddata], [rho2u], [asobs], the standard deviation, ...) are
      Section variables. *)

From Stdlib Require Import QArith Qround Qabs Qpower ZArith Lia Lqa.
From stdpp Require Import base option list strings gmap sorting.

Local Open Scope Q_scope.

(** ** Python results and effects *)

Inductive exn := IndexError | ValueError | OverflowError | TypeError.

Inductive result (A : Type) :=
| Ok (a : A)
| Raise (e : exn).
Arguments Ok {A} a.
Arguments Raise {A} e.

Definition is_ok {A} (r : result A) : bool :=
  match r with Ok _ => true | Raise _ => false end.

Module Py.

(** State and error monad: an exception keeps the state reached so far,
    as a Python exception keeps the side effects already done. *)
Definition M (S A : Type) : Type := S -> result A * S.

Definition ret {S A} (a : A) : M S A := fun s => (Ok a, s).

Definition bind {S A B} (m : M S A) (k : A -> M S B) : M S B :=
  fun s => match m s with
           | (Ok a, s') => k a s'
           | (Raise e, s') => (Raise e, s')
           end.

Definition raise {S A} (e : exn) : M S A := fun s => (Raise e, s).

Definition lift {S A} (r : result A) : M S A := fun s => (r, s).

Definition get {S} : M S S := fun s => (Ok s, s).

Definition modify {S} (f : S -> S) : M S unit := fun s => (Ok tt, f s).

(** A [for] loop whose body may raise: the items before the failing one
    have had their effect. *)
Fixpoint for_each {S A B} (f : A -> M S B) (l : list A) : M S (list B) :=
  match l with
  | [] => ret []
  | a :: l' =>
      bind (f a) (fun b => bind (for_each f l') (fun bs => ret (b :: bs)))
  end.

End Py.

Declare Scope py_scope.
Delimit Scope py_scope with py.
Notation "x <- m ;; k" := (Py.bind m (fun x => k))
  (at level 100, m at next level, right associativity) : py_scope.
Notation "m ;;; k" := (Py.bind m (fun _ => k))
  (at level 100, right associativity) : py_scope.

(** The pure fragment: [result] alone. *)
Definition rbind {A B} (r : result A) (k : A -> result B) : result B :=
  match r with Ok a => k a | Raise e => Raise e end.

Notation "'let?' x := r 'in' k" := (rbind r (fun x => k))
  (at level 10, x pattern, r at level 100, k at level 200).

(** [l[i]] on a Python sequence with a non-negative index. *)
Definition index {A} (l : list A) (i : nat) : result A :=
  match l !! i with Some a => Ok a | None => Raise IndexError end.

(** [l[-1]]. *)
Definition index_last {A} (l : list A) : result A :=
  match last l with Some a => Ok a | None => Raise IndexError end.

(** ** Numbers *)

(** A float64 value as the code can produce it. *)
Inductive float64 :=
| Fin (q : Q)
| PInf
| NInf
| NaN.

Definition Qltb (a b : Q) : bool := negb (Qle_bool b a).

(** The sign normalisation of a scalar depth:
    [depth = depth if depth < 0 else -depth]. *)
Definition norm_depth (d : Q) : Q := if Qltb d 0 then d else - d.

(** The same on an array, in place: [a[a > 0] *= -1]. *)
Definition neg_pos (d : Q) : Q := if Qltb 0 d then d * (-1 # 1) else d.

Definition Qmaximum (a b : Q) : Q := if Qltb a b then b else a.

(** ** Masked arrays *)

(** One cell of a [numpy.ma] array: the raw data and the mask bit
    ([true]: masked, invalid). *)
Record masked (A : Type) := Masked { dat : A; msk : bool }.
Arguments Masked {A} dat msk.
Arguments dat {A} m.
Arguments msk {A} m.

Definition unmasked {A} (a : A) : masked A := Masked a false.

(** [np.ma.masked_equal(a, 0)], one cell. *)
Definition masked_equal0 (q : Q) : masked Q := Masked q (Qeq_bool q 0).

(** [a - b] and [a * b] on masked arrays, one cell: the mask is the union,
    and the raw data of a masked result is that of the first operand. *)
Definition ma_sub (a b : masked Q) : masked Q :=
  let m := msk a || msk b in
  Masked (if m then dat a else dat a - dat b) m.

Definition ma_mul (a b : masked Q) : masked Q :=
  let m := msk a || msk b in
  Masked (if m then dat a else dat a * dat b) m.

(** [a *= b], one cell: a masked position is multiplied by one. *)
Definition ma_imul (a b : masked Q) : masked Q :=
  let m := msk a || msk b in
  Masked (dat a * (if m then 1 else dat b)) m.

(** [np.sum(a, axis=0)], one column: masked cells count as zero and the
    result is masked when every cell is. *)
Definition ma_sum (l : list (masked Q)) : masked Q :=
  Masked (foldr (fun c acc => (if msk c then 0 else dat c) + acc) 0 l)
         (forallb msk l).

(** [np.finfo(float).tiny], the tolerance of numpy's safe division. *)
Definition tiny : Q := 1 / (inject_Z (2 ^ 1022)).

(** [a / b] on masked arrays, one cell: numpy's domained division masks
    the quotient wherever [abs(a) * tiny >= abs(b)], which holds for every
    zero divisor. *)
Definition ma_div (a b : masked Q) : masked Q :=
  let m := Qle_bool (Qabs (dat b)) (Qabs (dat a) * tiny) || msk a || msk b in
  Masked (if m then dat a else dat a / dat b) m.

(** Order on [float64]; comparisons with NaN are false. *)
Definition f_ltb (a b : float64) : bool :=
  match a, b with
  | NaN, _ | _, NaN => false
  | Fin x, Fin y => Qltb x y
  | NInf, NInf => false
  | NInf, _ => true
  | _, NInf => false
  | PInf, _ => false
  | Fin _, PInf => true
  end.

Definition filled {A} (fill : A) (c : masked A) : A :=
  if msk c then fill else dat c.

(** First index of the least element, [None] on the empty list. *)
Fixpoint argbest (better : float64 -> float64 -> bool) (l : list float64)
  : option (nat * float64) :=
  match l with
  | [] => None
  | a :: l' =>
      match argbest better l' with
      | None => Some (0%nat, a)
      | Some (i, b) => if better b a then Some (S i, b) else Some (0%nat, a)
      end
  end.

(** [np.argmin(a, axis=0)] on a masked column: masked cells are filled
    with +inf; an empty column raises. *)
Definition argmin (l : list (masked float64)) : result nat :=
  match argbest f_ltb (map (filled PInf) l) with
  | Some (i, _) => Ok i
  | None => Raise ValueError
  end.

(** [np.argmax(a, axis=0)]: masked cells are filled with -inf. *)
Definition argmax (l : list (masked float64)) : result nat :=
  match argbest (fun b a => f_ltb a b) (map (filled NInf) l) with
  | Some (i, _) => Ok i
  | None => Raise ValueError
  end.

(** ** Arrays *)

(** A numpy array of any rank, row-major: the rank of the field is what
    [constant_depth] looks at. *)
Record ndarray := NdArray { shape : list nat; data : list Q }.

Definition ndim (a : ndarray) : nat := length (shape a).

Definition size_of (sh : list nat) : nat := foldr Nat.mul 1%nat sh.

(** [a.shape[-k]] for [k >= 1]. *)
Definition shape_from_end (a : ndarray) (k : nat) : result nat :=
  index (reverse (shape a)) (k - 1).

(** [a[i, :, :, :]]: four indices need rank four at least. *)
Definition index_first4 (a : ndarray) (i : nat) : result ndarray :=
  if (ndim a <? 4)%nat then Raise IndexError
  else match shape a with
       | n0 :: rest =>
           if (i <? n0)%nat
           then Ok (NdArray rest
                      (take (size_of rest) (drop (i * size_of rest) (data a))))
           else Raise IndexError
       | [] => Raise IndexError
       end.

(** [np.squeeze]. *)
Definition squeeze (a : ndarray) : ndarray :=
  NdArray (filter (fun d => d <> 1%nat) (shape a)) (data a).

Definition arange (n : nat) : list Q :=
  map (fun i => inject_Z (Z.of_nat i)) (seq 0 n).

(** [np.meshgrid(xs, ys)]: both of shape [(len ys, len xs)]. *)
Definition meshgrid (xs ys : list Q) : ndarray * ndarray :=
  (NdArray [length ys; length xs] (mjoin (map (fun _ => xs) ys)),
   NdArray [length ys; length xs]
     (mjoin (map (fun y => map (fun _ => y) xs) ys))).

Definition ones (sh : list nat) : ndarray :=
  NdArray sh (replicate (size_of sh) 1).

Definition nd_scale (a : ndarray) (c : Q) : ndarray :=
  NdArray (shape a) (map (fun v => v * c) (data a)).

(** A masked array of any rank. *)
Record mndarray := MNdArray { mshape : list nat; mcells : list (masked Q) }.

(** [np.ma.masked_where(np.abs(a) > 9e10, a)]. *)
Definition masked_where_sentinel (a : ndarray) : mndarray :=
  MNdArray (shape a)
    (map (fun v => Masked v (Qltb (inject_Z (9 * 10 ^ 10)) (Qabs v))) (data a)).

(** [np.ma.array([a0, a1, ...])]: the results stacked along a new first
    axis. *)
Definition ma_stack (l : list mndarray) : mndarray :=
  MNdArray (length l :: match l with a :: _ => mshape a | [] => [] end)
           (mjoin (map mcells l)).

(** Arrays of [depth_average], held by horizontal cell: [a !! j !! i] is
    the value, or the column of layer values bottom to top, at row [j]
    (eta) and position [i] (xi).  Every numpy operation of
    [depth_average] is pointwise in the two horizontal axes and reduces
    along the layer axis only. *)
Abbreviation hgrid A := (list (list A)).

Definition hget {A} (a : hgrid A) (j i : nat) : option A :=
  a !! j ≫= fun row => row !! i.

Definition hzip {A B C} (f : A -> B -> C) (a : hgrid A) (b : hgrid B)
  : hgrid C :=
  zip_with (zip_with f) a b.

(** The numpy shape [(layers, eta, xi)] of an array held by column. *)
Definition shape3 {A} (a : hgrid (list A)) : nat * nat * nat :=
  (match a with (c :: _) :: _ => length c | _ => 0%nat end,
   length a,
   match a with r :: _ => length r | [] => 0%nat end).

Definition shape3_eqb (s t : nat * nat * nat) : bool :=
  let '(a, b, c) := s in
  let '(a', b', c') := t in
  (a =? a')%nat && (b =? b')%nat && (c =? c')%nat.

Fixpoint sequence {A} (l : list (result A)) : result (list A) :=
  match l with
  | [] => Ok []
  | r :: l' => let? a := r in let? l'' := sequence l' in Ok (a :: l'')
  end.

Definition hsequence {A} (a : hgrid (result A)) : result (hgrid A) :=
  sequence (map sequence a).

(** The grid object: the attributes [analysis.py] reads. *)
Module Grid.
Record t := Make {
  n : nat;
  depth_rho : hgrid (list Q);
  thick_rho : hgrid (list Q);
  thick_u : hgrid (list Q);
  thick_v : hgrid (list Q);
  mask_rho : hgrid Q;
  h : hgrid Q;
  hc : Q;
  s_rho : list Q;
  cs_r : list Q;
  vtransform : Z;
  vstretching : Z;
  theta_s : Q;
  theta_b : Q
}.
End Grid.

(** What one worker of [constant_depth] is given. *)
Record job (pmap_t : Type) := Job {
  job_x : ndarray;
  job_y : ndarray;
  job_z : hgrid (list Q);
  job_dat : ndarray;
  job_fz : ndarray;
  job_pmap : pmap_t
}.
Arguments Job {pmap_t}.
Arguments job_x {pmap_t}.
Arguments job_y {pmap_t}.
Arguments job_z {pmap_t}.
Arguments job_dat {pmap_t}.
Arguments job_fz {pmap_t}.
Arguments job_pmap {pmap_t}.

(** ** Scalar float operations of [transect] *)

Definition Qsum (l : list Q) : Q := foldr Qplus 0 l.

(** [a.mean()]: the mean of an empty array is NaN (numpy warns, it does
    not raise). *)
Definition f_mean (l : list Q) : float64 :=
  match l with
  | [] => NaN
  | _ => Fin (Qsum l / inject_Z (Z.of_nat (length l)))
  end.

Definition f_abs (a : float64) : float64 :=
  match a with
  | Fin q => Fin (Qabs q)
  | PInf | NInf => PInf
  | NaN => NaN
  end.

(** Division of two [np.float64] scalars: a zero divisor gives an infinity
    or NaN, never an exception (the sign of a zero is not modelled). *)
Definition f_div (a b : float64) : float64 :=
  match a, b with
  | NaN, _ | _, NaN => NaN
  | Fin x, Fin y =>
      if Qeq_bool y 0
      then (if Qeq_bool x 0 then NaN else if Qltb 0 x then PInf else NInf)
      else Fin (x / y)
  | Fin _, _ => Fin 0
  | PInf, Fin y => if Qltb y 0 then NInf else PInf
  | NInf, Fin y => if Qltb y 0 then PInf else NInf
  | _, _ => NaN
  end.

(** [int(v)] for a float: truncation toward zero; NaN and the infinities
    cannot be converted. *)
Definition Qtrunc (q : Q) : Z := if Qltb q 0 then Qceiling q else Qfloor q.

Definition py_int (a : float64) : result Z :=
  match a with
  | Fin q => Ok (Qtrunc q)
  | NaN => Raise ValueError
  | PInf | NInf => Raise OverflowError
  end.

(** [10 ** k] for a Python int [k]: an int for [k >= 0], the float
    [1 / 10 ** -k] otherwise. *)
Definition pow10 (k : Z) : Q := Qpower 10 k.

(** ** One-dimensional helpers of [transect] *)

(** [np.linspace(start, stop, num)]: [arange(num) * step + start] with the
    last sample set to [stop]. *)
Definition linspace (start stop : Q) (num : nat) : list Q :=
  let step := (stop - start) / inject_Z (Z.of_nat (num - 1)) in
  let y := map (fun i => inject_Z (Z.of_nat i) * step + start) (seq 0 num) in
  if (1 <? num)%nat then <[(num - 1)%nat := stop]> y else y.

(** [np.diff]. *)
Definition diff (l : list Q) : list Q :=
  zip_with (fun a b => b - a) l (tail l).

Definition Qminimum (a b : Q) : Q := if Qltb b a then b else a.

(** [a.min()] and [a.max()] of a flat array: an empty one raises. *)
Definition amin (l : list Q) : result Q :=
  match l with
  | [] => Raise ValueError
  | a :: l' => Ok (foldl Qminimum a l')
  end.

Definition amax (l : list Q) : result Q :=
  match l with
  | [] => Raise ValueError
  | a :: l' => Ok (foldl Qmaximum a l')
  end.

(** [a.min(axis=0)] of a two-dimensional array held by rows. *)
Definition min_axis0 (a : list (list Q)) : result (list Q) :=
  match a with
  | [] => Raise ValueError
  | r :: rs => Ok (foldl (zip_with Qminimum) r rs)
  end.

(** [np.argsort]: the indices that sort the keys ascending.  Among equal
    keys the later index comes first here ([[-10; -10; -20; -10]] gives
    [[2; 3; 1; 0]]); numpy's default sort is not stable and leaves the
    order of equal keys open, and no property below reads it. *)
Fixpoint insert_key (k : Q) (i : nat) (l : list (Q * nat)) : list (Q * nat) :=
  match l with
  | [] => [(k, i)]
  | (k', i') :: l' =>
      if Qltb k k' then (k, i) :: l else (k', i') :: insert_key k i l'
  end.

Definition sort_keys (l : list (Q * nat)) : list (Q * nat) :=
  foldr (fun ki acc => insert_key ki.1 ki.2 acc) [] l.

Definition argsort (keys : list Q) : list nat :=
  map snd (sort_keys (zip keys (seq 0 (length keys)))).

(** [a[zl]] and [a[zl, :]]: the rows of [a] picked by the index list. *)
Definition take_rows {A} (a : list A) (zl : list nat) : result (list A) :=
  sequence (map (index a) zl).

(** [np.interp(x, xp, fp)] for one [x].  numpy expects [xp] to be
    increasing and does not check it.  On an increasing [xp] its binary
    search finds the last [j] with [xp[j] <= x], which is the count
    taken here.  On any other [xp] (in [transect], a path that turns
    back toward its first waypoint) numpy documents the result as
    meaningless and the interval it picks depends on its search; the
    count is then one choice of interval among those.  The properties
    below that read interpolated values compare interpolations over the
    same [xp] at the same [x], and use no more of the search than that
    it picks one interval for both. *)
Definition interp1 (xp fp : list Q) (x : Q) : Q :=
  let j := (length (filter (fun a => Qle_bool a x = true) xp) - 1)%nat in
  if Qltb x (nth 0 xp 0) then nth 0 fp 0
  else if (length xp <=? S j)%nat then nth (length fp - 1) fp 0
  else if Qeq_bool (nth j xp 0) x then nth j fp 0
  else (nth (S j) fp 0 - nth j fp 0) / (nth (S j) xp 0 - nth j xp 0)
       * (x - nth j xp 0) + nth j fp 0.

Definition interp (xs xp fp : list Q) : result (list Q) :=
  match xp with
  | [] => Raise ValueError
  | _ => if (length xp =? length fp)%nat
         then Ok (map (interp1 xp fp) xs)
         else Raise ValueError
  end.

(** [a.reshape((nz, nx))]. *)
Definition reshape {A} (l : list A) (nz nx : nat) : result (list (list A)) :=
  if (length l =? nz * nx)%nat
  then Ok (map (fun r => take nx (drop (r * nx) l)) (seq 0 nz))
  else Raise ValueError.

(** ** The caller's arrays *)

Definition loc := nat.

(** An array of rank one or two on the heap. *)
Inductive harray :=
| H1 (v : list Q)
| H2 (m : list (list Q)).

(** An argument: a numpy array of the caller ([Ref]), or a Python list,
    which numpy converts into a fresh array ([Lit]). *)
Inductive arg :=
| Ref (l : loc)
| Lit (a : harray).

Definition harray_map (f : Q -> Q) (a : harray) : harray :=
  match a with
  | H1 v => H1 (map f v)
  | H2 m => H2 (map (map f) m)
  end.

(** The rows seen through [np.atleast_2d]: a view, not a copy. *)
Definition rows_of (a : harray) : list (list Q) :=
  match a with
  | H1 v => [v]
  | H2 m => m
  end.

(** One call of [scipy.interpolate.griddata]: source points, source
    values, target points. *)
Record griddata_call := GriddataCall {
  src_x : list Q;
  src_z : list Q;
  src_val : list Q;
  tgt_x : list Q;
  tgt_z : list Q
}.

Record tstate := TState {
  heap : gmap loc harray;
  calls : list griddata_call
}.

(** Reading an argument. A [Ref] outside the heap is not a well-formed
    call; it is reported as a [TypeError]. *)
Definition read_arg (a : arg) : Py.M tstate harray :=
  match a with
  | Lit v => Py.ret v
  | Ref l => fun s => match heap s !! l with
                      | Some v => (Ok v, s)
                      | None => (Raise TypeError, s)
                      end
  end.

(** [a[a > 0] *= -1] through the view: a caller's array is written in
    place, a converted list is a private buffer. *)
Definition negate_positive (a : arg) : Py.M tstate harray :=
  match a with
  | Lit v => Py.ret (harray_map neg_pos v)
  | Ref l => fun s => match heap s !! l with
                      | Some v =>
                          let v' := harray_map neg_pos v in
                          (Ok v', TState (<[l := v']> (heap s)) (calls s))
                      | None => (Raise TypeError, s)
                      end
  end.

(** ** Observations and pyplot *)

(** One observation: the entries at one index of the parallel arrays of
    a [seapy.roms.obs.obs] object. *)
Record observation := Observation {
  obs_type : Z;
  obs_provenance : Z;
  obs_time : Q;
  obs_x : Q;
  obs_y : Q;
  obs_z : Q;
  obs_lon : Q;
  obs_lat : Q;
  obs_depth : Q;
  obs_value : Q;
  obs_error : Q
}.

(** The keyword arguments handed on to pyplot. *)
Inductive kwval :=
| KInt (n : Z)
| KFloat (q : Q)
| KTuple (l : list Z).

Definition kwargs : Type := list (string * kwval).

(** What pyplot has been asked to draw. *)
Inductive plt_call :=
| Scatter (x y : list Q) (c : list float64) (kw : kwargs)
| Colorbar
| Plot (x : list float64) (y : list Q) (fmt : string) (kw : kwargs).

(** [np.where(cond)[0]]: the indices at which the condition holds,
    ascending. *)
Fixpoint where_from {A} (cond : A -> bool) (i : nat) (l : list A) : list nat :=
  match l with
  | [] => []
  | a :: l' =>
      if cond a then i :: where_from cond (S i) l'
      else where_from cond (S i) l'
  end.

Definition np_where {A} (cond : A -> bool) (l : list A) : list nat :=
  where_from cond 0 l.

(** [np.in1d(a, b)]. *)
Definition in1d (a b : list Q) : list bool :=
  map (fun v => existsb (Qeq_bool v) b) a.

(** [idx[mask]] for a boolean mask: the mask must have the length of
    [idx]. *)
Definition compress {A} (idx : list A) (mask : list bool) : result (list A) :=
  if (length idx =? length mask)%nat
  then Ok (map fst (filter (fun im => im.2 = true) (zip idx mask)))
  else Raise IndexError.

(** [idx.any()]: some entry is not zero. *)
Definition any_nonzero (idx : list nat) : bool :=
  existsb (fun i => negb (i =? 0)%nat) idx.

(** The truth value of a float: zero is false, NaN is true. *)
Definition truthy (a : float64) : bool :=
  match a with
  | Fin q => negb (Qeq_bool q 0)
  | _ => true
  end.

(** [idx[np.in1d(obs.time[idx], time)]] when a time is given. *)
Definition restrict_time (obs : list observation) (idx : list nat)
    (time : option (list Q)) : result (list nat) :=
  match time with
  | Some time =>
      let? t := take_rows (map obs_time obs) idx in
      compress idx (in1d t time)
  | None => Ok idx
  end.

(** ** netCDF files *)

(** What [gen_std_i] and [gen_std_f] read from the ROMS file: the data
    of its time variable and, by name, the records of its variables
    (one flattened array per index of the first axis). *)
Record dataset := Dataset {
  ds_time : list Q;
  ds_vars : gmap string (list (list Q))
}.

(** What is done to the two files, in order. *)
Inductive nc_event :=
| CreateVariable (f : string) (dims : list string)
| PutTime (n : nat) (t : float64)
| PutTimeAll (t : float64)
| PutRecord (v : string) (n : nat) (dat : list float64)
| Sync
| CloseOut
| CloseIn.

(** [a[i]] for a Python int [i]: a negative index counts from the end. *)
Definition np_index {A} (l : list A) (i : Z) : result A :=
  let n := Z.of_nat (length l) in
  if ((i <? - n) || (n <=? i))%Z then Raise IndexError
  else index l (Z.to_nat (if (i <? 0)%Z then i + n else i)).

(** [a[idx]] and [a[idx, :]] for an integer array [idx]. *)
Definition np_take {A} (l : list A) (idx : list Z) : result (list A) :=
  sequence (map (np_index l) idx).

(** [np.arange(start, stop, step)] on ints, for a positive step. *)
Definition arange_step (start stop : Z) (step : positive) : list Z :=
  map (fun i => (start + Z.of_nat i * Z.pos step)%Z)
      (seq 0 (Z.to_nat ((stop - start + Z.pos step - 1) / Z.pos step))).

(** [enumerate]. *)
Definition enumerate {A} (l : list A) : list (nat * A) :=
  zip (seq 0 (length l)) l.

(** [dat[dat > 10] = 0.0]. *)
Definition clip_std (d : float64) : float64 :=
  if f_ltb (Fin 10) d then Fin 0 else d.

(** The events that write to the output file. *)
Definition log_event (e : nc_event) : Py.M (list nc_event) unit :=
  Py.modify (fun s => s ++ [e]).

(** ** Stand-ins for the external functions

    Simple computable instances of the functions [analysis.py] imports,
    used to run the routines on concrete inputs. *)

Module Standin.

(** [seapy.adddim]: a new first axis of length one. *)
Definition adddim (a : ndarray) : ndarray :=
  NdArray (1%nat :: shape a) (data a).

(** The weight map of the objective analysis is not looked at. *)
Definition oasurf (x y d xat yat : ndarray) (pmap : option unit)
    (w nx ny : Z) : ndarray * unit :=
  (d, tt).

(** Stands for the vertical interpolation: the value of the first layer
    at every horizontal position. *)
Definition oavol (x y : ndarray) (z : hgrid (list Q)) (dat xat yat fz : ndarray)
    (pmap : unit) (w nx ny : Z) : ndarray * unit :=
  (NdArray (shape fz) (take (length (data fz)) (data dat)), tt).

(** Uniform sigma levels. *)
Definition stretching (vstretching : Z) (theta_s theta_b hc : Q) (n : nat)
    (w_grid : bool) : list Q * list Q :=
  let s := map (fun k => inject_Z (Z.of_nat k) / inject_Z (Z.of_nat n) - 1)
               (seq 0 (S n)) in
  (s, s).

Definition roms_depth (vtransform : Z) (h : hgrid Q) (hc : Q)
    (s_rho cs_r : list Q) : hgrid (list Q) :=
  map (map (fun hv => map (fun s => s * hv) s_rho)) h.

Definition roms_thickness (vtransform : Z) (h : hgrid Q) (hc : Q)
    (s_w cs_w : list Q) (zeta : hgrid Q) : hgrid (list Q) :=
  hzip (fun hv zv => map (fun ds => ds * (hv + zv)) (diff s_w)) h zeta.

(** Mean of the two neighbours along xi, respectively eta. *)
Definition avg (a b : masked Q) : masked Q :=
  Masked ((dat a + dat b) / 2) (msk a || msk b).

Definition rho2u (a : hgrid (list (masked Q))) : hgrid (list (masked Q)) :=
  map (fun row => zip_with (zip_with avg) row (tail row)) a.

Definition rho2v (a : hgrid (list (masked Q))) : hgrid (list (masked Q)) :=
  zip_with (zip_with (zip_with avg)) a (tail a).

(** Distance along a parallel near the equator, in metres: 111195 m per
    degree of longitude. *)
Definition earth_distance (lon0 lat0 lon lat : Q) : Q :=
  inject_Z 111195 * Qabs (lon - lon0).

(** The integer part of the decimal logarithm of a positive rational;
    [transect] only uses [int(log10(.))], and [max(1, 10 ** .)] of it is
    the same for this function and for the logarithm itself. *)
Fixpoint log10_up (fuel : nat) (q : Q) : Z :=
  match fuel with
  | O => 0
  | S fuel' => if Qle_bool 10 q then 1 + log10_up fuel' (q / 10) else 0
  end.

Fixpoint log10_down (fuel : nat) (q : Q) : Z :=
  match fuel with
  | O => 0
  | S fuel' => if Qltb q 1 then log10_down fuel' (q * 10) - 1 else 0
  end.

Definition log10 (q : Q) : Q :=
  inject_Z (if Qle_bool 1 q then log10_up 400 q else log10_down 400 q).

(** Nearest source point, in place of the cubic interpolant. *)
Definition dist2 (x z x' z' : Q) : Q :=
  (x - x') * (x - x') + (z - z') * (z - z').

Fixpoint nearest (x z : Q) (src : list (Q * Q * Q)) (best : Q * Q) : Q :=
  match src with
  | [] => best.2
  | (sx, sz, sv) :: src' =>
      let d := dist2 x z sx sz in
      nearest x z src' (if Qltb d best.1 then (d, sv) else best)
  end.

Definition griddata (sx sz sv tx tz : list Q) : result (list float64) :=
  if (length sx =? length sz)%nat && (length sx =? length sv)%nat
     && (length tx =? length tz)%nat
  then match zip (zip sx sz) sv with
       | [] => Raise ValueError
       | (x0, z0, v0) :: src =>
           Ok (zip_with (fun x z =>
                           Fin (nearest x z src (dist2 x z x0 z0, v0)))
                        tx tz)
       end
  else Raise ValueError.

(** The observation object, its type and its provenance are given as
    they are. *)
Definition asobs (o : list observation) : list observation := o.

Definition astype (t : Z) : Z := t.

Definition asprovenance (p : Z) : Z := p.

(** Stands for the square root: the value itself, NaN below zero. *)
Definition np_sqrt (q : Q) : float64 := if Qltb q 0 then NaN else Fin q.

(** Stands for the standard deviation along the first axis: the spread
    between the greatest and the least record at every position. *)
Definition np_std (r : list (list Q)) : list float64 :=
  match r with
  | [] => []
  | r0 :: rs =>
      map Fin (zip_with Qminus (foldl (zip_with Qmaximum) r0 rs)
                               (foldl (zip_with Qminimum) r0 rs))
  end.

End Standin.

(** ** Sample inputs *)

Module Sample.

(** A grid of one row and two cells with two layers; the second cell is
    land. *)
Definition grid : Grid.t :=
  Grid.Make 2
    [[[-75; -25]; [-75; -25]]]
    [[[50; 50]; [50; 50]]]
    [[[50; 50]]]
    []
    [[1; 0]]
    [[100; 100]]
    10
    [-3 # 4; -1 # 4]
    [-3 # 4; -1 # 4]
    2 4 7 2.

Definition field : hgrid (list (masked Q)) :=
  [[[unmasked 5; unmasked 5]; [unmasked 5; unmasked 5]]].

Definition zeta : hgrid Q := [[1 # 2; 1 # 2]].

(** A field on the u-grid of the sample grid: its one point lies between
    the water cell and the land cell. *)
Definition field_u : hgrid (list (masked Q)) := [[[unmasked 5; unmasked 5]]].

(** Fields of rank 2 and 5 for [constant_depth]. *)
Definition field2 : ndarray := NdArray [2; 3]%nat [1; 2; 3; 4; 5; 6].

Definition field5 : ndarray := NdArray [1; 1; 1; 1; 1]%nat [7].

(** Two waypoints on the equator, one degree apart. *)
Definition lon : list Q := [0; 1].
Definition lat : list Q := [0; 0].

(** Two layers over a flat bottom at 100 m, given with positive depths
    as a numpy array at location 0, the data at location 1. *)
Definition depth_pos : harray := H2 [[10; 10]; [100; 100]].
Definition data2 : harray := H2 [[1; 1]; [2; 2]].
Definition heap_pos : gmap loc harray := <[1%nat := data2]> {[0%nat := depth_pos]}.
Definition state_pos : tstate := TState heap_pos [].

Definition state_empty : tstate := TState ∅ [].

(** The same layers with the sign convention applied, and a data array
    with one layer more than the depth array. *)
Definition depth_neg : harray := H2 [[-10; -10]; [-100; -100]].
Definition data3 : harray := H2 [[1; 1]; [2; 2]; [3; 3]].

(** A sloping bottom under one layer, and a caller's vertical axis that
    is not uniform, at location 0. *)
Definition depth_slope : harray := H2 [[-100; -1]].
Definition data_slope : harray := H2 [[1; 2]].

(** Water one metre deep. *)
Definition depth_shallow : harray := H2 [[-1; -1]].
Definition data_shallow : harray := H2 [[5; 5]].

(** Three waypoints on the equator, the last one half way back toward
    the first, over two flat layers at 10 m and 98 m. *)
Definition lon_back : list Q := [0; 2; 1].
Definition lat_back : list Q := [0; 0; 0].
Definition depth_back : harray := H2 [[-10; -10; -10]; [-98; -98; -98]].
Definition data_back : harray := H2 [[1; 1; 1]; [2; 2; 2]].

(** A field of rank 4 with two time records; one value is the fill value
    of the objective analysis. *)
Definition field4 : ndarray :=
  NdArray [2; 1; 1; 2]%nat [1; 2; inject_Z (10 ^ 11); 4].

(** A field on the sample grid whose two layers differ at the water
    cell. *)
Definition field_var : hgrid (list (masked Q)) :=
  [[[unmasked 4; unmasked 6]; [unmasked 5; unmasked 5]]].

(** A data array with one layer less than [depth_neg]. *)
Definition data1 : harray := H2 [[1; 1]].

(** Two observations of different types at the surface; only the first
    one is of type 1. *)
Definition obs_pair : list observation :=
  [Observation 1 100 0 1 1 0 150 20 0 7 1;
   Observation 2 100 0 2 2 0 151 21 0 8 1].

(** A file of eight records with one prognostic variable and the
    bathymetry. *)
Definition nc_small : dataset :=
  Dataset [0; 1; 2; 3; 4; 5; 6; 7]
          (<["h" := [[100]]]>
             {["temp" := [[1]; [2]; [3]; [4]; [5]; [50]; [7]; [8]]]}).

Definition roms_fields : gset string := {["temp"; "salt"]}.

(** A file of three records with a surface stress. *)
Definition nc_frc : dataset :=
  Dataset [0; 1; 2] {["sustr" := [[1; 10]; [2; 30]; [3; 20]]]}.

(** The variables of a fresh output file. *)
Definition out_vars : gset string := {["ocean_time"]}.

End Sample.

(** ** The routines *)

Section Analysis.

(** seapy, joblib and scipy functions outside [analysis.py]. *)
Variable pmap_t : Type.
Variable adddim : ndarray -> ndarray.
Variable oasurf :
  ndarray -> ndarray -> ndarray -> ndarray -> ndarray -> option pmap_t ->
  Z -> Z -> Z -> ndarray * pmap_t.
Variable oavol :
  ndarray -> ndarray -> hgrid (list Q) -> ndarray -> ndarray -> ndarray ->
  ndarray -> pmap_t -> Z -> Z -> Z -> ndarray * pmap_t.
Variable stretching :
  Z -> Q -> Q -> Q -> nat -> bool -> list Q * list Q.
Variable roms_depth :
  Z -> hgrid Q -> Q -> list Q -> list Q -> hgrid (list Q).
Variable roms_thickness :
  Z -> hgrid Q -> Q -> list Q -> list Q -> hgrid Q -> hgrid (list Q).
Variable rho2u rho2v : hgrid (list (masked Q)) -> hgrid (list (masked Q)).
Variable earth_distance : Q -> Q -> Q -> Q -> Q.
Variable log10 : Q -> Q.
Variable griddata :
  list Q -> list Q -> list Q -> list Q -> list Q -> result (list float64).

(** *** constant_depth *)

(** [__dinterp]. *)
Definition dinterp (j : job pmap_t) : mndarray :=
  let '(ndat, pm) :=
    oavol (job_x j) (job_y j) (job_z j) (job_dat j) (job_x j) (job_y j)
          (job_fz j) (job_pmap j) 5 1 1 in
  masked_where_sentinel (squeeze ndat).

(** Handing one job to the worker pool. The state is the list of the
    jobs dispatched so far. *)
Definition dispatch (j : job pmap_t) : Py.M (list (job pmap_t)) mndarray :=
  fun s => (Ok (dinterp j), s ++ [j]).

Definition constant_depth (field : ndarray) (grid : Grid.t) (depth : Q)
    (zeta : option ndarray) (threads : Z)
  : Py.M (list (job pmap_t)) mndarray :=
  (let field := if (ndim field =? 3)%nat then adddim field else field in
   let zeta := match zeta with
               | Some z => if negb (ndim z =? 0)%nat then Some (adddim z)
                           else Some z
               | None => None
               end in
   let depth := norm_depth depth in
   nx <- Py.lift (shape_from_end field 1) ;;
   ny <- Py.lift (shape_from_end field 2) ;;
   let '(x, y) := meshgrid (arange nx) (arange ny) in
   let '(fz, pmap) := oasurf x y x x y None 5 1 1 in
   let fz := nd_scale (adddim (ones (shape x))) depth in
   nt <- Py.lift (index (shape field) 0) ;;
   nfield <- Py.for_each
               (fun i => dat <- Py.lift (index_first4 field i) ;;
                         dispatch (Job x y (Grid.depth_rho grid)
                                       (squeeze dat) fz pmap))
               (seq 0 nt) ;;
   Py.ret (ma_stack nfield))%py.

(** *** depth_average *)

(** [upper[np.where(upper < 0)] = inf]: the test reads the raw data, and
    the assignment unmasks the cell. *)
Definition set_upper (u : masked Q) : masked float64 :=
  if Qltb (dat u) 0 then Masked PInf false else Masked (Fin (dat u)) (msk u).

(** [lower[np.where(lower > 0)] = -inf]. *)
Definition set_lower (l : masked Q) : masked float64 :=
  if Qltb 0 (dat l) then Masked NInf false else Masked (Fin (dat l)) (msk l).

(** The layer selection as a masked integer array: one inside, masked
    zero outside. *)
Definition select (n amin amax : nat) : list (masked Q) :=
  map (fun k => let b := (k <=? amin)%nat && (amax <=? k)%nat in
                masked_equal0 (if b then 1 else 0))
      (seq 0 n).

(** The selection and the integration of [depth_average] at one
    horizontal cell: [field], [depths] and [thickness] are the columns
    of that cell. *)
Definition depth_average_column (n : nat) (field depths thickness : list (masked Q))
    (depth : Q) (top_depth : Q) : result (masked Q) :=
  let? top := (if Qeq_bool top_depth 0 then index_last depths
               else Ok (unmasked top_depth)) in
  let upper := map (fun d => set_upper (ma_sub d top)) depths in
  let lower := map (fun d => set_lower (ma_sub d (unmasked depth))) depths in
  let? imin := argmin upper in
  let? imax := argmax lower in
  let thickness := zip_with ma_imul thickness (select n imin imax) in
  Ok (ma_div (ma_sum (zip_with ma_mul field thickness)) (ma_sum thickness)).

Definition depth_average (field : hgrid (list (masked Q))) (grid : Grid.t)
    (depth top_depth : Q) (zeta : option (hgrid Q))
  : result (hgrid (masked Q)) :=
  let depth := norm_depth depth in
  let top_depth := norm_depth top_depth in
  let '(depth, top_depth) :=
    if Qltb top_depth depth then (top_depth, depth) else (depth, top_depth) in
  let drange := top_depth - depth in
  let '(depths, thickness) :=
    match zeta with
    | Some zeta =>
        let '(s_w, cs_w) :=
          stretching (Grid.vstretching grid) (Grid.theta_s grid)
                     (Grid.theta_b grid) (Grid.hc grid) (Grid.n grid) true in
        (hzip (fun col m => map (fun d => masked_equal0 (d * m)) col)
              (roms_depth (Grid.vtransform grid) (Grid.h grid) (Grid.hc grid)
                          (Grid.s_rho grid) (Grid.cs_r grid))
              (Grid.mask_rho grid),
         hzip (fun col m => map (fun t => unmasked (t * m)) col)
              (roms_thickness (Grid.vtransform grid) (Grid.h grid)
                              (Grid.hc grid) s_w cs_w zeta)
              (Grid.mask_rho grid))
    | None =>
        (hzip (fun col m => map (fun d => masked_equal0 (d * m)) col)
              (Grid.depth_rho grid) (Grid.mask_rho grid),
         hzip (fun col m => map (fun t => masked_equal0 (t * m)) col)
              (Grid.thick_rho grid) (Grid.mask_rho grid))
    end in
  let '(depths, thickness) :=
    if shape3_eqb (shape3 field) (shape3 (Grid.thick_u grid))
    then (rho2u depths, rho2u thickness)
    else if shape3_eqb (shape3 field) (shape3 (Grid.thick_v grid))
    then (rho2v depths, rho2v thickness)
    else (depths, thickness) in
  hsequence
    (hzip (fun f dt => depth_average_column (Grid.n grid) f dt.1 dt.2
                                            depth top_depth)
          field (hzip pair depths thickness)).

(** *** transect *)

(** [np.log10] of a float: [-inf] at zero, NaN below. *)
Definition f_log10 (a : float64) : float64 :=
  match a with
  | Fin q => if Qeq_bool q 0 then NInf
             else if Qltb q 0 then NaN else Fin (log10 q)
  | PInf => PInf
  | NInf | NaN => NaN
  end.

(** [np.hstack(([0], seapy.earth_distance(lon[0], lat[0], lon[1:],
    lat[1:])))]: the distance of every waypoint from the first. *)
Definition path_dist (lon lat : list Q) : list Q :=
  0 :: zip_with (earth_distance (nth 0 lon 0) (nth 0 lat 0))
                (tail lon) (tail lat).

Definition call_griddata (c : griddata_call) : Py.M tstate (list float64) :=
  fun s => (griddata (src_x c) (src_z c) (src_val c) (tgt_x c) (tgt_z c),
            TState (heap s) (calls s ++ [c])).

(** The vertical axis: [np.linspace(depth.min() - 2, depth.max(), nz)],
    or the caller's [z], sign-normalised in place ([z] must be an array:
    a Python list has no [z > 0]; a [z] of rank two is rejected by
    [np.interp] later on, here at once). *)
Definition vertical_axis (depth : list (list Q)) (nz : nat) (z : option arg)
  : Py.M tstate (list Q) :=
  match z with
  | None => Py.lift (let? lo := amin (mjoin depth) in
                     let? hi := amax (mjoin depth) in
                     Ok (linspace (lo - 2) hi nz))
  | Some (Lit _) => Py.raise TypeError
  | Some (Ref l) =>
      (v <- negate_positive (Ref l) ;;
       match v with
       | H1 v => Py.ret v
       | H2 _ => Py.raise ValueError
       end)%py
  end.

(** [np.atleast_2d(depth)] and [np.atleast_2d(data)] are views: [depth]
    is normalised through its view, and the values of [data] are those
    the caller's array holds after the two in-place normalisations.
    [idx], the bottom index [astype(int)] gives, is the truncation of the
    exact interpolated index.  The code truncates the index as float64
    arithmetic rounded it, which can be one less when the exact index is
    a whole number (a target cell lying on the bottom itself): such a
    cell is masked here and may be left valid by the code.
    [seapy.earth_distance] works on [lon[1:]] and [lat[1:]] entry by
    entry; the two are taken to be of one length here, and a call where
    they are not is reported as the [ValueError] numpy raises for shapes
    it cannot combine. *)
Definition transect (lon lat : list Q) (depth data : arg) (nx nz : nat)
    (z : option arg)
  : Py.M tstate (list Q * list Q * list (list (masked float64))) :=
  (depth <- negate_positive depth ;;
   let depth := rows_of depth in
   z <- vertical_axis depth nz z ;;
   data <- read_arg data ;;
   let data := rows_of data in
   let nz := length z in
   let dz := f_abs (f_mean (diff z)) in
   _ <- Py.lift (index lon 0) ;;
   _ <- Py.lift (index lat 0) ;;
   _ <- Py.lift (if (length lon =? length lat)%nat then Ok tt
                 else Raise ValueError) ;;
   let dist := path_dist lon lat in
   let dx := f_mean (diff dist) in
   k <- Py.lift (py_int (f_log10 (f_div dx dz))) ;;
   let zscale := Qmaximum 1 (pow10 k) in
   dmax <- Py.lift (amax dist) ;;
   let x := linspace 0 dmax nx in
   let xx := replicate nz (map (fun v => v / zscale) x) in
   let zz := map (fun zr => replicate (length x) zr) z in
   col0 <- Py.lift (sequence (map (fun r => index r 0) depth)) ;;
   let zl := argsort col0 in
   dmin <- Py.lift (amin (mjoin depth)) ;;
   let ncols := match depth with r :: _ => length r | [] => 0%nat end in
   sorted <- Py.lift (take_rows depth zl) ;;
   let dep := [replicate ncols (1 * 2 * dmin)] ++ sorted
              ++ [replicate ncols 0] in
   zl0 <- Py.lift (index zl 0) ;;
   d0 <- Py.lift (index data zl0) ;;
   dmid <- Py.lift (take_rows data zl) ;;
   zlN <- Py.lift (index_last zl) ;;
   dN <- Py.lift (index data zlN) ;;
   let dat := [d0] ++ dmid ++ [dN] in
   let dist := replicate (length dep) (map (fun v => v / zscale) dist) in
   xx0 <- Py.lift (index xx 0) ;;
   dist0 <- Py.lift (index dist 0) ;;
   mind <- Py.lift (min_axis0 depth) ;;
   w <- Py.lift (interp mind z (arange nz)) ;;
   f <- Py.lift (interp xx0 dist0 w) ;;
   let idx := map Qtrunc f in
   let mask := map (fun r => map (fun i => (Z.of_nat r <=? i)%Z) idx)
                   (seq 0 nz) in
   vals <- call_griddata (GriddataCall (mjoin dist) (mjoin dep) (mjoin dat)
                                       (mjoin xx) (mjoin zz)) ;;
   ndat <- Py.lift (reshape vals nz (length x)) ;;
   Py.ret (x, z, zip_with (zip_with Masked) ndat mask))%py.

(** *** Relations used in the statements *)

(** Equality of floats up to the representation of a rational. *)
Definition feq (a b : float64) : Prop :=
  match a, b with
  | Fin x, Fin y => x == y
  | PInf, PInf | NInf, NInf | NaN, NaN => True
  | _, _ => False
  end.

Definition ceq (a b : masked float64) : Prop :=
  msk a = msk b /\ feq (dat a) (dat b).

(** A thickness cell that cannot contribute: masked, or zero. *)
Definition dead (c : masked Q) : Prop := msk c = true \/ dat c == 0.

(** The depth and thickness arrays [depth_average] starts from, before
    the land mask is applied: the static ones of the grid, or the ones
    computed for the free surface. *)
Definition level_depths (grid : Grid.t) (zeta : option (hgrid Q))
  : hgrid (list Q) :=
  match zeta with
  | Some _ => roms_depth (Grid.vtransform grid) (Grid.h grid) (Grid.hc grid)
                         (Grid.s_rho grid) (Grid.cs_r grid)
  | None => Grid.depth_rho grid
  end.

Definition level_thickness (grid : Grid.t) (zeta : option (hgrid Q))
  : hgrid (list Q) :=
  match zeta with
  | Some zeta =>
      roms_thickness (Grid.vtransform grid) (Grid.h grid) (Grid.hc grid)
        (stretching (Grid.vstretching grid) (Grid.theta_s grid)
                    (Grid.theta_b grid) (Grid.hc grid) (Grid.n grid) true).1
        (stretching (Grid.vstretching grid) (Grid.theta_s grid)
                    (Grid.theta_b grid) (Grid.hc grid) (Grid.n grid) true).2
        zeta
  | None => Grid.thick_rho grid
  end.

(** The pieces of [transect] that its properties name. *)
Definition zscale_of (k : Z) : Q := Qmaximum 1 (pow10 k).

Definition scaled (zscale : Q) (l : list Q) : list Q :=
  map (fun v => v / zscale) l.

Definition ncols (depth : list (list Q)) : nat :=
  match depth with r :: _ => length r | [] => 0%nat end.

(** The spacing of the waypoints as the description has it: the
    distance from every waypoint to the next one.  It is written from
    the description, to be compared with [diff (path_dist lon lat)], the
    differences of the distances from the first waypoint, which the code
    takes the mean of. *)
Definition waypoint_spacing (lon lat : list Q) : list Q :=
  zip_with (fun p q => earth_distance p.1 p.2 q.1 q.2)
           (zip lon lat) (tail (zip lon lat)).

(** [dep]: the sorted layers between the two padding rows. *)
Definition padded (depth sorted : list (list Q)) (dmin : Q)
  : list (list Q) :=
  [replicate (ncols depth) (1 * 2 * dmin)] ++ sorted
  ++ [replicate (ncols depth) 0].

(** [mask]: row [r], column [c] is masked when [r <= idx[c]]. *)
Definition bottom_mask (nz : nat) (f : list Q) : list (list bool) :=
  map (fun r => map (fun i => (Z.of_nat r <=? i)%Z) (map Qtrunc f))
      (seq 0 nz).


(** The intermediate values of a run of [transect] that returns. *)
Inductive transect_run (lon lat : list Q) (depth data : arg) (nx nz : nat)
    (z : option arg) (s : tstate) (x zax : list Q)
    (ndat : list (list (masked float64))) (s' : tstate) : Prop :=
| TransectRun (da dh : harray) (s2 s3 : tstate) (k : Z) (dmax dmin : Q)
    (col0 : list Q) (sorted dmid : list (list Q)) (zl0 zlN : nat)
    (d0 dN mind w f : list Q) (vals : list float64)
    (ndat0 : list (list float64))
    (Hdata : read_arg data s3 = (Ok da, s3))
    (Hdepth : negate_positive depth s = (Ok dh, s2))
    (Hz : vertical_axis (rows_of dh) nz z s2 = (Ok zax, s3))
    (Hlon : lon <> [])
    (Hk : py_int (f_log10 (f_div (f_mean (diff (path_dist lon lat)))
                                 (f_abs (f_mean (diff zax))))) = Ok k)
    (Hdmax : amax (path_dist lon lat) = Ok dmax)
    (Hx : x = linspace 0 dmax nx)
    (Hcol0 : sequence (map (fun r => index r 0) (rows_of dh)) = Ok col0)
    (Hdmin : amin (mjoin (rows_of dh)) = Ok dmin)
    (Hsorted : take_rows (rows_of dh) (argsort col0) = Ok sorted)
    (Hzl0 : index (argsort col0) 0 = Ok zl0)
    (Hd0 : index (rows_of da) zl0 = Ok d0)
    (Hdmid : take_rows (rows_of da) (argsort col0) = Ok dmid)
    (HzlN : index_last (argsort col0) = Ok zlN)
    (HdN : index (rows_of da) zlN = Ok dN)
    (Hnz : zax <> [])
    (Hmind : min_axis0 (rows_of dh) = Ok mind)
    (Hw : interp mind zax (arange (length zax)) = Ok w)
    (Hf : interp (scaled (zscale_of k) x)
                 (scaled (zscale_of k) (path_dist lon lat)) w = Ok f)
    (Hvals : griddata
               (mjoin (replicate (length (padded (rows_of dh) sorted dmin))
                                 (scaled (zscale_of k) (path_dist lon lat))))
               (mjoin (padded (rows_of dh) sorted dmin))
               (mjoin ([d0] ++ dmid ++ [dN]))
               (mjoin (replicate (length zax) (scaled (zscale_of k) x)))
               (mjoin (map (fun zr => replicate (length x) zr) zax))
             = Ok vals)
    (Hs' : s' = TState (heap s3)
                  (calls s3 ++
                   [GriddataCall
                      (mjoin (replicate
                                (length (padded (rows_of dh) sorted dmin))
                                (scaled (zscale_of k) (path_dist lon lat))))
                      (mjoin (padded (rows_of dh) sorted dmin))
                      (mjoin ([d0] ++ dmid ++ [dN]))
                      (mjoin (replicate (length zax) (scaled (zscale_of k) x)))
                      (mjoin (map (fun zr => replicate (length x) zr) zax))]))
    (Hreshape : reshape vals (length zax) (length x) = Ok ndat0)
    (Hndat : ndat = zip_with (zip_with Masked) ndat0
                             (bottom_mask (length zax) f)).

(** Order of the sort keys of [argsort]. *)
Definition key_le (p q : Q * nat) : Prop := p.1 <= q.1.

(** What a computation leaves alone. *)
Definition keeps_heap {A} (m : Py.M tstate A) : Prop :=
  forall s, heap (m s).2 = heap s.

Definition quiet {A} (m : Py.M tstate A) : Prop :=
  forall s, calls (m s).2 = calls s.

Definition fails_quietly {A} (m : Py.M tstate A) : Prop :=
  forall s, exists e, (m s).1 = Raise e /\ calls (m s).2 = calls s.

(** The heap after [a[a > 0] *= -1] on an argument. *)
Definition normalised_at (a : option arg) (h : gmap loc harray)
  : gmap loc harray :=
  match a with
  | Some (Ref l) => match h !! l with
                    | Some v => <[l := harray_map neg_pos v]> h
                    | None => h
                    end
  | _ => h
  end.

(** The convention of the description for a depth: a positive one is
    negated, a non-positive one is kept.  It is written here from the
    description, to be compared with [norm_depth] and [neg_pos], which
    are written from the code. *)
Definition below_surface (d : Q) : Q := if Qltb 0 d then - d else d.

(** The depth and thickness arrays [depth_average] integrates over, after
    the land mask is applied and a field of the u- or v-grid has them
    moved to its points: what the routine has before it turns to its
    depth arguments. *)
Definition masked_levels (field : hgrid (list (masked Q))) (grid : Grid.t)
    (zeta : option (hgrid Q))
  : hgrid (list (masked Q)) * hgrid (list (masked Q)) :=
  let depths :=
    hzip (fun col m => map (fun d => masked_equal0 (d * m)) col)
         (level_depths grid zeta) (Grid.mask_rho grid) in
  let thickness :=
    match zeta with
    | Some _ => hzip (fun col m => map (fun t => unmasked (t * m)) col)
                     (level_thickness grid zeta) (Grid.mask_rho grid)
    | None => hzip (fun col m => map (fun t => masked_equal0 (t * m)) col)
                   (level_thickness grid zeta) (Grid.mask_rho grid)
    end in
  if shape3_eqb (shape3 field) (shape3 (Grid.thick_u grid))
  then (rho2u depths, rho2u thickness)
  else if shape3_eqb (shape3 field) (shape3 (Grid.thick_v grid))
  then (rho2v depths, rho2v thickness)
  else (depths, thickness).

(** *** Names used in the further properties *)

(** The bounds [depth_average] integrates between: both sign-normalised,
    the deeper one first. *)
Definition ordered_bounds (depth top_depth : Q) : Q * Q :=
  let depth := norm_depth depth in
  let top_depth := norm_depth top_depth in
  if Qltb top_depth depth then (top_depth, depth) else (depth, top_depth).

(** The depth and thickness columns of a cell of the rho grid after the
    land mask [m] of the cell is applied: [np.ma.masked_equal(. * mask, 0)],
    and [np.ma.masked_array(. * mask, 0)] for the thickness computed from
    the free surface. *)
Definition cell_depths (m : Q) (dcol : list Q) : list (masked Q) :=
  map (fun d => masked_equal0 (d * m)) dcol.

Definition cell_thickness (zeta : option (hgrid Q)) (m : Q) (tcol : list Q)
  : list (masked Q) :=
  match zeta with
  | Some _ => map (fun t => unmasked (t * m)) tcol
  | None => map (fun t => masked_equal0 (t * m)) tcol
  end.

(** *** plot_obs_spatial, plot_obs_profile *)

(** Functions of seapy and numpy the four remaining routines call. *)
Variable obs_t type_t prov_t : Type.
Variable asobs : obs_t -> list observation.
Variable astype : type_t -> Z.
Variable asprovenance : prov_t -> Z.
Variable np_sqrt : Q -> float64.
Variable np_std : list (list Q) -> list float64.
Variable roms_fields : gset string.

Definition draw (c : plt_call) : Py.M (list plt_call) unit :=
  Py.modify (fun s => s ++ [c]).

(** A keyword of [kwargs] that the call already gives: Python raises a
    [TypeError] for an argument given twice. *)
Definition clashes (given : list string) (kw : kwargs) : bool :=
  existsb (fun kv => bool_decide (kv.1 ∈ given)) kw.

(** [plt.scatter(x[idx], y[idx], c=val[idx], **kwargs)]: the call gives
    the first two parameters of [scatter], which pyplot names [x] and
    [y], by position and [c] by keyword, so [kwargs] may hold none of
    the three.  What pyplot does with the arguments it accepts is not
    part of this file: the call is recorded. *)
Definition scatter (xs ys : list Q) (cs : list float64) (kw : kwargs)
  : Py.M (list plt_call) unit :=
  if clashes ["x"; "y"; "c"] kw then Py.raise TypeError
  else draw (Scatter xs ys cs kw).

Definition plot_obs_spatial (obs : obs_t) (type : type_t)
    (prov : option prov_t) (time : option (list Q)) (depth : Q)
    (gridcoord error : bool) (kw : kwargs)
  : Py.M (list plt_call) unit :=
  (let obs := asobs obs in
   let otype := astype type in
   let prov := asprovenance <$> prov in
   let idx :=
     match prov with
     | Some prov =>
         np_where (fun o => (obs_type o =? otype)%Z
                            && (obs_provenance o =? prov)%Z
                            && (Qeq_bool (obs_z o) 0
                                || Qeq_bool (obs_depth o) depth)) obs
     | None =>
         np_where (fun o => (obs_type o =? otype)%Z
                            && (Qeq_bool (obs_z o) 0
                                || Qeq_bool (obs_depth o) depth)) obs
     end in
   idx <- Py.lift (restrict_time obs idx time) ;;
   if negb (any_nonzero idx) then Py.ret tt
   else
     let kw := match kw with
               | [] => [("s", KInt 30); ("alpha", KFloat (8 # 10));
                        ("linewidths", KTuple [0; 0]%Z)]
               | _ => kw
               end in
     let '(x, y) := if gridcoord then (map obs_x obs, map obs_y obs)
                    else (map obs_lon obs, map obs_lat obs) in
     let val := if negb error then map (fun o => Fin (obs_value o)) obs
                else map (fun o => np_sqrt (obs_error o)) obs in
     xs <- Py.lift (take_rows x idx) ;;
     ys <- Py.lift (take_rows y idx) ;;
     cs <- Py.lift (take_rows val idx) ;;
     (scatter xs ys cs kw ;;;
      draw Colorbar))%py.

Definition plot_obs_profile (obs : obs_t) (type : type_t)
    (prov : option prov_t) (time : option (list Q))
    (gridcoord error : bool) (kw : kwargs)
  : Py.M (list plt_call) unit :=
  (let obs := asobs obs in
   let otype := astype type in
   let prov := asprovenance <$> prov in
   let idx :=
     match prov with
     | Some prov =>
         np_where (fun o => (obs_type o =? otype)%Z
                            && (obs_provenance o =? prov)%Z
                            && (Qltb (obs_z o) 0 || Qltb (obs_depth o) 0)) obs
     | None =>
         np_where (fun o => (obs_type o =? otype)%Z
                            && (Qltb (obs_z o) 0 || Qltb (obs_depth o) 0)) obs
     end in
   idx <- Py.lift (restrict_time obs idx time) ;;
   if negb (any_nonzero idx) then Py.ret tt
   else
     zs <- Py.lift (take_rows (map obs_z obs) idx) ;;
     let dep :=
       if gridcoord
       then (if truthy (f_mean (map (fun z => if Qltb 0 z then 1 else 0) zs))
             then map obs_z obs else map obs_depth obs)
       else (if truthy (f_mean (map (fun z => if Qltb z 0 then 1 else 0) zs))
             then map obs_z obs else map obs_depth obs) in
     let val := if negb error then map (fun o => Fin (obs_value o)) obs
                else map (fun o => np_sqrt (obs_error o)) obs in
     vs <- Py.lift (take_rows val idx) ;;
     ds <- Py.lift (take_rows dep idx) ;;
     draw (Plot vs ds "k+" kw))%py.

(** *** gen_std_i, gen_std_f *)

(** [set(nc.variables).intersection(fields)], each name with the
    variable [nc.variables[v]] the loops look up. *)
Definition std_fields (nc : dataset) (fields : gset string)
  : list (string * list (list Q)) :=
  map_to_list (filter (fun kv => kv.1 ∈ fields) (ds_vars nc)).

(** [out_vars] are the variables of the output file as
    [create_da_ini_std] and [grid.to_netcdf] leave it.  [std_window] is
    the size of a window, a positive number ([np.arange] rejects a zero
    step); the padding and the number of skipped records are any ints.
    The fields are gone through in the order of the set, which Python
    does not fix. *)
Definition gen_std_i (nc : dataset) (out_vars : gset string)
    (std_window : positive) (pad skip : Z) (fields : option (gset string))
  : Py.M (list nc_event) unit :=
  (let fields := match fields with Some f => f | None => roms_fields end in
   let fields := std_fields nc fields in
   let time := ds_time nc in
   (Py.for_each
      (fun f => log_event (CreateVariable
                             f ["ocean_time"; "s_rho"; "eta_rho"; "xi_rho"]))
      (filter (fun f => f ∉ out_vars) (fields.*1)) ;;;
    Py.for_each
      (fun nt : nat * Z =>
         let idx := arange_step (nt.2 - pad)
                                (nt.2 + Z.pos std_window + pad) 1 in
         tm <- Py.lift (np_take time idx) ;;
         (log_event (PutTime nt.1 (f_mean tm)) ;;;
          Py.for_each
            (fun vr : string * list (list Q) =>
               r <- Py.lift (np_take vr.2 idx) ;;
               log_event (PutRecord vr.1 nt.1 (map clip_std (np_std r))))
            fields ;;;
          log_event Sync))
      (enumerate (arange_step (skip + pad)
                    (Z.of_nat (length time) - Z.pos std_window - pad)
                    std_window)) ;;;
    log_event CloseOut ;;;
    log_event CloseIn))%py.

Definition gen_std_f (nc : dataset) (out_vars : gset string)
    (records : option (list Z)) (fields : option (gset string))
  : Py.M (list nc_event) unit :=
  (let fields := match fields with
                 | Some f => f
                 | None => {["sustr"; "svstr"; "shflux"; "ssflux"]}
                 end in
   let fields := std_fields nc fields in
   let time := ds_time nc in
   let records :=
     match records with
     | None => arange_step 0 (Z.of_nat (length time)) 1
     | Some r => filter (fun i => (i <= Z.of_nat (length time))%Z) r
     end in
   (Py.for_each
      (fun f => log_event (CreateVariable
                             f ["ocean_time"; "eta_rho"; "xi_rho"]))
      (filter (fun f => f ∉ out_vars) (fields.*1)) ;;;
    tm <- Py.lift (np_take time records) ;;
    (log_event (PutTimeAll (f_mean tm)) ;;;
     Py.for_each
       (fun vr : string * list (list Q) =>
          r <- Py.lift (np_take vr.2 records) ;;
          (log_event (PutRecord vr.1 0 (np_std r)) ;;;
           log_event Sync))
       fields ;;;
     log_event CloseOut ;;;
     log_event CloseIn)))%py.

(** *** Names used in the properties of the plots *)

(** The observations that satisfy a condition, each with its index. *)
Definition selected (p : observation -> bool) (obs : list observation)
  : list (nat * observation) :=
  filter (fun io => p io.2 = true) (enumerate obs).

(** An observation is of the type asked for, of the provenance asked
    for if one is, and lies at the surface of the grid or at the depth
    asked for. *)
Definition spatial_match (otype : Z) (prov : option Z) (depth : Q)
    (o : observation) : bool :=
  (obs_type o =? otype)%Z
  && match prov with Some p => (obs_provenance o =? p)%Z | None => true end
  && (Qeq_bool (obs_z o) 0 || Qeq_bool (obs_depth o) depth).

(** The same below the surface: a negative [z] or a negative depth. *)
Definition profile_match (otype : Z) (prov : option Z) (o : observation)
  : bool :=
  (obs_type o =? otype)%Z
  && match prov with Some p => (obs_provenance o =? p)%Z | None => true end
  && (Qltb (obs_z o) 0 || Qltb (obs_depth o) 0).

(** The time of an observation is one of the times asked for, if any
    is. *)
Definition time_match (time : option (list Q)) (o : observation) : bool :=
  match time with
  | Some t => existsb (Qeq_bool (obs_time o)) t
  | None => true
  end.

(** The keyword arguments [plot_obs_spatial] falls back on. *)
Definition scatter_defaults : kwargs :=
  [("s", KInt 30); ("alpha", KFloat (8 # 10));
   ("linewidths", KTuple [0; 0]%Z)].

(** *** Names used in the properties of the std files *)

(** The fields asked for, or the default of the routine. *)
Definition fields_or (default : gset string) (fields : option (gset string))
  : gset string :=
  match fields with Some f => f | None => default end.

(** The variables added to the output file. *)
Definition created (dims : list string) (out_vars : gset string)
    (flds : list (string * list (list Q))) : list nc_event :=
  map (fun f => CreateVariable f dims)
      (filter (fun f => f ∉ out_vars) (flds.*1)).

(** An event that writes no value above 10. *)
Definition clipped (e : nc_event) : Prop :=
  match e with
  | PutRecord _ _ dat => Forall (fun d => f_ltb (Fin 10) d = false) dat
  | _ => True
  end.

(** A computation that only appends events with a given property to the
    log, whether it returns or raises. *)
Definition logs (P : nc_event -> Prop) {A} (m : Py.M (list nc_event) A)
  : Prop :=
  forall s, exists evs, (m s).2 = s ++ evs /\ Forall P evs.

(** ** Properties *)

(** *** Order and sign facts *)

Lemma Qltb_lt a b : Qltb a b = true <-> a < b.
Proof.
  unfold Qltb. rewrite negb_true_iff. split.
  - intros H. apply Qnot_le_lt. intros Hle.
    apply Qle_bool_iff in Hle. congruence.
  - intros H. destruct (Qle_bool b a) eqn:E; [|done].
    apply Qle_bool_iff in E. exfalso. apply (Qlt_not_le _ _ H E).
Qed.

Lemma Qltb_ge a b : Qltb a b = false <-> b <= a.
Proof. unfold Qltb. rewrite negb_false_iff. apply Qle_bool_iff. Qed.

Lemma Qopp_nonpos_zero d : d <= 0 -> 0 <= d -> - d = d.
Proof.
  destruct d as [n m]. unfold Qle, Qopp. simpl. intros H1 H2.
  assert (n = 0%Z) as -> by lia. reflexivity.
Qed.

Lemma norm_depth_pos d : 0 < d -> norm_depth d = - d.
Proof.
  intros H. unfold norm_depth.
  destruct (Qltb d 0) eqn:E; [|done].
  apply Qltb_lt in E. lra.
Qed.

Lemma norm_depth_nonpos d : d <= 0 -> norm_depth d = d.
Proof.
  intros H. unfold norm_depth.
  destruct (Qltb d 0) eqn:E; [done|].
  apply Qltb_ge in E. by apply Qopp_nonpos_zero.
Qed.

Lemma norm_depth_le d : norm_depth d <= 0.
Proof.
  unfold norm_depth. destruct (Qltb d 0) eqn:E.
  - apply Qltb_lt in E. by apply Qlt_le_weak.
  - apply Qltb_ge in E. lra.
Qed.

Lemma norm_depth_idem d : norm_depth (norm_depth d) = norm_depth d.
Proof. apply norm_depth_nonpos, norm_depth_le. Qed.

Lemma Qmult_m1 d : d * (-1 # 1) = - d.
Proof.
  destruct d as [n m]. unfold Qmult, Qopp. simpl.
  f_equal; [lia | apply Pos.mul_1_r].
Qed.

Lemma neg_pos_pos d : 0 < d -> neg_pos d = - d.
Proof.
  intros H. unfold neg_pos. apply Qltb_lt in H. rewrite H.
  apply Qmult_m1.
Qed.

Lemma neg_pos_nonpos d : d <= 0 -> neg_pos d = d.
Proof.
  intros H. unfold neg_pos. apply Qltb_ge in H. by rewrite H.
Qed.

Lemma neg_pos_le d : neg_pos d <= 0.
Proof.
  unfold neg_pos. destruct (Qltb 0 d) eqn:E.
  - apply Qltb_lt in E. rewrite Qmult_m1. lra.
  - by apply Qltb_ge in E.
Qed.

Lemma neg_pos_idem d : neg_pos (neg_pos d) = neg_pos d.
Proof. apply neg_pos_nonpos, neg_pos_le. Qed.

(** *** constant_depth *)

(** C1 (the code departs from the claim): [constant_depth] never reads
    [zeta] after adding an axis to it, so a call with a free-surface
    array dispatches the same jobs, with the static [grid.depth_rho], and
    returns the same field as the call without it. *)
Theorem constant_depth_ignores_zeta field grid depth zeta threads :
  constant_depth field grid depth (Some zeta) threads
  = constant_depth field grid depth None threads.
Proof. reflexivity. Qed.

Lemma for_each_dispatch (g : nat -> result ndarray) (mk : ndarray -> job pmap_t)
    (l : list nat) s :
  Forall (fun i => is_ok (g i) = true) l ->
  exists rs js,
    Py.for_each (fun i => (dat <- Py.lift (g i) ;; dispatch (mk dat))%py) l s
    = (Ok rs, s ++ js) /\ length js = length l.
Proof.
  revert s. induction l as [|i l IH]; intros s Hl.
  - exists [], []. by rewrite app_nil_r.
  - inversion Hl as [|? ? Hi Hl']; subst.
    destruct (g i) as [d|e] eqn:E; [|done].
    destruct (IH (s ++ [mk d]) Hl') as (rs & js & Hrs & Hlen).
    exists (dinterp (mk d) :: rs), (mk d :: js).
    cbn [Py.for_each]. unfold Py.bind at 1. unfold Py.bind at 1.
    unfold Py.lift at 1. rewrite E. unfold dispatch at 1.
    unfold Py.bind at 1. rewrite Hrs. unfold Py.ret.
    split; [|simpl; by rewrite Hlen].
    by rewrite <- app_assoc.
Qed.

Lemma shape_from_end_ok a k :
  (1 <= k <= ndim a)%nat -> exists n, shape_from_end a k = Ok n.
Proof.
  intros Hk. unfold shape_from_end, index.
  destruct (reverse (shape a) !! (k - 1)%nat) eqn:E; [by eexists|].
  apply lookup_ge_None in E. rewrite length_reverse in E.
  unfold ndim in Hk. lia.
Qed.

(** C4 (amended): no rank is checked by [constant_depth]. A field of
    rank below 3 (with a non-empty first axis when the rank is 2) fails
    with the [IndexError] of an indexing expression, before any job is
    dispatched; a field of rank 4 or more -- rank 5 included -- is not
    rejected: one job per index of its first axis is dispatched. *)
Theorem constant_depth_rank field grid depth zeta threads s :
  ((ndim field < 3)%nat ->
   (ndim field = 2%nat -> hd 0%nat (shape field) <> 0%nat) ->
   constant_depth field grid depth zeta threads s = (Raise IndexError, s))
  /\ ((4 <= ndim field)%nat ->
      exists r js,
        constant_depth field grid depth zeta threads s = (Ok r, s ++ js)
        /\ length js = hd 0%nat (shape field)).
Proof.
  split.
  - intros Hrank Hne. unfold constant_depth.
    destruct field as [sh dt]. unfold ndim in *. simpl in *.
    destruct sh as [|a [|b [|c sh]]]; simpl in *; try lia; try done.
    destruct a as [|a]; [by specialize (Hne eq_refl)|].
    unfold Py.bind, Py.lift, shape_from_end. simpl.
    destruct (oasurf _ _ _ _ _ _ _ _ _). reflexivity.
  - intros Hrank. unfold constant_depth.
    assert ((ndim field =? 3)%nat = false) as -> by (apply Nat.eqb_neq; lia).
    destruct (shape_from_end_ok field 1) as [nx Hnx]; [lia|].
    destruct (shape_from_end_ok field 2) as [ny Hny]; [lia|].
    unfold Py.bind at 1. unfold Py.lift at 1. rewrite Hnx.
    unfold Py.bind at 1. unfold Py.lift at 1. rewrite Hny.
    destruct (meshgrid _ _) as [x y].
    destruct (oasurf _ _ _ _ _ _ _ _ _) as [fz pmap].
    unfold Py.bind at 1. unfold Py.lift at 1.
    assert (index (shape field) 0 = Ok (hd 0%nat (shape field))) as ->.
    { unfold ndim in Hrank. destruct (shape field); simpl in *; [lia|done]. }
    unfold Py.bind at 1.
    match goal with
    | |- context [Py.for_each (fun i => Py.bind (Py.lift (?g i)) ?k) ?l s] =>
        destruct (for_each_dispatch g
                    (fun dat => Job x y (Grid.depth_rho grid) (squeeze dat)
                                    (nd_scale (adddim (ones (shape x)))
                                              (norm_depth depth)) pmap)
                    l s) as (rs & js & Hrs & Hlen)
    end.
    { apply Forall_forall. intros i Hi. apply elem_of_seq in Hi.
      unfold index_first4.
      assert ((ndim field <? 4)%nat = false) as -> by (apply Nat.ltb_ge; lia).
      unfold ndim in Hrank. destruct (shape field) as [|n0 rest]; simpl in *; [lia|].
      destruct (i <? n0)%nat eqn:E; [done|].
      apply Nat.ltb_ge in E. lia. }
    rewrite Hrs. unfold Py.ret. exists (ma_stack rs), js.
    split; [done|]. by rewrite Hlen, length_seq.
Qed.

(** *** Results in lists and grids *)

Lemma map_fmap {A B} (f : A -> B) l : map f l = f <$> l.
Proof. reflexivity. Qed.

Lemma sequence_Ok {A} (l : list (result A)) out :
  sequence l = Ok out <-> l = Ok <$> out.
Proof.
  revert out. induction l as [|r l IH]; intros out; simpl.
  - split; [intros [= <-]; done | by destruct out].
  - destruct r as [a|e]; simpl.
    + destruct (sequence l) as [l''|e] eqn:E; simpl.
      * split.
        -- intros [= <-]. simpl. f_equal. by apply IH.
        -- destruct out as [|b out]; [done|]. intros [= -> Hl].
           apply IH in Hl. congruence.
      * split; [done|]. destruct out as [|b out]; [done|].
        intros [= -> Hl]. apply IH in Hl. done.
    + split; [done|]. by destruct out.
Qed.

Lemma sequence_all_ok {A} (l : list (result A)) :
  Forall (fun r => is_ok r = true) l -> exists out, sequence l = Ok out.
Proof.
  induction 1 as [|r l Hr _ [out IH]]; [by exists []|].
  destruct r as [a|e]; [|done]. exists (a :: out). simpl. by rewrite IH.
Qed.

Lemma sequence_lookup {A} (l : list (result A)) out i r :
  sequence l = Ok out -> l !! i = Some r ->
  exists c, r = Ok c /\ out !! i = Some c.
Proof.
  intros Hs Hi. apply sequence_Ok in Hs. subst l.
  rewrite list_lookup_fmap in Hi.
  destruct (out !! i) as [c|]; [|done]. simpl in Hi.
  exists c. split; congruence.
Qed.

Lemma hget_hzip {A B C} (f : A -> B -> C) a b j i :
  hget (hzip f a b) j i
  = x ← hget a j i; y ← hget b j i; Some (f x y).
Proof.
  unfold hget, hzip. rewrite lookup_zip_with.
  destruct (a !! j) as [ra|]; [|done]. simpl.
  destruct (b !! j) as [rb|]; simpl.
  - rewrite lookup_zip_with. done.
  - by destruct (ra !! i).
Qed.

Lemma hsequence_all_ok {A} (a : hgrid (result A)) :
  (forall j i r, hget a j i = Some r -> is_ok r = true) ->
  exists out, hsequence a = Ok out.
Proof.
  intros H. unfold hsequence. apply sequence_all_ok.
  rewrite map_fmap. apply Forall_fmap, Forall_lookup. intros j row Hj. simpl.
  destruct (sequence_all_ok row) as [out Hout]; [|by rewrite Hout].
  apply Forall_lookup. intros i r Hi. apply (H j i).
  unfold hget. by rewrite Hj.
Qed.

Lemma hsequence_lookup {A} (a : hgrid (result A)) out j i r :
  hsequence a = Ok out -> hget a j i = Some r ->
  exists c, r = Ok c /\ hget out j i = Some c.
Proof.
  unfold hsequence, hget. intros Hs Hr.
  destruct (a !! j) as [row|] eqn:Hj; [|done]. simpl in Hr.
  destruct (sequence_lookup _ _ j (sequence row) Hs) as (orow & Ho & Hoj).
  { by rewrite map_fmap, list_lookup_fmap, Hj. }
  destruct (sequence_lookup _ _ _ _ Ho Hr) as (c & -> & Hc).
  exists c. split; [done|]. by rewrite Hoj.
Qed.

(** *** depth_average: the bounds *)

Lemma Qltb_proper a a' b b' : a == a' -> b == b' -> Qltb a b = Qltb a' b'.
Proof.
  intros Ha Hb. apply eq_true_iff_eq. rewrite !Qltb_lt, Ha, Hb. done.
Qed.

Lemma Qeq_bool_proper a a' b b' :
  a == a' -> b == b' -> Qeq_bool a b = Qeq_bool a' b'.
Proof.
  intros Ha Hb. apply eq_true_iff_eq. rewrite !Qeq_bool_iff, Ha, Hb. done.
Qed.

Lemma f_ltb_feq a a' b b' : feq a a' -> feq b b' -> f_ltb a b = f_ltb a' b'.
Proof. destruct a, a', b, b'; simpl; try done. apply Qltb_proper. Qed.

Lemma argbest_feq better l l' :
  (forall a a' b b', feq a a' -> feq b b' -> better a b = better a' b') ->
  Forall2 feq l l' ->
  match argbest better l, argbest better l' with
  | Some (i, b), Some (i', b') => i = i' /\ feq b b'
  | None, None => True
  | _, _ => False
  end.
Proof.
  intros Hb. induction 1 as [|a a' l l' Ha Hl IH]; simpl; [done|].
  destruct (argbest better l) as [[i b]|],
           (argbest better l') as [[i' b']|]; try done.
  destruct IH as [-> Hbb]. rewrite (Hb b b' a a' Hbb Ha).
  by destruct (better b' a').
Qed.

Lemma Forall2_ceq_map {A} (g g' : A -> masked float64) l :
  (forall x, ceq (g x) (g' x)) -> Forall2 ceq (map g l) (map g' l).
Proof. intros H. induction l; simpl; constructor; auto. Qed.

Lemma Forall2_filled fill u u' :
  Forall2 ceq u u' ->
  Forall2 feq (map (filled fill) u) (map (filled fill) u').
Proof.
  induction 1 as [|c c' u u' [Hm Hd] _ IH]; simpl; constructor; [|done].
  unfold filled. rewrite Hm. destruct (msk c'); [|done].
  by destruct fill.
Qed.

Lemma argmin_ceq u u' : Forall2 ceq u u' -> argmin u = argmin u'.
Proof.
  intros H. unfold argmin.
  pose proof (argbest_feq f_ltb _ _ f_ltb_feq (Forall2_filled PInf _ _ H))
    as Hb.
  destruct (argbest f_ltb (map (filled PInf) u)) as [[i b]|],
           (argbest f_ltb (map (filled PInf) u')) as [[i' b']|]; try done.
  by destruct Hb as [-> _].
Qed.

Lemma argmax_ceq u u' : Forall2 ceq u u' -> argmax u = argmax u'.
Proof.
  intros H. unfold argmax.
  pose proof (argbest_feq (fun b a => f_ltb a b) _ _
                (fun a a' b b' Ha Hb => f_ltb_feq b b' a a' Hb Ha)
                (Forall2_filled NInf _ _ H)) as Hb.
  destruct (argbest _ (map (filled NInf) u)) as [[i b]|],
           (argbest _ (map (filled NInf) u')) as [[i' b']|]; try done.
  by destruct Hb as [-> _].
Qed.

Lemma set_upper_ceq d t t' :
  t == t' ->
  ceq (set_upper (ma_sub d (unmasked t))) (set_upper (ma_sub d (unmasked t'))).
Proof.
  intros Ht. unfold set_upper, ma_sub, unmasked, ceq. simpl.
  destruct (msk d); simpl.
  - destruct (Qltb (dat d) 0); simpl; split; done.
  - rewrite (Qltb_proper (dat d - t) (dat d - t') 0 0) by (rewrite ?Ht; done).
    destruct (Qltb (dat d - t') 0); simpl; split; try done.
    by rewrite Ht.
Qed.

Lemma set_lower_ceq d t t' :
  t == t' ->
  ceq (set_lower (ma_sub d (unmasked t))) (set_lower (ma_sub d (unmasked t'))).
Proof.
  intros Ht. unfold set_lower, ma_sub, unmasked, ceq. simpl.
  destruct (msk d); simpl.
  - destruct (Qltb 0 (dat d)); simpl; split; done.
  - rewrite (Qltb_proper 0 0 (dat d - t) (dat d - t')) by (rewrite ?Ht; done).
    destruct (Qltb 0 (dat d - t')); simpl; split; try done.
    by rewrite Ht.
Qed.

(** The column computation reads its two bounds through comparisons
    only. *)
Lemma depth_average_column_proper n f d t dep dep' top top' :
  dep == dep' -> top == top' ->
  depth_average_column n f d t dep top
  = depth_average_column n f d t dep' top'.
Proof.
  intros Hd Ht. unfold depth_average_column.
  rewrite (Qeq_bool_proper top top' 0 0 Ht (Qeq_refl 0)).
  assert (argmax (map (fun c => set_lower (ma_sub c (unmasked dep))) d)
          = argmax (map (fun c => set_lower (ma_sub c (unmasked dep'))) d))
    as Hmax.
  { apply argmax_ceq, Forall2_ceq_map. intros c. by apply set_lower_ceq. }
  destruct (Qeq_bool top' 0).
  - destruct (index_last d) as [tc|e]; simpl; [|done]. by rewrite Hmax.
  - simpl. rewrite Hmax.
    assert (argmin (map (fun c => set_upper (ma_sub c (unmasked top))) d)
            = argmin (map (fun c => set_upper (ma_sub c (unmasked top'))) d))
      as ->; [|done].
    apply argmin_ceq, Forall2_ceq_map. intros c. by apply set_upper_ceq.
Qed.

(** C6: [depth_average] gives the same result when its two depth bounds
    are exchanged, for every field, grid and free surface. *)
Theorem depth_average_bounds_swap field grid a b zeta :
  depth_average field grid a b zeta = depth_average field grid b a zeta.
Proof.
  unfold depth_average.
  destruct (Qltb (norm_depth b) (norm_depth a)) eqn:E1,
           (Qltb (norm_depth a) (norm_depth b)) eqn:E2; try reflexivity.
  - apply Qltb_lt in E1, E2. lra.
  - apply Qltb_ge in E1, E2.
    assert (norm_depth a == norm_depth b) as Hab by lra.
    match goal with
    | |- context [let '(_, _) := ?p in _] => destruct p as [depths thickness]
    end.
    match goal with
    | |- context [let '(_, _) := ?p in _] => destruct p as [depths' thickness']
    end.
    f_equal. unfold hzip.
    apply zip_with_ext; [|done..]. intros frow dtrow.
    apply zip_with_ext; [|done..]. intros fcol dt.
    apply depth_average_column_proper; [done|]. by symmetry.
Qed.

(** *** depth_average: land cells *)

Lemma argbest_nonempty better l :
  l <> [] -> exists i b, argbest better l = Some (i, b).
Proof.
  destruct l as [|a l]; [done|]. intros _. simpl.
  destruct (argbest better l) as [[i b]|]; [|by eexists _, _].
  destruct (better b a); by eexists _, _.
Qed.

Lemma argmin_ok u : u <> [] -> exists i, argmin u = Ok i.
Proof.
  intros Hu. unfold argmin.
  destruct (argbest_nonempty f_ltb (map (filled PInf) u)) as (i & b & ->).
  - by destruct u.
  - by exists i.
Qed.

Lemma argmax_ok u : u <> [] -> exists i, argmax u = Ok i.
Proof.
  intros Hu. unfold argmax.
  destruct (argbest_nonempty (fun b a => f_ltb a b) (map (filled NInf) u))
    as (i & b & ->).
  - by destruct u.
  - by exists i.
Qed.

Lemma index_last_ok {A} (l : list A) : l <> [] -> exists a, index_last l = Ok a.
Proof.
  intros Hl. unfold index_last. destruct (last l) as [a|] eqn:E; [by exists a|].
  apply last_None in E. done.
Qed.

(** A cell with at least one layer always gets a value, masked or not. *)
Lemma depth_average_column_ok n f d t dep top :
  d <> [] -> exists c, depth_average_column n f d t dep top = Ok c.
Proof.
  intros Hd. unfold depth_average_column.
  assert (exists tc, (if Qeq_bool top 0 then index_last d
                      else Ok (unmasked top)) = Ok tc) as [tc ->].
  { destruct (Qeq_bool top 0); [by apply index_last_ok | by eexists]. }
  simpl.
  destruct (argmin_ok (map (fun c => set_upper (ma_sub c tc)) d)) as [i ->];
    [by destruct d|].
  destruct (argmax_ok (map (fun c => set_lower (ma_sub c (unmasked dep))) d))
    as [i' ->]; [by destruct d|].
  simpl. by eexists.
Qed.

Lemma ma_imul_dead t s : dead t -> dead (ma_imul t s).
Proof.
  unfold dead, ma_imul. simpl. intros [Hm|Hz].
  - left. by rewrite Hm.
  - right. rewrite Hz. ring.
Qed.

Lemma ma_sum_dead l : Forall dead l -> dat (ma_sum l) == 0.
Proof.
  unfold ma_sum. simpl. induction 1 as [|c l Hc _ IH]; simpl; [done|].
  rewrite IH. destruct Hc as [-> | Hz]; [ring|].
  destruct (msk c); [ring|]. rewrite Hz. ring.
Qed.

Lemma tiny_pos : 0 < tiny.
Proof. reflexivity. Qed.

(** numpy's domained division masks every quotient by zero. *)
Lemma ma_div_zero a b : dat b == 0 -> msk (ma_div a b) = true.
Proof.
  intros Hb. unfold ma_div. simpl.
  assert (Qle_bool (Qabs (dat b)) (Qabs (dat a) * tiny) = true) as ->; [|done].
  apply Qle_bool_iff. rewrite Hb. simpl.
  apply Qmult_le_0_compat; [apply Qabs_nonneg|]. apply Qlt_le_weak, tiny_pos.
Qed.

Lemma depth_average_column_dead n f d t dep top c :
  Forall dead t ->
  depth_average_column n f d t dep top = Ok c -> msk c = true.
Proof.
  intros Ht. unfold depth_average_column.
  destruct (if Qeq_bool top 0 then index_last d else Ok (unmasked top))
    as [tc|e]; simpl; [|done].
  destruct (argmin _) as [i|e]; simpl; [|done].
  destruct (argmax _) as [i'|e]; simpl; [|done].
  intros [= <-]. apply ma_div_zero, ma_sum_dead.
  generalize (select n i i'). induction Ht as [|tc' t' Hc _ IH]; intros sel.
  - done.
  - destruct sel as [|sc sel]; simpl; [done|].
    constructor; [by apply ma_imul_dead | apply IH].
Qed.

(** X18: at a horizontal cell of a rho-grid field where the grid's land
    mask is zero, [depth_average] returns a masked value, with or
    without free surface and for every pair of bounds: the thickness of
    the cell is masked or zero, and the masked division masks the
    quotient by zero.  The call returns as soon as every depth column of
    the grid has a layer. *)
Theorem depth_average_land_masked field grid depth top_depth zeta
    j i m fcol dcol tcol :
  shape3_eqb (shape3 field) (shape3 (Grid.thick_u grid)) = false ->
  shape3_eqb (shape3 field) (shape3 (Grid.thick_v grid)) = false ->
  Forall (Forall (fun col => col <> [])) (level_depths grid zeta) ->
  hget field j i = Some fcol ->
  hget (level_depths grid zeta) j i = Some dcol ->
  hget (level_thickness grid zeta) j i = Some tcol ->
  hget (Grid.mask_rho grid) j i = Some m ->
  m == 0 ->
  exists out c,
    depth_average field grid depth top_depth zeta = Ok out
    /\ hget out j i = Some c /\ msk c = true.
Proof.
  intros Hu Hv Hne Hf Hd Ht Hm Hm0. unfold depth_average.
  match goal with
  | |- context [let '(_, _) := ?p in _] => destruct p as [dp tp]
  end.
  assert (exists depths thickness,
    (match zeta with
     | Some zeta0 =>
         let '(s_w, cs_w) :=
           stretching (Grid.vstretching grid) (Grid.theta_s grid)
             (Grid.theta_b grid) (Grid.hc grid) (Grid.n grid) true in
         (hzip (fun col m => map (fun d => masked_equal0 (d * m)) col)
            (roms_depth (Grid.vtransform grid) (Grid.h grid) (Grid.hc grid)
               (Grid.s_rho grid) (Grid.cs_r grid)) (Grid.mask_rho grid),
          hzip (fun col m => map (fun t => unmasked (t * m)) col)
            (roms_thickness (Grid.vtransform grid) (Grid.h grid)
               (Grid.hc grid) s_w cs_w zeta0) (Grid.mask_rho grid))
     | None =>
         (hzip (fun col m => map (fun d => masked_equal0 (d * m)) col)
            (Grid.depth_rho grid) (Grid.mask_rho grid),
          hzip (fun col m => map (fun t => masked_equal0 (t * m)) col)
            (Grid.thick_rho grid) (Grid.mask_rho grid))
     end) = (depths, thickness)
    /\ (forall j' i' d, hget depths j' i' = Some d -> d <> [])
    /\ (exists d t, hget depths j i = Some d /\ hget thickness j i = Some t
                    /\ Forall dead t))
    as (depths & thickness & -> & Hall & (d & t & Hdj & Htj & Hdead)).
  { assert (forall (g : Q -> masked Q) raw j' i' d,
              Forall (Forall (fun col => col <> [])) raw ->
              hget (hzip (fun col m => map (fun v => g (v * m)) col) raw
                         (Grid.mask_rho grid)) j' i' = Some d -> d <> [])
      as Hnonempty.
    { intros g raw j' i' d0 Hraw. rewrite hget_hzip.
      destruct (hget raw j' i') as [col|] eqn:Hcol; [|done]. simpl.
      destruct (hget (Grid.mask_rho grid) j' i'); [|done]. simpl.
      intros [= <-]. unfold hget in Hcol.
      destruct (raw !! j') as [row|] eqn:Hrow; [|done]. simpl in Hcol.
      pose proof (Forall_lookup_1 _ _ _ _ Hraw Hrow) as Hr.
      pose proof (Forall_lookup_1 _ _ _ _ Hr Hcol) as Hc.
      by destruct col. }
    assert (forall (g : Q -> masked Q),
              (forall v, dead (g (v * m))) ->
              exists t, hget (hzip (fun col m => map (fun v => g (v * m)) col)
                                   (level_thickness grid zeta)
                                   (Grid.mask_rho grid)) j i = Some t
                        /\ Forall dead t) as Hthick.
    { intros g Hg. rewrite hget_hzip, Ht, Hm. simpl. eexists. split; [done|].
      rewrite map_fmap. apply Forall_fmap, Forall_forall. intros v _. apply Hg. }
    assert (forall (g : Q -> masked Q),
              exists d, hget (hzip (fun col m => map (fun v => g (v * m)) col)
                                   (level_depths grid zeta)
                                   (Grid.mask_rho grid)) j i = Some d) as Hdep.
    { intros g. rewrite hget_hzip, Hd, Hm. simpl. by eexists. }
    destruct zeta as [zeta0|]; unfold level_depths, level_thickness in *.
    - destruct (stretching _ _ _ _ _ _) as [s_w cs_w]. cbn [fst snd] in *.
      eexists _, _. split; [done|]. split; [intros j' i' d0; by apply (Hnonempty masked_equal0 _ j' i' d0 Hne)|].
      destruct (Hdep masked_equal0) as [d' Hd'].
      destruct (Hthick unmasked) as (t' & Ht' & Hdead').
      { intros v. right. simpl. rewrite Hm0. ring. }
      by exists d', t'.
    - eexists _, _. split; [done|]. split; [intros j' i' d0; by apply (Hnonempty masked_equal0 _ j' i' d0 Hne)|].
      destruct (Hdep masked_equal0) as [d' Hd'].
      destruct (Hthick masked_equal0) as (t' & Ht' & Hdead').
      { intros v. left. simpl. apply Qeq_bool_iff. rewrite Hm0. ring. }
      by exists d', t'. }
  rewrite Hu, Hv.
  destruct (hsequence_all_ok
              (hzip (fun f dt => depth_average_column (Grid.n grid) f dt.1 dt.2
                                                      dp tp)
                    field (hzip pair depths thickness))) as [out Hout].
  { intros j' i' r. rewrite !hget_hzip.
    destruct (hget field j' i') as [f'|]; [|done]. simpl.
    destruct (hget depths j' i') as [d'|] eqn:Hd'; [|done]. simpl.
    destruct (hget thickness j' i') as [t'|]; [|done]. simpl.
    intros [= <-].
    destruct (depth_average_column_ok (Grid.n grid) f' d' t' dp tp)
      as [c ->]; [by eapply Hall | done]. }
  destruct (hsequence_lookup _ _ j i
              (depth_average_column (Grid.n grid) fcol d t dp tp) Hout)
    as (c & Hc & Hget).
  { rewrite !hget_hzip, Hf, Hdj, Htj. done. }
  exists out, c. split; [done|]. split; [done|].
  by eapply depth_average_column_dead.
Qed.

(** *** transect: running the monad *)

Lemma bind_Ok_inv {S A B} (m : Py.M S A) (k : A -> Py.M S B) s b s' :
  Py.bind m k s = (Ok b, s') ->
  exists a s1, m s = (Ok a, s1) /\ k a s1 = (Ok b, s').
Proof. unfold Py.bind. destruct (m s) as [[a|e] s1]; [eauto|done]. Qed.

Lemma lift_Ok_inv {S A} (r : result A) (s : S) a s' :
  Py.lift r s = (Ok a, s') -> r = Ok a /\ s' = s.
Proof. unfold Py.lift. by intros [= -> ->]. Qed.

Ltac inv_lift H v Hv :=
  let s1 := fresh "s" in
  let Hs := fresh "Hs" in
  apply bind_Ok_inv in H as (v & s1 & Hv & H);
  apply lift_Ok_inv in Hv as [Hv Hs]; subst s1; cbv beta zeta in H.

Lemma read_arg_state a s r s' : read_arg a s = (r, s') -> s' = s.
Proof.
  destruct a as [l|v]; simpl; [|by intros [= _ <-]].
  destruct (heap s !! l); by intros [= _ <-].
Qed.

(** A run that returns went through every step. *)
Lemma transect_Ok_inv lon lat depth data nx nz z s x zax ndat s' :
  transect lon lat depth data nx nz z s = (Ok (x, zax, ndat), s') ->
  transect_run lon lat depth data nx nz z s x zax ndat s'.
Proof.
  intros H. unfold transect in H.
  apply bind_Ok_inv in H as (dh & s2 & Hdh & H). cbv beta zeta in H.
  apply bind_Ok_inv in H as (zv & s3 & Hzv & H). cbv beta zeta in H.
  apply bind_Ok_inv in H as (da & s1 & Hda & H). cbv beta zeta in H.
  pose proof (read_arg_state _ _ _ _ Hda) as ->.
  inv_lift H lon0 Hlon0. inv_lift H lat0 Hlat0. inv_lift H u Hlen.
  inv_lift H k Hk. inv_lift H dmax Hdmax.
  inv_lift H col0 Hcol0. inv_lift H dmin Hdmin. inv_lift H sorted Hsorted.
  inv_lift H zl0 Hzl0. inv_lift H d0 Hd0. inv_lift H dmid Hdmid.
  inv_lift H zlN HzlN. inv_lift H dN HdN.
  inv_lift H xx0 Hxx0. inv_lift H dist0 Hdist0. inv_lift H mind Hmind.
  inv_lift H w Hw. inv_lift H f Hf.
  apply bind_Ok_inv in H as (vals & s4 & Hvals & H). cbv beta zeta in H.
  inv_lift H grid Hgrid.
  unfold Py.ret in H. injection H as <- <- <- <-.
  unfold call_griddata in Hvals. cbn [src_x src_z src_val tgt_x tgt_z] in Hvals.
  injection Hvals as Hvals <-.
  assert (zv <> []) as Hnz.
  { intros ->. by vm_compute in Hxx0. }
  assert (xx0 = scaled (zscale_of k) (linspace 0 dmax nx)) as ->.
  { destruct zv; [done|]. simpl in Hxx0. by injection Hxx0 as <-. }
  assert (dist0 = scaled (zscale_of k) (path_dist lon lat)) as ->.
  { simpl in Hdist0. by injection Hdist0 as <-. }
  eapply (TransectRun _ _ _ _ _ _ _ _ _ _ _ _ da dh s2 s3 k dmax dmin col0
            sorted dmid zl0 zlN d0 dN mind w f vals grid); try done.
  intros ->. by vm_compute in Hlon0.
Qed.

(** *** transect: effects *)

Lemma keeps_heap_bind {A B} (m : Py.M tstate A) (k : A -> Py.M tstate B) :
  keeps_heap m -> (forall a, keeps_heap (k a)) -> keeps_heap (Py.bind m k).
Proof.
  intros Hm Hk s. unfold Py.bind. specialize (Hm s).
  destruct (m s) as [[a|e] s1]; simpl in *; [|done].
  by rewrite Hk.
Qed.

Lemma keeps_heap_lift {A} (r : result A) : keeps_heap (Py.lift r).
Proof. done. Qed.

Lemma keeps_heap_ret {A} (a : A) : keeps_heap (Py.ret a).
Proof. done. Qed.

Lemma keeps_heap_griddata c : keeps_heap (call_griddata c).
Proof. done. Qed.

Lemma read_arg_heap a s c :
  (read_arg a (TState (heap s) c)).1 = (read_arg a s).1.
Proof.
  destruct a as [l|v]; simpl; [|done]. by destruct (heap s !! l).
Qed.

Lemma keeps_heap_read_arg a : keeps_heap (read_arg a).
Proof.
  intros s. destruct a as [l|v]; simpl; [|done]. by destruct (heap s !! l).
Qed.

Lemma quiet_bind {A B} (m : Py.M tstate A) (k : A -> Py.M tstate B) :
  quiet m -> (forall a, quiet (k a)) -> quiet (Py.bind m k).
Proof.
  intros Hm Hk s. unfold Py.bind. specialize (Hm s).
  destruct (m s) as [[a|e] s1]; simpl in *; [|done].
  by rewrite Hk.
Qed.

Lemma quiet_lift {A} (r : result A) : quiet (Py.lift r).
Proof. done. Qed.

Lemma quiet_read_arg a : quiet (read_arg a).
Proof.
  intros s. destruct a as [l|v]; simpl; [|done]. by destruct (heap s !! l).
Qed.

Lemma quiet_negate_positive a : quiet (negate_positive a).
Proof.
  intros s. destruct a as [l|v]; simpl; [|done]. by destruct (heap s !! l).
Qed.

Lemma quiet_vertical_axis depth nz z : quiet (vertical_axis depth nz z).
Proof.
  destruct z as [[l|v]|]; unfold vertical_axis; try done.
  apply quiet_bind; [apply quiet_negate_positive|].
  by intros [v|m].
Qed.

Lemma fails_quietly_bind {A B} (m : Py.M tstate A) (k : A -> Py.M tstate B) :
  quiet m -> (forall a, fails_quietly (k a)) -> fails_quietly (Py.bind m k).
Proof.
  intros Hm Hk s. unfold Py.bind. specialize (Hm s).
  destruct (m s) as [[a|e] s1]; simpl in *.
  - destruct (Hk a s1) as (e & He & Hc). exists e. split; [done|]. congruence.
  - by exists e.
Qed.

Lemma fails_quietly_raise {A B} e (k : A -> Py.M tstate B) :
  fails_quietly (Py.bind (Py.lift (Raise e)) k).
Proof. intros s. by exists e. Qed.

Lemma negate_positive_heap a s :
  heap (negate_positive a s).2 = normalised_at (Some a) (heap s).
Proof.
  destruct a as [l|v]; simpl; [|done]. by destruct (heap s !! l).
Qed.

Lemma vertical_axis_heap depth nz z s :
  heap (vertical_axis depth nz z s).2 = normalised_at z (heap s).
Proof.
  destruct z as [[l|v]|]; simpl; try done.
  unfold Py.bind. simpl. destruct (heap s !! l) as [[v|m]|]; done.
Qed.

Lemma normalised_at_other a h l :
  Some (Ref l) <> a -> normalised_at a h !! l = h !! l.
Proof.
  intros Hne. destruct a as [[l'|v]|]; simpl; try done.
  destruct (h !! l') eqn:E; [|done].
  apply lookup_insert_ne. congruence.
Qed.

Lemma negate_positive_readable a s :
  is_ok (read_arg a s).1 = true -> is_ok (negate_positive a s).1 = true.
Proof.
  destruct a as [l|v]; simpl; [|done]. by destruct (heap s !! l).
Qed.

(** C3 (amended): [transect] writes through the views that
    [np.atleast_2d] and the caller's [z] are.  For every call whose
    [depth] argument is an array of the caller or a list, the heap it
    leaves is the caller's heap with the positive entries of the [depth]
    array, then of the [z] array, negated in place, whatever the outcome
    of the call; every other array, [data] included, holds what it
    held. *)
Theorem transect_heap_effect lon lat depth data nx nz z s :
  is_ok (read_arg depth s).1 = true ->
  heap (transect lon lat depth data nx nz z s).2
  = normalised_at z (normalised_at (Some depth) (heap s))
  /\ forall l, Some (Ref l) <> Some depth -> Some (Ref l) <> z ->
               heap (transect lon lat depth data nx nz z s).2 !! l
               = heap s !! l.
Proof.
  intros Hdepth.
  assert (heap (transect lon lat depth data nx nz z s).2
          = normalised_at z (normalised_at (Some depth) (heap s))) as Hheap.
  { unfold transect. unfold Py.bind at 1.
    pose proof (negate_positive_heap depth s) as Hd.
    pose proof (negate_positive_readable depth s Hdepth) as Hok.
    destruct (negate_positive depth s) as [[dh|e] s2]; [|done].
    cbn [snd] in Hd. rewrite <- Hd.
    unfold Py.bind at 1.
    pose proof (vertical_axis_heap (rows_of dh) nz z s2) as Hz.
    destruct (vertical_axis (rows_of dh) nz z s2) as [[zv|e] s3];
      cbn [snd] in Hz; [|done].
    rewrite <- Hz.
    match goal with
    | |- heap (?m s3).2 = _ => assert (keeps_heap m) as Hk; [|apply Hk]
    end.
    repeat (apply keeps_heap_bind;
            [first [apply keeps_heap_lift | apply keeps_heap_griddata
                   | apply keeps_heap_read_arg]
            |intros ?]).
    apply keeps_heap_ret. }
  split; [done|].
  intros l Hl1 Hl2. rewrite Hheap.
  by rewrite !normalised_at_other.
Qed.

(** *** transect: degenerate paths *)

Lemma Qsum_zero l : Forall (fun d => d == 0) l -> Qsum l == 0.
Proof.
  unfold Qsum. induction 1 as [|d l Hd _ IH]; simpl; [done|].
  rewrite Hd, IH. ring.
Qed.

Lemma diff_zero l :
  Forall (fun d => d == 0) l -> Forall (fun d => d == 0) (diff l).
Proof.
  unfold diff. intros Hl.
  assert (Forall (fun d => d == 0) (tail l)) as Ht.
  { destruct Hl; [constructor | done]. }
  revert Ht. generalize (tail l).
  induction Hl as [|a l Ha _ IH]; intros k Hk; [constructor|].
  destruct Hk as [|b k Hb Hk]; simpl; constructor.
  - rewrite Ha, Hb. ring.
  - by apply IH.
Qed.

Lemma f_mean_zero l :
  Forall (fun d => d == 0) l ->
  f_mean l = NaN \/ exists x, f_mean l = Fin x /\ x == 0.
Proof.
  intros Hl. destruct l as [|a l]; [by left|]. right.
  eexists. split; [reflexivity|].
  rewrite (Qsum_zero _ Hl). unfold Qdiv. ring.
Qed.

Lemma degenerate_raise dx dz :
  dx = NaN \/ (exists x, dx = Fin x /\ x == 0) ->
  exists e, py_int (f_log10 (f_div dx dz)) = Raise e.
Proof.
  intros [-> | (x & -> & Hx)]; [by exists ValueError|].
  destruct dz as [y| | |]; simpl.
  - destruct (Qeq_bool y 0) eqn:Ey.
    + apply Qeq_bool_iff in Hx. rewrite Hx. by exists ValueError.
    + simpl. assert (Qeq_bool (x / y) 0 = true) as ->.
      { apply Qeq_bool_iff. rewrite Hx. unfold Qdiv. ring. }
      by exists OverflowError.
  - by exists OverflowError.
  - by exists OverflowError.
  - by exists ValueError.
Qed.

Lemma short_path lon lat :
  (length lon < 2)%nat -> Forall (fun d => d == 0) (path_dist lon lat).
Proof.
  intros Hlen. unfold path_dist.
  destruct lon as [|a [|b lon]]; simpl in *; try lia;
    by constructor.
Qed.

(** C5 (amended): [transect] validates nothing.  With fewer than two
    waypoints, or with every waypoint at distance zero from the first,
    the mean horizontal spacing is NaN or zero, and the call fails when
    [int()] is applied to NaN or to an infinity (or at an earlier
    indexing error): it raises, and [griddata] has not been called. *)
Theorem transect_degenerate_fails lon lat depth data nx nz z s :
  (length lon < 2)%nat \/ Forall (fun d => d == 0) (path_dist lon lat) ->
  exists e,
    (transect lon lat depth data nx nz z s).1 = Raise e
    /\ calls (transect lon lat depth data nx nz z s).2 = calls s.
Proof.
  intros Hpath.
  assert (Forall (fun d => d == 0) (path_dist lon lat)) as Hzero.
  { destruct Hpath; [by apply short_path | done]. }
  revert s. change (fails_quietly (transect lon lat depth data nx nz z)).
  unfold transect.
  apply fails_quietly_bind; [apply quiet_negate_positive | intros dh].
  apply fails_quietly_bind; [apply quiet_vertical_axis | intros zv].
  apply fails_quietly_bind; [apply quiet_read_arg | intros da].
  do 3 (apply fails_quietly_bind; [apply quiet_lift | intros ?]).
  destruct (degenerate_raise (f_mean (diff (path_dist lon lat)))
              (f_abs (f_mean (diff zv)))) as [e ->].
  { apply f_mean_zero, diff_zero, Hzero. }
  apply fails_quietly_raise.
Qed.

(** *** transect: the scale factor *)

Lemma pow10_nonpos k : (k <= 0)%Z -> pow10 k <= 1.
Proof.
  intros Hk. unfold pow10.
  assert (k = (- - k)%Z) as -> by lia. rewrite Qpower_opp.
  assert (1 <= 10 ^ (- k)) as H1 by (apply Qpower_1_le; [done | lia]).
  assert (0 < 10 ^ (- k)) as H0 by lra.
  apply Qle_shift_inv_r; lra.
Qed.

Lemma Qtrunc_neg L : L < 0 -> (Qtrunc L <= 0)%Z.
Proof.
  intros HL. unfold Qtrunc. apply Qltb_lt in HL as HL'. rewrite HL'.
  assert (Qceiling L <= Qceiling 0)%Z as H
    by (apply Qceiling_resp_le; lra).
  by change (Qceiling 0) with 0%Z in H.
Qed.

Lemma Qfloor_neg L : L < 0 -> (Qfloor L <= 0)%Z.
Proof.
  intros HL.
  assert (Qfloor L <= Qfloor 0)%Z as H by (apply Qfloor_resp_le; lra).
  by change (Qfloor 0) with 0%Z in H.
Qed.

(** [int()] truncates toward zero where the description says floor; under
    [max(1, 10 ** .)] the two agree. *)
Lemma zscale_trunc_floor L : zscale_of (Qtrunc L) = zscale_of (Qfloor L).
Proof.
  destruct (Qltb L 0) eqn:E.
  - apply Qltb_lt in E. unfold zscale_of, Qmaximum.
    assert (Qltb 1 (pow10 (Qtrunc L)) = false) as ->
      by (apply Qltb_ge, pow10_nonpos, Qtrunc_neg, E).
    assert (Qltb 1 (pow10 (Qfloor L)) = false) as ->
      by (apply Qltb_ge, pow10_nonpos, Qfloor_neg, E).
    done.
  - unfold Qtrunc. by rewrite E.
Qed.

Lemma py_int_log10_inv dx dz k :
  py_int (f_log10 (f_div dx dz)) = Ok k ->
  exists x y, dx = Fin x /\ dz = Fin y /\ ~ y == 0 /\ 0 < x / y
              /\ k = Qtrunc (log10 (x / y)).
Proof.
  destruct dx as [x| | |], dz as [y| | |]; simpl; try done.
  - destruct (Qeq_bool y 0) eqn:Ey.
    + destruct (Qeq_bool x 0); [done|]. by destruct (Qltb 0 x).
    + simpl. destruct (Qeq_bool (x / y) 0) eqn:E0; [done|].
      destruct (Qltb (x / y) 0) eqn:E1; [done|]. simpl. intros [= <-].
      exists x, y. split_and!; try done.
      * intros Hy. apply Qeq_bool_iff in Hy. congruence.
      * apply Qltb_ge in E1. apply Qeq_bool_neq in E0.
        apply Qle_lteq in E1 as [H|H]; [done|]. by symmetry in H.
  - destruct (Qltb y 0); done.
  - destruct (Qltb y 0); done.
Qed.

Lemma transect_run_calls lon lat depth data nx nz z s x zax ndat s' :
  transect_run lon lat depth data nx nz z s x zax ndat s' ->
  exists c, calls s' = calls s ++ [c].
Proof.
  intros [da dh s2 s3 k dmax dmin col0 sorted dmid zl0 zlN d0 dN mind w f
            vals ndat0 ? Hdepth Hz ? ? ? ? ? ? ? ? ? ? ? ? ? ? ? ? ? Hs' ? ?].
  pose proof (quiet_negate_positive depth s) as H2. rewrite Hdepth in H2.
  pose proof (quiet_vertical_axis (rows_of dh) nz z s2) as H3.
  rewrite Hz in H3. simpl in H2, H3. subst s'. simpl.
  rewrite H3, H2. by eexists.
Qed.

(** C7 (amended): when [transect] returns, the one call of [griddata] it
    made has its source distances and its target distances divided by
    the same factor, and that factor is
    [max(1, 10 ^ floor(log10(dx / dz)))] for [dx] the mean of the
    differences of the waypoints' distances from the first waypoint
    ([path_dist], not the distances between neighbouring waypoints) and
    [dz] the absolute mean of the differences of the vertical axis. *)
Theorem transect_zscale lon lat depth data nx nz z s x zax ndat s' :
  transect lon lat depth data nx nz z s = (Ok (x, zax, ndat), s') ->
  exists dx dz c rows,
    f_mean (diff (path_dist lon lat)) = Fin dx
    /\ f_abs (f_mean (diff zax)) = Fin dz
    /\ calls s' = calls s ++ [c]
    /\ src_x c
       = mjoin (replicate rows
                  (scaled (Qmaximum 1 (pow10 (Qfloor (log10 (dx / dz)))))
                          (path_dist lon lat)))
    /\ tgt_x c
       = mjoin (replicate (length zax)
                  (scaled (Qmaximum 1 (pow10 (Qfloor (log10 (dx / dz)))))
                          x)).
Proof.
  intros H. apply transect_Ok_inv in H.
  destruct (transect_run_calls _ _ _ _ _ _ _ _ _ _ _ _ H) as [c Hc].
  destruct H as [da dh s2 s3 k dmax dmin col0 sorted dmid zl0 zlN d0 dN
                   mind w f vals ndat0 ? ? ? ? Hk ? ? ? ? ? ? ? ? ? ? ? ? ?
                   ? ? Hs' ? ?].
  apply py_int_log10_inv in Hk as (dx & dz & Hdx & Hdz & _ & _ & ->).
  exists dx, dz, c, (length (padded (rows_of dh) sorted dmin)).
  split; [done|]. split; [done|]. split; [done|].
  rewrite Hs' in Hc. simpl in Hc. apply app_inj_tail in Hc as [_ <-].
  simpl. fold (zscale_of (Qfloor (log10 (dx / dz)))).
  by rewrite <- zscale_trunc_floor.
Qed.

(** *** The sign convention of depths *)

Lemma harray_map_neg_pos_idem a :
  harray_map neg_pos (harray_map neg_pos a) = harray_map neg_pos a.
Proof.
  assert (forall v, map neg_pos (map neg_pos v) = map neg_pos v) as Hv.
  { intros v. rewrite List.map_map. apply List.map_ext.
    intros d. apply neg_pos_idem. }
  destruct a as [v|m]; simpl; f_equal; [apply Hv|].
  rewrite List.map_map. apply List.map_ext. apply Hv.
Qed.

Lemma negate_positive_value a s v :
  read_arg a s = (Ok v, s) ->
  (negate_positive a s).1 = Ok (harray_map neg_pos v).
Proof.
  destruct a as [l|w]; simpl.
  - destruct (heap s !! l); [|done]. by intros [= ->].
  - by intros [= ->].
Qed.

Lemma length_arange n : length (arange n) = n.
Proof. unfold arange. by rewrite length_map, length_seq. Qed.

Lemma norm_depth_below d : norm_depth d = below_surface d.
Proof.
  unfold below_surface. destruct (Qltb 0 d) eqn:E.
  - apply norm_depth_pos. by apply Qltb_lt.
  - apply norm_depth_nonpos. by apply Qltb_ge.
Qed.

Lemma neg_pos_below d : neg_pos d = below_surface d.
Proof.
  unfold below_surface, neg_pos. destruct (Qltb 0 d); [apply Qmult_m1 | done].
Qed.

Lemma harray_map_below a :
  harray_map neg_pos a = harray_map below_surface a.
Proof.
  assert (forall v, map neg_pos v = map below_surface v) as Hv.
  { intros v. apply List.map_ext. apply neg_pos_below. }
  destruct a as [v|m]; simpl; f_equal; [apply Hv|].
  apply List.map_ext. apply Hv.
Qed.

Lemma negate_positive_read a s dh s2 :
  negate_positive a s = (Ok dh, s2) ->
  exists v, read_arg a s = (Ok v, s) /\ dh = harray_map neg_pos v.
Proof.
  destruct a as [l|v]; simpl.
  - destruct (heap s !! l) as [v|]; [|done]. intros [= <- _]. by exists v.
  - intros [= <- _]. by exists v.
Qed.

(** What the loop of [constant_depth] leaves when it returns: one job per
    index, each built from the slice of that index. *)
Lemma for_each_dispatch_log (g : nat -> result ndarray)
    (mk : ndarray -> job pmap_t) (l : list nat) s rs s' :
  Py.for_each (fun i => (dat <- Py.lift (g i) ;; dispatch (mk dat))%py) l s
  = (Ok rs, s') ->
  exists slices,
    length slices = length l
    /\ rs = map (fun d => dinterp (mk d)) slices
    /\ s' = s ++ map mk slices.
Proof.
  revert s rs s'. induction l as [|i l IH]; intros s rs s' H.
  - injection H as <- <-. exists []. by rewrite app_nil_r.
  - cbn [Py.for_each] in H.
    apply bind_Ok_inv in H as (r & s1 & Hr & H).
    apply bind_Ok_inv in H as (rs' & s2 & Hrs & H).
    injection H as <- <-.
    apply bind_Ok_inv in Hr as (d & s0 & Hd & Hr).
    apply lift_Ok_inv in Hd as [Hd ->].
    injection Hr as <- <-.
    apply IH in Hrs as (slices & Hlen & -> & ->).
    exists (d :: slices). simpl. split_and!; [by rewrite Hlen | done |].
    by rewrite <- app_assoc.
Qed.

(** C10: every depth argument is brought to the non-positive convention
    before it is used: a positive depth [d] is treated as [-d], a
    non-positive one is used as it is ([below_surface]).
    - The two normalisations of the code, [depth if depth < 0 else
      -depth] and [a[a > 0] *= -1], compute that convention.
    - [constant_depth]: the target array of every job handed to the
      workers is filled with [below_surface depth], and the result is
      what the workers return for these jobs.
    - [depth_average]: the columns are integrated between
      [below_surface depth] and [below_surface top_depth], the deeper of
      the two first.
    - [transect]: the source depths of the scattered interpolation are
      the entries of [depth] under [below_surface], sorted and padded;
      the target depths are the returned axis, which is the caller's [z]
      under [below_surface] when one is given, and otherwise runs from
      two below the deepest to the shallowest normalised depth.
    - Each routine does for a depth what it does for that depth under
      [below_surface]. *)
Theorem depth_sign_normalised :
  (forall d, norm_depth d = below_surface d /\ neg_pos d = below_surface d)
  /\ (forall field grid d zeta threads s r s',
        constant_depth field grid d zeta threads s = (Ok r, s') ->
        let fld := if (ndim field =? 3)%nat then adddim field else field in
        exists nx ny jobs,
          shape_from_end fld 1 = Ok nx
          /\ shape_from_end fld 2 = Ok ny
          /\ index (shape fld) 0 = Ok (length jobs)
          /\ s' = s ++ jobs
          /\ r = ma_stack (map dinterp jobs)
          /\ Forall (fun j => job_fz j
                              = nd_scale (adddim (ones [ny; nx]))
                                         (below_surface d)) jobs)
  /\ (forall field grid d t zeta,
        let lo := below_surface d in
        let hi := below_surface t in
        depth_average field grid d t zeta
        = hsequence
            (hzip (fun f dt =>
                     depth_average_column (Grid.n grid) f dt.1 dt.2
                       (if Qltb hi lo then hi else lo)
                       (if Qltb hi lo then lo else hi))
                  field
                  (hzip pair (masked_levels field grid zeta).1
                             (masked_levels field grid zeta).2)))
  /\ (forall lon lat depth data nx nz z s x zax ndat s',
        transect lon lat depth data nx nz z s = (Ok (x, zax, ndat), s') ->
        exists v c col0 sorted dmin dmax,
          read_arg depth s = (Ok v, s)
          /\ let rows := rows_of (harray_map below_surface v) in
             sequence (map (fun r => index r 0) rows) = Ok col0
             /\ take_rows rows (argsort col0) = Ok sorted
             /\ amin (mjoin rows) = Ok dmin
             /\ amax (mjoin rows) = Ok dmax
             /\ calls s' = calls s ++ [c]
             /\ src_z c = mjoin (padded rows sorted dmin)
             /\ tgt_z c = mjoin (map (fun zr => replicate (length x) zr) zax)
             /\ (z = None -> zax = linspace (dmin - 2) dmax nz)
             /\ (forall l zv, z = Some (Ref l) ->
                              heap s !! l = Some (H1 zv) ->
                              zax = map below_surface zv))
  /\ (forall field grid d zeta threads,
        constant_depth field grid d zeta threads
        = constant_depth field grid (below_surface d) zeta threads)
  /\ (forall field grid d t zeta,
        depth_average field grid d t zeta
        = depth_average field grid (below_surface d) (below_surface t) zeta)
  /\ (forall lon lat a data nx nz z,
        transect lon lat (Lit a) data nx nz z
        = transect lon lat (Lit (harray_map below_surface a)) data nx nz z).
Proof.
  split_and!.
  5:{ intros. unfold constant_depth.
      by rewrite <- (norm_depth_below d), norm_depth_idem. }
  5:{ intros. unfold depth_average.
      by rewrite <- (norm_depth_below d), <- (norm_depth_below t),
                 !norm_depth_idem. }
  5:{ intros. unfold transect.
      assert (negate_positive (Lit (harray_map below_surface a))
              = negate_positive (Lit a)) as ->; [|done].
      simpl. by rewrite <- !harray_map_below, harray_map_neg_pos_idem. }
  - intros d. split; [apply norm_depth_below | apply neg_pos_below].
  - intros field grid d zeta threads s r s' H. cbv zeta.
    unfold constant_depth in H.
    inv_lift H nx Hnx. inv_lift H ny Hny.
    destruct (meshgrid (arange nx) (arange ny)) as [x y] eqn:Hxy.
    destruct (oasurf x y x x y None 5 1 1) as [fz pmap].
    inv_lift H nt Hnt.
    apply bind_Ok_inv in H as (rs & s1 & Hrs & H).
    injection H as <- <-.
    apply for_each_dispatch_log in Hrs as (slices & Hlen & -> & ->).
    assert (shape x = [ny; nx]) as Hshape.
    { unfold meshgrid in Hxy. injection Hxy as <- _. simpl.
      by rewrite !length_arange. }
    eexists nx, ny, _. split_and!; [done | done | | done | |].
    + by rewrite length_map, Hlen, length_seq.
    + by rewrite List.map_map.
    + rewrite map_fmap. apply Forall_fmap, Forall_forall. intros dat _.
      simpl. by rewrite Hshape, norm_depth_below.
  - intros field grid d t zeta. cbv zeta.
    unfold depth_average, masked_levels, level_depths, level_thickness.
    rewrite !norm_depth_below.
    destruct (Qltb (below_surface t) (below_surface d));
      destruct zeta as [zeta0|];
      try destruct (stretching _ _ _ _ _ _) as [s_w cs_w]; cbn [fst snd];
      destruct (shape3_eqb (shape3 field) (shape3 (Grid.thick_u grid)));
      try destruct (shape3_eqb (shape3 field) (shape3 (Grid.thick_v grid)));
      reflexivity.
  - intros lon lat depth data nx nz z s x zax ndat s' H.
    apply transect_Ok_inv in H.
    destruct (transect_run_calls _ _ _ _ _ _ _ _ _ _ _ _ H) as [c Hc].
    destruct H as [da dh s2 s3 k dmax0 dmin col0 sorted dmid zl0 zlN d0 dN
                     mind w f vals ndat0 Hdata Hdepth Hz Hlon Hk Hdmax Hx
                     Hcol0 Hdmin Hsorted Hzl0 Hd0 Hdmid HzlN HdN Hnz Hmind
                     Hw Hf Hvals Hs' Hreshape Hndat].
    destruct (negate_positive_read _ _ _ _ Hdepth) as (v & Hv & ->).
    rewrite harray_map_below in *.
    assert (exists dmax, amax (mjoin (rows_of (harray_map below_surface v)))
                         = Ok dmax) as [dmax Hhi].
    { unfold amin in Hdmin. unfold amax.
      destruct (mjoin (rows_of (harray_map below_surface v))); [done|].
      by eexists. }
    exists v, c, col0, sorted, dmin, dmax.
    pose proof Hc as Hc'. rewrite Hs' in Hc'. simpl in Hc'.
    apply app_inj_tail in Hc' as [_ Heq].
    split; [done|]. cbv zeta.
    split_and!; try done; try (by rewrite <- Heq).
    + intros ->. unfold vertical_axis, Py.lift in Hz.
      rewrite Hdmin, Hhi in Hz. simpl in Hz. by injection Hz as <- _.
    + intros l zv -> Hl.
      pose proof (negate_positive_heap depth s) as Hh.
      rewrite Hdepth in Hh. cbn [snd] in Hh.
      assert (heap s2 !! l = Some (H1 zv)
              \/ heap s2 !! l = Some (H1 (map neg_pos zv))) as Hl2.
      { rewrite Hh. destruct depth as [l'|lit]; simpl; [|by left].
        destruct (heap s !! l') as [v'|] eqn:E; [|by left].
        destruct (decide (l' = l)) as [->|Hne].
        - right. rewrite lookup_insert_eq. rewrite Hl in E.
          by injection E as <-.
        - left. by rewrite lookup_insert_ne. }
      assert (forall u, map neg_pos u = map below_surface u) as Hm.
      { intros u. apply List.map_ext. apply neg_pos_below. }
      unfold vertical_axis, Py.bind in Hz. simpl in Hz.
      destruct Hl2 as [Hl2|Hl2]; rewrite Hl2 in Hz; simpl in Hz;
        injection Hz as <- _; [apply Hm|].
      rewrite Hm, <- Hm, List.map_map. apply List.map_ext.
      intros d. rewrite <- neg_pos_below. apply neg_pos_idem.
Qed.

(** *** Minima, maxima and the uniform axis *)

Lemma Qminimum_cases a b :
  (Qminimum a b = a \/ Qminimum a b = b)
  /\ Qminimum a b <= a /\ Qminimum a b <= b.
Proof.
  unfold Qminimum. destruct (Qltb b a) eqn:E.
  - apply Qltb_lt in E. split_and!; [by right | lra | lra].
  - apply Qltb_ge in E. split_and!; [by left | lra | lra].
Qed.

Lemma Qmaximum_cases a b :
  (Qmaximum a b = a \/ Qmaximum a b = b)
  /\ a <= Qmaximum a b /\ b <= Qmaximum a b.
Proof.
  unfold Qmaximum. destruct (Qltb a b) eqn:E.
  - apply Qltb_lt in E. split_and!; [by right | lra | lra].
  - apply Qltb_ge in E. split_and!; [by left | lra | lra].
Qed.

Lemma foldl_Qminimum_spec a l :
  foldl Qminimum a l ∈ a :: l
  /\ Forall (fun v => foldl Qminimum a l <= v) (a :: l).
Proof.
  revert a. induction l as [|b l IH]; intros a; simpl.
  - split; [by left|]. constructor; [lra|constructor].
  - destruct (IH (Qminimum a b)) as [Hin Hle].
    destruct (Qminimum_cases a b) as (Hc & Ha & Hb).
    inversion Hle as [|? ? Hm Hl]; subst. split.
    + apply elem_of_cons in Hin as [->|Hin].
      * destruct Hc as [-> | ->]; [left | right; left]; done.
      * by do 2 right.
    + constructor; [lra|]. constructor; [lra|done].
Qed.

Lemma foldl_Qmaximum_spec a l :
  foldl Qmaximum a l ∈ a :: l
  /\ Forall (fun v => v <= foldl Qmaximum a l) (a :: l).
Proof.
  revert a. induction l as [|b l IH]; intros a; simpl.
  - split; [by left|]. constructor; [lra|constructor].
  - destruct (IH (Qmaximum a b)) as [Hin Hle].
    destruct (Qmaximum_cases a b) as (Hc & Ha & Hb).
    inversion Hle as [|? ? Hm Hl]; subst. split.
    + apply elem_of_cons in Hin as [->|Hin].
      * destruct Hc as [-> | ->]; [left | right; left]; done.
      * by do 2 right.
    + constructor; [lra|]. constructor; [lra|done].
Qed.

Lemma amin_spec l m :
  amin l = Ok m -> m ∈ l /\ Forall (fun v => m <= v) l.
Proof.
  destruct l as [|a l]; [done|]. intros [= <-]. apply foldl_Qminimum_spec.
Qed.

Lemma amax_spec l m :
  amax l = Ok m -> m ∈ l /\ Forall (fun v => v <= m) l.
Proof.
  destruct l as [|a l]; [done|]. intros [= <-]. apply foldl_Qmaximum_spec.
Qed.


Lemma length_linspace a b n : length (linspace a b n) = n.
Proof.
  unfold linspace. destruct (1 <? n)%nat.
  - by rewrite length_insert, length_map, length_seq.
  - by rewrite length_map, length_seq.
Qed.

Lemma inject_nat_pos n : (0 < n)%nat -> 0 < inject_Z (Z.of_nat n).
Proof.
  intros Hn. change 0 with (inject_Z 0). rewrite <- Zlt_Qlt. lia.
Qed.

Lemma inject_nat_le i n :
  (i <= n)%nat -> inject_Z (Z.of_nat i) <= inject_Z (Z.of_nat n).
Proof. intros H. rewrite <- Zle_Qle. lia. Qed.

(** For [n >= 2] the samples are [a + i * step]. *)
Lemma linspace_lookup a b n i v :
  (2 <= n)%nat -> linspace a b n !! i = Some v ->
  (i < n)%nat
  /\ v == a + inject_Z (Z.of_nat i)
              * ((b - a) / inject_Z (Z.of_nat (n - 1))).
Proof.
  intros Hn Hv. unfold linspace in Hv.
  assert ((1 <? n)%nat = true) as E by (apply Nat.ltb_lt; lia).
  rewrite E in Hv.
  apply list_lookup_insert_Some in Hv as [(Hi & -> & Hlen) | (Hne & Hv)].
  - rewrite length_map, length_seq in Hlen. split; [done|].
    pose proof (inject_nat_pos (n - 1) ltac:(lia)) as Hpos.
    rewrite <- Hi. field. lra.
  - rewrite map_fmap, list_lookup_fmap in Hv.
    destruct (seq 0 n !! i) as [i'|] eqn:Hi; [|done].
    apply lookup_seq in Hi as [-> Hi]. simpl in Hv. injection Hv as <-.
    split; [done|]. ring.
Qed.

Lemma linspace_bounds a b n :
  a <= b -> Forall (fun v => a <= v <= b) (linspace a b n).
Proof.
  intros Hab.
  destruct (decide (2 <= n)%nat) as [Hn|Hn].
  - apply Forall_lookup. intros i v Hv.
    apply linspace_lookup in Hv as [Hi Hv]; [|done].
    pose proof (inject_nat_pos (n - 1) ltac:(lia)) as Hpos.
    pose proof (inject_nat_le i (n - 1) ltac:(lia)) as Hle.
    assert (0 <= inject_Z (Z.of_nat i)) as Hi0.
    { change 0 with (inject_Z 0). rewrite <- Zle_Qle. lia. }
    set (m := inject_Z (Z.of_nat (n - 1))) in *.
    set (k := inject_Z (Z.of_nat i)) in *.
    assert (0 <= (b - a) / m) as Ht.
    { apply Qle_shift_div_l; lra. }
    assert (k * ((b - a) / m) <= m * ((b - a) / m)) as H1.
    { apply Qmult_le_compat_r; done. }
    assert (m * ((b - a) / m) == b - a) as H2 by (field; lra).
    assert (0 <= k * ((b - a) / m)) as H3
      by (apply Qmult_le_0_compat; done).
    rewrite Hv. split; lra.
  - unfold linspace.
    assert ((1 <? n)%nat = false) as -> by (apply Nat.ltb_ge; lia).
    destruct n as [|[|n]]; [constructor | | lia].
    simpl. constructor; [|constructor].
    unfold Qdiv. simpl. split; ring_simplify; lra.
Qed.

(** *** transect: the padded source columns *)

Lemma index_Ok {A} (l : list A) i a : index l i = Ok a <-> l !! i = Some a.
Proof.
  unfold index. destruct (l !! i); split; intros H; by inversion H.
Qed.

Lemma sequence_length {A} (l : list (result A)) out :
  sequence l = Ok out -> length out = length l.
Proof. intros H. apply sequence_Ok in H as ->. by rewrite length_fmap. Qed.

Lemma insert_key_perm k i l : insert_key k i l ≡ₚ (k, i) :: l.
Proof.
  induction l as [|[k' i'] l IH]; simpl; [done|].
  destruct (Qltb k k'); [done|]. rewrite IH. apply perm_swap.
Qed.

Lemma sort_keys_perm l : sort_keys l ≡ₚ l.
Proof.
  induction l as [|[k i] l IH]; [done|].
  unfold sort_keys in *. simpl. by rewrite insert_key_perm, IH.
Qed.

Lemma insert_key_sorted k i l :
  StronglySorted key_le l -> StronglySorted key_le (insert_key k i l).
Proof.
  induction 1 as [|[k' i'] l Hl IH Hall]; simpl.
  - repeat constructor.
  - destruct (Qltb k k') eqn:E.
    + apply Qltb_lt in E. constructor; [by constructor|].
      constructor; [unfold key_le; simpl; lra|].
      eapply Forall_impl; [exact Hall|].
      intros [k'' i'']. unfold key_le. simpl. lra.
    + apply Qltb_ge in E. constructor; [done|].
      rewrite insert_key_perm. by constructor.
Qed.

Lemma sort_keys_sorted l : StronglySorted key_le (sort_keys l).
Proof.
  induction l as [|[k i] l IH]; [constructor|].
  unfold sort_keys in *. simpl. by apply insert_key_sorted.
Qed.

Lemma zip_seq_lookup {A} (l : list A) :
  Forall (fun p => l !! p.2 = Some p.1) (zip l (seq 0 (length l))).
Proof.
  apply Forall_lookup. intros j [c i] Hj.
  apply lookup_zip_with_Some in Hj as (c' & i' & [= <- <-] & Hc & Hi).
  apply lookup_seq in Hi as [-> _]. done.
Qed.

Lemma argsort_perm keys : argsort keys ≡ₚ seq 0 (length keys).
Proof.
  unfold argsort. rewrite map_fmap, sort_keys_perm.
  rewrite snd_zip; [done|]. by rewrite length_seq.
Qed.

Lemma negate_positive_nonpos a s dh s2 :
  negate_positive a s = (Ok dh, s2) ->
  Forall (Forall (fun d => d <= 0)) (rows_of dh).
Proof.
  assert (forall v, Forall (fun d => d <= 0) (map neg_pos v)) as Hv.
  { intros v. rewrite map_fmap. apply Forall_fmap, Forall_forall.
    intros d _. apply neg_pos_le. }
  assert (forall v, Forall (Forall (fun d => d <= 0))
                      (rows_of (harray_map neg_pos v))) as Hh.
  { intros [v|m]; simpl; [by repeat constructor|].
    rewrite map_fmap. apply Forall_fmap, Forall_forall. intros r _. apply Hv. }
  destruct a as [l|v]; simpl.
  - destruct (heap s !! l); [|done]. intros [= <- _]. apply Hh.
  - intros [= <- _]. apply Hh.
Qed.

Lemma Forall_join_replicate (P : Q -> Prop) n l :
  Forall P l -> Forall P (mjoin (map (fun zr => replicate n zr) l)).
Proof.
  induction 1 as [|v l Hv _ IH]; simpl; [constructor|].
  apply Forall_app. split; [|done]. by apply Forall_replicate.
Qed.

(** C9 (amended): when [transect] returns, with or without a [z] of the
    caller, the source points of its one [griddata] call are the
    sign-normalised layers, in the order [zl] that sorts them by their
    depth at the first waypoint, between exactly two padding rows: one
    at [2 * depth.min()] carrying the data of the first (deepest) layer
    of that order and one at depth 0 carrying the data of the last
    (shallowest) one.  When [z] is not given and the minimum depth is at
    most -2, every target depth lies in [[2 * depth.min(), 0]]. *)
Theorem transect_padding lon lat depth data nx nz z s x zax ndat s' :
  transect lon lat depth data nx nz z s = (Ok (x, zax, ndat), s') ->
  exists da dh dmin zl sorted dmid keys d0 dN c,
    (read_arg data s').1 = Ok da
    /\ (negate_positive depth s).1 = Ok dh
    /\ amin (mjoin (rows_of dh)) = Ok dmin
    /\ zl ≡ₚ seq 0 (length (rows_of dh))
    /\ take_rows (rows_of dh) zl = Ok sorted
    /\ take_rows (rows_of da) zl = Ok dmid
    /\ StronglySorted Qle keys
    /\ Forall2 (fun row k => row !! 0%nat = Some k) sorted keys
    /\ dmid !! 0%nat = Some d0
    /\ last dmid = Some dN
    /\ calls s' = calls s ++ [c]
    /\ src_z c = mjoin ([replicate (ncols (rows_of dh)) (1 * 2 * dmin)]
                        ++ sorted ++ [replicate (ncols (rows_of dh)) 0])
    /\ src_val c = mjoin ([d0] ++ dmid ++ [dN])
    /\ (z = None -> dmin <= -2 ->
        Forall (fun t => 2 * dmin <= t <= 0) (tgt_z c)).
Proof.
  intros H. apply transect_Ok_inv in H.
  destruct (transect_run_calls _ _ _ _ _ _ _ _ _ _ _ _ H) as [c Hc].
  destruct H as [da dh s2 s3 k dmax dmin col0 sorted dmid zl0 zlN d0 dN
                   mind w f vals ndat0 Hdata Hdepth Hz Hlon Hk Hdmax Hx
                   Hcol0 Hdmin Hsorted Hzl0 Hd0 Hdmid HzlN HdN Hnz Hmind
                   Hw Hf Hvals Hs' Hreshape Hndat].
  set (sl := sort_keys (zip col0 (seq 0 (length col0)))).
  assert (argsort col0 = sl.*2) as Hzl by done.
  exists da, dh, dmin, (argsort col0), sorted, dmid, (sl.*1), d0, dN, c.
  pose proof Hc as Hc'. rewrite Hs' in Hc'. simpl in Hc'.
  apply app_inj_tail in Hc' as [_ Heq].
  split_and!; try done; try (by rewrite <- Heq).
  - by rewrite Hs', read_arg_heap, Hdata.
  - by rewrite Hdepth.
  - rewrite argsort_perm. apply sequence_length in Hcol0.
    by rewrite Hcol0, length_map.
  - apply (StronglySorted_fmap _ key_le); [done|]. apply sort_keys_sorted.
  - assert (Forall (fun p => col0 !! p.2 = Some p.1) sl) as Hkeys.
    { unfold sl. rewrite sort_keys_perm. apply zip_seq_lookup. }
    unfold take_rows in Hsorted.
    apply Forall2_same_length_lookup_2.
    { apply sequence_length in Hsorted.
      by rewrite Hsorted, length_map, Hzl, !length_fmap. }
    intros j row key Hrow Hkey.
    rewrite list_lookup_fmap in Hkey.
    destruct (sl !! j) as [[key' i]|] eqn:Hsl; [|done].
    simpl in Hkey. injection Hkey as ->.
    pose proof (Forall_lookup_1 _ _ _ _ Hkeys Hsl) as Hci. simpl in Hci.
    assert (argsort col0 !! j = Some i) as Hzj.
    { by rewrite Hzl, list_lookup_fmap, Hsl. }
    destruct (sequence_lookup _ _ j (index (rows_of dh) i) Hsorted)
      as (row' & Hr1 & Hr2).
    { by rewrite map_fmap, list_lookup_fmap, Hzj. }
    rewrite Hrow in Hr2. injection Hr2 as <-. apply index_Ok in Hr1.
    destruct (sequence_lookup _ _ i (index row 0) Hcol0)
      as (key' & Hk1 & Hk2).
    { by rewrite map_fmap, list_lookup_fmap, Hr1. }
    rewrite Hci in Hk2. injection Hk2 as <-. by apply index_Ok.
  - apply index_Ok in Hzl0. unfold take_rows in Hdmid.
    destruct (sequence_lookup _ _ 0%nat (index (rows_of da) zl0) Hdmid)
      as (d & Hd1 & Hd2).
    { by rewrite map_fmap, list_lookup_fmap, Hzl0. }
    rewrite Hd0 in Hd1. by injection Hd1 as ->.
  - unfold index_last in HzlN.
    destruct (last (argsort col0)) as [zN|] eqn:El; [|done].
    injection HzlN as ->. rewrite last_lookup in El. rewrite last_lookup.
    unfold take_rows in Hdmid.
    pose proof (sequence_length _ _ Hdmid) as Hlen.
    rewrite length_map in Hlen. rewrite Hlen.
    destruct (sequence_lookup _ _ (pred (length (argsort col0)))
                (index (rows_of da) zlN) Hdmid) as (d & Hd1 & Hd2).
    { by rewrite map_fmap, list_lookup_fmap, El. }
    rewrite HdN in Hd1. by injection Hd1 as ->.
  - intros -> Hmin. rewrite <- Heq. simpl. apply Forall_join_replicate.
    unfold vertical_axis, Py.lift in Hz. rewrite Hdmin in Hz. simpl in Hz.
    destruct (amax (mjoin (rows_of dh))) as [hi|] eqn:Ehi; simpl in Hz;
      [|done].
    injection Hz as <- _.
    apply amin_spec in Hdmin as [_ Hlo]. apply amax_spec in Ehi as [Hin _].
    pose proof (negate_positive_nonpos _ _ _ _ Hdepth) as Hnp.
    assert (hi <= 0) as Hhi.
    { apply list_elem_of_join in Hin as (row & Hhi & Hrow).
      pose proof (proj1 (Forall_forall _ _) Hnp row Hrow) as Hr.
      by apply (proj1 (Forall_forall _ _) Hr). }
    pose proof (proj1 (Forall_forall _ _) Hlo hi Hin) as Hlohi.
    simpl in Hlohi.
    eapply Forall_impl; [apply linspace_bounds; lra|].
    intros v [? ?]. simpl. split; lra.
Qed.

(** *** transect: linear interpolation *)











(** *** transect: the bottom mask *)



Lemma interp_Ok xs xp fp out :
  interp xs xp fp = Ok out ->
  xp <> [] /\ length xp = length fp /\ out = map (interp1 xp fp) xs.
Proof.
  unfold interp. destruct xp as [|a xp]; [done|].
  destruct (length (a :: xp) =? length fp)%nat eqn:E; [|done].
  apply Nat.eqb_eq in E. intros [= <-]. done.
Qed.


(** ** Further properties of the routines *)

(** *** constant_depth: the jobs and the mask of the result *)

Lemma for_each_dispatch_jobs (g : nat -> result ndarray)
    (mk : ndarray -> job pmap_t) (l : list nat) (slices : list ndarray) s :
  Forall2 (fun i d => g i = Ok d) l slices ->
  Py.for_each (fun i => (dat <- Py.lift (g i) ;; dispatch (mk dat))%py) l s
  = (Ok (map (fun d => dinterp (mk d)) slices), s ++ map mk slices).
Proof.
  intros H. revert s. induction H as [|i d l slices Hi _ IH]; intros s.
  - simpl. unfold Py.ret. by rewrite app_nil_r.
  - cbn [Py.for_each]. unfold Py.bind at 1. unfold Py.bind at 1.
    unfold Py.lift at 1. rewrite Hi. unfold dispatch at 1.
    unfold Py.bind at 1. rewrite IH. unfold Py.ret. simpl.
    by rewrite <- app_assoc.
Qed.

Lemma slices_exist field :
  (4 <= ndim field)%nat ->
  exists slices,
    Forall2 (fun i d => index_first4 field i = Ok d)
            (seq 0 (hd 0%nat (shape field))) slices.
Proof.
  intros Hrank. unfold index_first4.
  assert ((ndim field <? 4)%nat = false) as -> by (apply Nat.ltb_ge; lia).
  unfold ndim in Hrank. destruct (shape field) as [|n0 rest]; simpl in *; [lia|].
  exists (map (fun i => NdArray rest
                          (take (size_of rest) (drop (i * size_of rest)
                                                     (data field))))
              (seq 0 n0)).
  rewrite map_fmap. apply Forall2_fmap_r, Forall_Forall2_diag, Forall_forall.
  intros i Hi. apply elem_of_seq in Hi.
  assert ((i <? n0)%nat = true) as -> by (apply Nat.ltb_lt; lia). done.
Qed.

(** X1: For a field of rank four or more, [constant_depth] hands the worker
    pool one job per index of the first axis, in that order.  Job [i]
    carries the squeezed slice [field[i]]; every job carries the same
    coordinates, the static [grid.depth_rho], the same target array (the
    sign-normalised depth at every point) and the same weight map, and
    the result stacks the workers' outputs in the order of the jobs. *)
Theorem constant_depth_jobs field grid depth zeta threads s :
  (4 <= ndim field)%nat ->
  exists nx ny x y pmap slices,
    shape_from_end field 1 = Ok nx
    /\ shape_from_end field 2 = Ok ny
    /\ meshgrid (arange nx) (arange ny) = (x, y)
    /\ pmap = (oasurf x y x x y None 5 1 1).2
    /\ Forall2 (fun i d => index_first4 field i = Ok d)
               (seq 0 (hd 0%nat (shape field))) slices
    /\ let jobs :=
         map (fun d => Job x y (Grid.depth_rho grid) (squeeze d)
                           (nd_scale (adddim (ones [ny; nx]))
                                     (norm_depth depth)) pmap) slices in
       constant_depth field grid depth zeta threads s
       = (Ok (ma_stack (map dinterp jobs)), s ++ jobs).
Proof.
  intros Hrank.
  destruct (shape_from_end_ok field 1) as [nx Hnx]; [lia|].
  destruct (shape_from_end_ok field 2) as [ny Hny]; [lia|].
  destruct (slices_exist field Hrank) as [slices Hsl].
  destruct (meshgrid (arange nx) (arange ny)) as [x y] eqn:Hxy.
  exists nx, ny, x, y, (oasurf x y x x y None 5 1 1).2, slices.
  split_and!; try done.
  cbv zeta. unfold constant_depth.
  assert ((ndim field =? 3)%nat = false) as -> by (apply Nat.eqb_neq; lia).
  unfold Py.bind at 1. unfold Py.lift at 1. rewrite Hnx.
  unfold Py.bind at 1. unfold Py.lift at 1. rewrite Hny. rewrite Hxy.
  destruct (oasurf x y x x y None 5 1 1) as [fz pmap] eqn:Hoa. cbn [snd].
  unfold Py.bind at 1. unfold Py.lift at 1.
  assert (index (shape field) 0 = Ok (hd 0%nat (shape field))) as ->.
  { unfold ndim in Hrank. destruct (shape field); simpl in *; [lia|done]. }
  unfold Py.bind at 1.
  assert (shape x = [ny; nx]) as Hshape.
  { unfold meshgrid in Hxy. injection Hxy as <- _. simpl.
    by rewrite !length_arange. }
  rewrite Hshape.
  rewrite (for_each_dispatch_jobs _
             (fun dat => Job x y (Grid.depth_rho grid) (squeeze dat)
                             (nd_scale (adddim (ones [ny; nx]))
                                       (norm_depth depth)) pmap)
             _ slices s Hsl).
  unfold Py.ret. by rewrite List.map_map.
Qed.

Lemma for_each_dispatch_results (g : nat -> result ndarray)
    (mk : ndarray -> job pmap_t) (l : list nat) s rs s' :
  Py.for_each (fun i => (dat <- Py.lift (g i) ;; dispatch (mk dat))%py) l s
  = (Ok rs, s') ->
  Forall (fun r => exists j, r = dinterp j) rs.
Proof.
  revert s rs s'. induction l as [|i l IH]; intros s rs s' H.
  - injection H as <- _. constructor.
  - cbn [Py.for_each] in H.
    apply bind_Ok_inv in H as (r & s1 & Hr & H).
    apply bind_Ok_inv in H as (rs' & s2 & Hrs & H).
    injection H as <- _.
    apply bind_Ok_inv in Hr as (d & s0 & _ & Hr).
    injection Hr as <- _.
    constructor; [by eexists | by eapply IH].
Qed.

Lemma dinterp_cells j :
  Forall (fun c => msk c = true <-> inject_Z (9 * 10 ^ 10) < Qabs (dat c))
         (mcells (dinterp j)).
Proof.
  unfold dinterp. destruct (oavol _ _ _ _ _ _ _ _ _ _ _) as [ndat pm].
  unfold masked_where_sentinel. simpl. rewrite map_fmap.
  apply Forall_fmap, Forall_forall. intros v _. simpl. apply Qltb_lt.
Qed.

(** X2: The result of [constant_depth] is masked exactly where the value a
    worker returned exceeds 9e10 in magnitude: the mask comes from the
    fill value of the interpolation alone, and the land mask of the grid
    is not consulted. *)
Theorem constant_depth_mask field grid depth zeta threads s r s' :
  constant_depth field grid depth zeta threads s = (Ok r, s') ->
  Forall (fun c => msk c = true <-> inject_Z (9 * 10 ^ 10) < Qabs (dat c))
         (mcells r).
Proof.
  intros H. unfold constant_depth in H.
  inv_lift H nx Hnx. inv_lift H ny Hny.
  destruct (meshgrid (arange nx) (arange ny)) as [x y].
  destruct (oasurf x y x x y None 5 1 1) as [fz pmap].
  inv_lift H nt Hnt.
  apply bind_Ok_inv in H as (rs & s1 & Hrs & H).
  injection H as <- _.
  apply for_each_dispatch_results in Hrs.
  unfold ma_stack. simpl.
  induction Hrs as [|r rs [j ->] _ IH]; simpl; [constructor|].
  apply Forall_app. split; [apply dinterp_cells | apply IH].
Qed.

(** *** depth_average: one cell of a field on the rho grid *)

(** The value [depth_average] returns at a cell of a rho-grid field is
    the column integration of that cell, between the ordered bounds. *)
Lemma depth_average_cell field grid depth top_depth zeta out j i c
    fcol dcol tcol m :
  shape3_eqb (shape3 field) (shape3 (Grid.thick_u grid)) = false ->
  shape3_eqb (shape3 field) (shape3 (Grid.thick_v grid)) = false ->
  depth_average field grid depth top_depth zeta = Ok out ->
  hget out j i = Some c ->
  hget field j i = Some fcol ->
  hget (level_depths grid zeta) j i = Some dcol ->
  hget (level_thickness grid zeta) j i = Some tcol ->
  hget (Grid.mask_rho grid) j i = Some m ->
  depth_average_column (Grid.n grid) fcol (cell_depths m dcol)
    (cell_thickness zeta m tcol)
    (ordered_bounds depth top_depth).1 (ordered_bounds depth top_depth).2
  = Ok c.
Proof.
  intros Hu Hv Hout Hc Hf Hd Ht Hm. unfold depth_average in Hout.
  unfold ordered_bounds.
  destruct (Qltb (norm_depth top_depth) (norm_depth depth)); cbn [fst snd];
    cbv beta iota zeta in Hout;
    (destruct zeta as [zeta0|]; unfold level_depths, level_thickness in *;
     [destruct (stretching _ _ _ _ _ _) as [s_w cs_w]; cbn [fst snd] in *|];
     (cbv beta iota zeta in Hout; rewrite Hu, Hv in Hout;
      match type of Hout with
      | hsequence ?a = _ =>
          match goal with
          | |- ?r = _ =>
              destruct (hsequence_lookup a out j i r Hout) as (c' & Hc' & Hget)
          end
      end;
      [ by rewrite !hget_hzip, Hf, Hd, Ht, Hm
      | rewrite Hc in Hget; injection Hget as <-; exact Hc' ])).
Qed.

(** The layer selection holds ones where it is not masked, so the
    in-place product leaves the raw thickness as it is. *)
Lemma select_cells n a b :
  Forall (fun s => msk s = true \/ dat s = 1) (select n a b).
Proof.
  unfold select. rewrite map_fmap. apply Forall_fmap, Forall_forall.
  intros k _. simpl. destruct ((k <=? a)%nat && (b <=? k)%nat); simpl;
    [by right | by left].
Qed.

Lemma ma_imul_select_dat t s :
  msk s = true \/ dat s = 1 -> dat (ma_imul t s) == dat t.
Proof.
  unfold ma_imul. simpl. intros [-> | Hs].
  - rewrite orb_true_r. ring.
  - destruct (msk t || msk s); [ring|]. rewrite Hs. ring.
Qed.

Lemma ma_imul_select_nonneg t n a b :
  Forall (fun c => 0 <= dat c) t ->
  Forall (fun c => 0 <= dat c) (zip_with ma_imul t (select n a b)).
Proof.
  pose proof (select_cells n a b) as Hs. revert Hs. generalize (select n a b).
  intros sel Hs Ht. revert sel Hs.
  induction Ht as [|tc t Htc _ IH]; intros sel Hs; [constructor|].
  destruct Hs as [|sc sel Hsc Hs]; simpl; [constructor|].
  constructor; [|by apply IH].
  by rewrite (ma_imul_select_dat tc sc Hsc).
Qed.

(** Numerator and denominator of the thickness-weighted mean. *)
Lemma weighted_sum_bounds lo hi f t :
  (length t <= length f)%nat ->
  Forall (fun c => msk c = false /\ lo <= dat c <= hi) f ->
  Forall (fun c => 0 <= dat c) t ->
  0 <= dat (ma_sum t)
  /\ lo * dat (ma_sum t) <= dat (ma_sum (zip_with ma_mul f t))
  /\ dat (ma_sum (zip_with ma_mul f t)) <= hi * dat (ma_sum t).
Proof.
  intros Hlen Hf Ht. revert f Hlen Hf.
  induction Ht as [|tc t Htc _ IH]; intros f Hlen Hf.
  - destruct f; simpl; split_and!; lra.
  - destruct Hf as [|fc f [Hfm [Hlo Hhi]] Hf]; simpl in Hlen; [lia|].
    destruct (IH f ltac:(lia) Hf) as (HD & HN1 & HN2).
    unfold ma_sum in *. simpl in *. rewrite Hfm. simpl.
    destruct (msk tc); simpl.
    + split_and!; lra.
    + assert (lo * dat tc <= dat fc * dat tc) as H1
        by (by apply Qmult_le_compat_r).
      assert (dat fc * dat tc <= hi * dat tc) as H2
        by (by apply Qmult_le_compat_r).
      split_and!; lra.
Qed.

Lemma ma_div_unmasked a b :
  msk (ma_div a b) = false ->
  msk a = false /\ msk b = false /\ ~ dat b == 0
  /\ dat (ma_div a b) == dat a / dat b.
Proof.
  unfold ma_div. simpl.
  destruct (Qle_bool (Qabs (dat b)) (Qabs (dat a) * tiny)) eqn:E; [done|].
  destruct (msk a); [done|]. destruct (msk b); [done|]. simpl. intros _.
  split_and!; try done.
  intros Hb. assert (Qle_bool (Qabs (dat b)) (Qabs (dat a) * tiny) = true)
    as E'; [|congruence].
  apply Qle_bool_iff. rewrite Hb. simpl.
  apply Qmult_le_0_compat; [apply Qabs_nonneg|]. apply Qlt_le_weak, tiny_pos.
Qed.

Lemma depth_average_column_Ok_inv n f d t dep top c :
  depth_average_column n f d t dep top = Ok c ->
  exists tc imin imax,
    (if Qeq_bool top 0 then index_last d else Ok (unmasked top)) = Ok tc
    /\ argmin (map (fun dc => set_upper (ma_sub dc tc)) d) = Ok imin
    /\ argmax (map (fun dc => set_lower (ma_sub dc (unmasked dep))) d)
       = Ok imax
    /\ c = ma_div (ma_sum (zip_with ma_mul f
                             (zip_with ma_imul t (select n imin imax))))
                  (ma_sum (zip_with ma_imul t (select n imin imax))).
Proof.
  unfold depth_average_column. intros H.
  destruct (if Qeq_bool top 0 then index_last d else Ok (unmasked top))
    as [tc|e] eqn:E1; [|done]. cbn [rbind] in H.
  destruct (argmin (map (fun dc => set_upper (ma_sub dc tc)) d))
    as [imin|e] eqn:E2; [|done]. cbn [rbind] in H.
  destruct (argmax (map (fun dc => set_lower (ma_sub dc (unmasked dep))) d))
    as [imax|e] eqn:E3; [|done]. cbn [rbind] in H.
  injection H as <-. by exists tc, imin, imax.
Qed.

(** X3: The depth average is a mean with non-negative weights: at a cell of
    a rho-grid field whose column is unmasked and whose layer thicknesses
    are not negative, the value returned, when it is not masked, lies
    between the least and the greatest value of the column. *)
Theorem depth_average_between field grid depth top_depth zeta out j i c
    fcol dcol tcol m lo hi :
  shape3_eqb (shape3 field) (shape3 (Grid.thick_u grid)) = false ->
  shape3_eqb (shape3 field) (shape3 (Grid.thick_v grid)) = false ->
  depth_average field grid depth top_depth zeta = Ok out ->
  hget out j i = Some c ->
  hget field j i = Some fcol ->
  hget (level_depths grid zeta) j i = Some dcol ->
  hget (level_thickness grid zeta) j i = Some tcol ->
  hget (Grid.mask_rho grid) j i = Some m ->
  (length tcol <= length fcol)%nat ->
  Forall (fun v => msk v = false /\ lo <= dat v <= hi) fcol ->
  Forall (fun t => 0 <= t * m) tcol ->
  msk c = false ->
  lo <= dat c <= hi.
Proof.
  intros Hu Hv Hout Hc Hf Hd Ht Hm Hlen Hfcol Htcol Hmsk.
  pose proof (depth_average_cell _ _ _ _ _ _ _ _ _ _ _ _ _
                Hu Hv Hout Hc Hf Hd Ht Hm) as Hcol.
  apply depth_average_column_Ok_inv in Hcol
    as (tc & imin & imax & _ & _ & _ & ->).
  set (t' := zip_with ma_imul (cell_thickness zeta m tcol)
                      (select (Grid.n grid) imin imax)) in *.
  assert (Forall (fun c => 0 <= dat c) (cell_thickness zeta m tcol)) as Hnn.
  { unfold cell_thickness. destruct zeta; rewrite map_fmap;
      apply Forall_fmap; (eapply Forall_impl; [exact Htcol|]); done. }
  assert (length t' <= length fcol)%nat as Hlen'.
  { unfold t'. rewrite length_zip_with.
    assert (length (cell_thickness zeta m tcol) = length tcol) as ->
      by (unfold cell_thickness; destruct zeta; apply length_map).
    lia. }
  destruct (weighted_sum_bounds lo hi fcol t' Hlen' Hfcol
              (ma_imul_select_nonneg _ _ _ _ Hnn)) as (HD & HN1 & HN2).
  apply ma_div_unmasked in Hmsk as (_ & _ & HD0 & ->).
  assert (0 < dat (ma_sum t')) as Hpos.
  { apply Qle_lteq in HD as [H|H]; [done|]. by symmetry in H. }
  split.
  - apply Qle_shift_div_l; done.
  - apply Qle_shift_div_r; done.
Qed.

(** *** depth_average: an upper bound above every layer *)

Lemma argbest_all_pinf l :
  l <> [] -> Forall (fun a => a = PInf) l ->
  argbest f_ltb l = Some (0%nat, PInf).
Proof.
  induction l as [|a l IH]; intros Hne Hl; [done|].
  inversion Hl as [|? ? -> Hl']; subst. simpl.
  destruct l as [|b l]; [done|]. by rewrite IH.
Qed.

Lemma select_tail_masked n imax :
  Forall (fun s => msk s = true) (tail (select n 0 imax)).
Proof.
  unfold select. destruct n as [|n]; [constructor|]. simpl.
  rewrite map_fmap. apply Forall_fmap, Forall_forall. intros k Hk.
  apply elem_of_seq in Hk. simpl.
  assert ((k <=? 0)%nat = false) as -> by (apply Nat.leb_gt; lia). done.
Qed.

Lemma zip_with_masked_r (op : masked Q -> masked Q -> masked Q) a b :
  (forall x y, msk y = true -> msk (op x y) = true) ->
  Forall (fun s => msk s = true) b ->
  Forall (fun s => msk s = true) (zip_with op a b).
Proof.
  intros Hop Hb. revert a. induction Hb as [|y b Hy _ IH]; intros [|x a];
    simpl; constructor; [by apply Hop | apply IH].
Qed.

Lemma ma_imul_masked_r x y : msk y = true -> msk (ma_imul x y) = true.
Proof. unfold ma_imul. simpl. intros ->. apply orb_true_r. Qed.

Lemma ma_mul_masked_r x y : msk y = true -> msk (ma_mul x y) = true.
Proof. unfold ma_mul. simpl. intros ->. apply orb_true_r. Qed.

Lemma ma_sum_head c l :
  Forall (fun x => msk x = true) l ->
  msk (ma_sum (c :: l)) = msk c
  /\ dat (ma_sum (c :: l)) == (if msk c then 0 else dat c).
Proof.
  intros Hl. unfold ma_sum. simpl.
  assert (forallb msk l = true
          /\ foldr (fun c acc => (if msk c then 0 else dat c) + acc) 0 l == 0)
    as [-> ->].
  { induction Hl as [|x l Hx _ [IH1 IH2]]; simpl; [done|].
    rewrite Hx, IH1, IH2. done. }
  by rewrite andb_true_r, Qplus_0_r.
Qed.

Lemma column_top_above n f d t dep top c :
  Qeq_bool top 0 = false ->
  Forall (fun dc => msk dc = false /\ dat dc < top) d ->
  depth_average_column n f d t dep top = Ok c ->
  msk c = true \/ exists f0, f !! 0%nat = Some f0 /\ dat c == dat f0.
Proof.
  intros Htop Hd H.
  apply depth_average_column_Ok_inv in H
    as (tc & imin & imax & Htc & Hmin & _ & ->).
  rewrite Htop in Htc. injection Htc as <-.
  assert (imin = 0%nat) as ->.
  { unfold argmin in Hmin. rewrite argbest_all_pinf in Hmin.
    - by injection Hmin as <-.
    - destruct d; [|done]. by vm_compute in Hmin.
    - rewrite !map_fmap. apply Forall_fmap, Forall_fmap.
      eapply Forall_impl; [exact Hd|]. intros dc [Hm Hlt]. simpl.
      unfold set_upper, ma_sub. simpl. rewrite Hm. simpl.
      assert (Qltb (dat dc - top) 0 = true) as -> by (apply Qltb_lt; lra).
      done. }
  set (sel := select n 0 imax).
  pose proof (select_tail_masked n imax) as Hsel. fold sel in Hsel.
  destruct (msk (ma_div _ _)) eqn:E; [by left|]. right.
  apply ma_div_unmasked in E as (HmN & HmD & HD0 & HQ).
  destruct (zip_with ma_imul t sel) as [|t0 tl] eqn:Et.
  { by vm_compute in HmD. }
  assert (Forall (fun s => msk s = true) tl) as Htl.
  { destruct t as [|tc t], sel as [|sc sel']; simpl in Et; try done.
    injection Et as _ <-. simpl in Hsel.
    by apply zip_with_masked_r; [apply ma_imul_masked_r|]. }
  destruct f as [|f0 f]; [by vm_compute in HmN|]. cbn [zip_with] in *.
  exists f0. split; [done|]. rewrite HQ. clear HQ.
  destruct (ma_sum_head t0 tl Htl) as [HD1 HD2].
  destruct (ma_sum_head (ma_mul f0 t0) (zip_with ma_mul f tl)) as [HN1 HN2].
  { by apply zip_with_masked_r; [apply ma_mul_masked_r|]. }
  rewrite HN1 in HmN. rewrite HD1 in HmD. rewrite HN2, HD2.
  rewrite HD2, HmD in HD0. rewrite HmN, HmD.
  unfold ma_mul in *. simpl in *. rewrite HmN. field. done.
Qed.

Lemma Qeq_bool_false x y : ~ x == y -> Qeq_bool x y = false.
Proof.
  intros H. destruct (Qeq_bool x y) eqn:E; [|done].
  by apply Qeq_bool_iff in E.
Qed.

Lemma ordered_bounds_nonpos depth top_depth :
  (ordered_bounds depth top_depth).2 <= 0.
Proof.
  unfold ordered_bounds. destruct (Qltb _ _); simpl; apply norm_depth_le.
Qed.

(** X4: An upper bound that is not zero and lies above every layer of a
    water cell selects no layer above the deepest one: the first index
    stands in for the missing layer at or above the bound, and the value
    returned at the cell is masked or is the value of the bottom layer,
    never a mean over the layers between the bounds. *)
Theorem depth_average_top_above_layers field grid depth top_depth zeta
    out j i c fcol dcol tcol m :
  shape3_eqb (shape3 field) (shape3 (Grid.thick_u grid)) = false ->
  shape3_eqb (shape3 field) (shape3 (Grid.thick_v grid)) = false ->
  depth_average field grid depth top_depth zeta = Ok out ->
  hget out j i = Some c ->
  hget field j i = Some fcol ->
  hget (level_depths grid zeta) j i = Some dcol ->
  hget (level_thickness grid zeta) j i = Some tcol ->
  hget (Grid.mask_rho grid) j i = Some m ->
  ~ (ordered_bounds depth top_depth).2 == 0 ->
  Forall (fun d => d * m < (ordered_bounds depth top_depth).2) dcol ->
  msk c = true \/ exists f0, fcol !! 0%nat = Some f0 /\ dat c == dat f0.
Proof.
  intros Hu Hv Hout Hc Hf Hd Ht Hm Htop Hdcol.
  pose proof (depth_average_cell _ _ _ _ _ _ _ _ _ _ _ _ _
                Hu Hv Hout Hc Hf Hd Ht Hm) as Hcol.
  pose proof (ordered_bounds_nonpos depth top_depth) as Hle.
  eapply column_top_above; [| |exact Hcol].
  - by apply Qeq_bool_false.
  - unfold cell_depths. rewrite map_fmap. apply Forall_fmap.
    eapply Forall_impl; [exact Hdcol|]. intros d Hlt. simpl in Hlt |- *.
    split; [|done]. apply Qeq_bool_false.
    set (p := d * m) in *. set (b := (ordered_bounds depth top_depth).2) in *.
    intros H0. rewrite H0 in Hlt. lra.
Qed.

(** *** transect: shape of the result, the axes *)

Ltac transect_inv H :=
  apply transect_Ok_inv in H;
  destruct H as [da dh s2 s3 k dmax dmin col0 sorted dmid zl0 zlN d0 dN
                   mind w f vals ndat0 Hdata Hdepth Hz Hlon Hk Hdmax Hx
                   Hcol0 Hdmin Hsorted Hzl0 Hd0 Hdmid HzlN HdN Hnz Hmind
                   Hw Hf Hvals Hs' Hreshape Hndat].

Lemma reshape_rows {A} (l : list A) nz nx m :
  reshape l nz nx = Ok m ->
  length m = nz /\ Forall (fun row => length row = nx) m.
Proof.
  unfold reshape. destruct (length l =? nz * nx)%nat eqn:E; [|done].
  apply Nat.eqb_eq in E. intros [= <-]. split.
  - by rewrite length_map, length_seq.
  - rewrite map_fmap. apply Forall_fmap, Forall_forall. intros r Hr.
    apply elem_of_seq in Hr. simpl.
    rewrite length_take, length_drop. nia.
Qed.

Lemma bottom_mask_rows nz f :
  length (bottom_mask nz f) = nz
  /\ Forall (fun row => length row = length f) (bottom_mask nz f).
Proof.
  unfold bottom_mask. split.
  - by rewrite length_map, length_seq.
  - rewrite map_fmap. apply Forall_fmap, Forall_forall. intros r _. simpl.
    by rewrite !length_map.
Qed.

(** X5: When [transect] returns, the horizontal axis has [nx] samples, the
    vertical axis has [nz] samples if no [z] was given, and the masked
    values form an array of one row per vertical sample and [nx]
    columns. *)
Theorem transect_shape lon lat depth data nx nz z s x zax ndat s' :
  transect lon lat depth data nx nz z s = (Ok (x, zax, ndat), s') ->
  length x = nx
  /\ (z = None -> length zax = nz)
  /\ length ndat = length zax
  /\ Forall (fun row => length row = nx) ndat.
Proof.
  intros H. transect_inv H.
  assert (length x = nx) as Hlx by (by rewrite Hx, length_linspace).
  apply reshape_rows in Hreshape as [Hr1 Hr2].
  destruct (bottom_mask_rows (length zax) f) as [Hm1 Hm2].
  apply interp_Ok in Hf as (_ & _ & Hf).
  assert (length f = nx) as Hlf.
  { rewrite Hf, length_map. unfold scaled. by rewrite length_map. }
  split_and!.
  - done.
  - intros ->. unfold vertical_axis, Py.lift in Hz.
    destruct (amin _) as [lo|]; simpl in Hz; [|done].
    destruct (amax _) as [hi|]; simpl in Hz; [|done].
    injection Hz as <- _. apply length_linspace.
  - rewrite Hndat, length_zip_with, Hr1, Hm1. lia.
  - rewrite Hndat. apply Forall_lookup. intros r row Hrow.
    apply lookup_zip_with_Some in Hrow as (a & b & -> & Ha & Hb).
    rewrite length_zip_with.
    rewrite (Forall_lookup_1 _ _ _ _ Hr2 Ha).
    rewrite (Forall_lookup_1 _ _ _ _ Hm2 Hb). lia.
Qed.

(** X6: The axes [transect] returns: the horizontal one runs from zero to
    the greatest distance of a waypoint from the first one, whatever the
    scale factor used for the interpolation, and no sample of the
    vertical one is positive, whether it was built or given. *)
Theorem transect_axes lon lat depth data nx nz z s x zax ndat s' :
  transect lon lat depth data nx nz z s = (Ok (x, zax, ndat), s') ->
  (exists dmax,
     amax (path_dist lon lat) = Ok dmax
     /\ x = linspace 0 dmax nx
     /\ Forall (fun v => 0 <= v <= dmax) x)
  /\ Forall (fun v => v <= 0) zax.
Proof.
  intros H. transect_inv H. split.
  - exists dmax. split; [done|]. split; [done|]. rewrite Hx.
    apply linspace_bounds. apply amax_spec in Hdmax as [_ Hle].
    unfold path_dist in Hle. by inversion Hle.
  - pose proof (negate_positive_nonpos _ _ _ _ Hdepth) as Hnp.
    destruct z as [[l|v]|].
    + unfold vertical_axis, Py.bind in Hz. simpl in Hz.
      destruct (heap s2 !! l) as [[v|m]|]; simpl in Hz; try done.
      injection Hz as <- _. rewrite map_fmap. apply Forall_fmap, Forall_forall.
      intros d _. apply neg_pos_le.
    + done.
    + unfold vertical_axis, Py.lift in Hz. rewrite Hdmin in Hz. simpl in Hz.
      destruct (amax (mjoin (rows_of dh))) as [hi|] eqn:Ehi; simpl in Hz;
        [|done].
      injection Hz as <- _.
      apply amin_spec in Hdmin as [_ Hlo]. apply amax_spec in Ehi as [Hin _].
      assert (hi <= 0) as Hhi.
      { apply list_elem_of_join in Hin as (row & Hhi & Hrow).
        pose proof (proj1 (Forall_forall _ _) Hnp row Hrow) as Hr.
        by apply (proj1 (Forall_forall _ _) Hr). }
      pose proof (proj1 (Forall_forall _ _) Hlo hi Hin) as Hlohi.
      simpl in Hlohi.
      eapply Forall_impl; [apply linspace_bounds; lra|].
      intros v [? ?]. simpl. lra.
Qed.

(** *** transect: the mask *)

Lemma hget_Some_lt {A} (a : hgrid A) r c v :
  hget a r c = Some v -> exists row, a !! r = Some row /\ row !! c = Some v.
Proof.
  unfold hget. destruct (a !! r) as [row|]; [|done]. simpl. by exists row.
Qed.

(** X7: In every column of the result the masked cells form one block that
    starts at the deepest row: below a masked cell every cell is
    masked. *)
Theorem transect_mask_column lon lat depth data nx nz z s x zax ndat s' :
  transect lon lat depth data nx nz z s = (Ok (x, zax, ndat), s') ->
  forall r r' c cell,
    hget ndat r c = Some cell -> msk cell = true -> (r' <= r)%nat ->
    exists cell', hget ndat r' c = Some cell' /\ msk cell' = true.
Proof.
  intros H r r' c cell Hcell Hmsk Hle. transect_inv H.
  apply reshape_rows in Hreshape as [Hr1 Hr2].
  rewrite Hndat in Hcell |- *.
  change (zip_with (zip_with Masked) ndat0 ?m) with (hzip Masked ndat0 m)
    in Hcell |- *.
  rewrite hget_hzip in Hcell. rewrite hget_hzip.
  destruct (hget ndat0 r c) as [v|] eqn:Hv; [|done]. simpl in Hcell.
  destruct (hget (bottom_mask (length zax) f) r c) as [b|] eqn:Hb; [|done].
  simpl in Hcell. injection Hcell as <-. simpl in Hmsk. subst b.
  apply hget_Some_lt in Hv as (row & Hrow & Hvc).
  pose proof (lookup_lt_Some _ _ _ Hrow) as Hr.
  pose proof (lookup_lt_Some _ _ _ Hvc) as Hc.
  rewrite (Forall_lookup_1 _ _ _ _ Hr2 Hrow) in Hc.
  destruct (lookup_lt_is_Some_2 ndat0 r') as [row' Hrow']; [lia|].
  destruct (lookup_lt_is_Some_2 row' c) as [v' Hv'].
  { by rewrite (Forall_lookup_1 _ _ _ _ Hr2 Hrow'). }
  assert (hget ndat0 r' c = Some v') as -> by (unfold hget; by rewrite Hrow').
  unfold hget, bottom_mask in Hb |- *.
  rewrite map_fmap, list_lookup_fmap in Hb.
  rewrite map_fmap, list_lookup_fmap.
  destruct (seq 0 (length zax) !! r) as [r0|] eqn:Er; [|done].
  apply lookup_seq in Er as [-> Er]. simpl in Hb.
  assert (seq 0 (length zax) !! r' = Some r') as ->
    by (apply lookup_seq; split; [done | lia]).
  simpl. rewrite map_fmap, list_lookup_fmap in Hb.
  rewrite map_fmap, list_lookup_fmap.
  destruct (map Qtrunc f !! c) as [i|]; [|done]. simpl in Hb |- *.
  injection Hb as Hb. apply Z.leb_le in Hb.
  eexists. split; [done|]. simpl. apply Z.leb_le. lia.
Qed.

(** *** transect: calls that cannot succeed *)

Lemma fails_bind {A B} (m : Py.M tstate A) (k : A -> Py.M tstate B) s :
  quiet m ->
  (forall a s1, m s = (Ok a, s1) ->
     exists e, (k a s1).1 = Raise e /\ calls (k a s1).2 = calls s1) ->
  exists e, (Py.bind m k s).1 = Raise e
            /\ calls (Py.bind m k s).2 = calls s.
Proof.
  intros Hm Hk. unfold Py.bind. specialize (Hm s).
  destruct (m s) as [[a|e] s1] eqn:E; simpl in *.
  - destruct (Hk a s1 eq_refl) as (e & He & Hc). exists e.
    split; [done|]. congruence.
  - by exists e.
Qed.

Lemma fails_bind_lift {A B} (r : result A) (k : A -> Py.M tstate B) s :
  (forall a, r = Ok a ->
     exists e, (k a s).1 = Raise e /\ calls (k a s).2 = calls s) ->
  exists e, (Py.bind (Py.lift r) k s).1 = Raise e
            /\ calls (Py.bind (Py.lift r) k s).2 = calls s.
Proof.
  intros Hk. apply fails_bind; [apply quiet_lift|].
  intros a s1 [= -> <-]. by apply Hk.
Qed.

(** X9: A vertical axis of fewer than two samples cannot be built: with no
    [z] given and [nz] below 2 the vertical spacing is the mean of an
    empty array, and the call raises before [griddata] is reached. *)
Theorem transect_short_axis_fails lon lat depth data nx nz s :
  (nz < 2)%nat ->
  exists e,
    (transect lon lat depth data nx nz None s).1 = Raise e
    /\ calls (transect lon lat depth data nx nz None s).2 = calls s.
Proof.
  intros Hnz. unfold transect.
  apply fails_bind; [apply quiet_negate_positive | intros dh s2 _].
  apply fails_bind; [apply quiet_vertical_axis | intros zv s3 Hz].
  assert (diff zv = []) as Hdiff.
  { unfold vertical_axis, Py.lift in Hz.
    destruct (amin _) as [lo|]; simpl in Hz; [|done].
    destruct (amax _) as [hi|]; simpl in Hz; [|done].
    injection Hz as <- _.
    pose proof (length_linspace (lo - 2) hi nz) as Hlen.
    destruct (linspace (lo - 2) hi nz) as [|z0 [|z1 zs]]; simpl in Hlen;
      try done. lia. }
  apply fails_bind; [apply quiet_read_arg | intros da s4 _].
  do 3 (apply fails_bind_lift; intros ? _).
  rewrite Hdiff. simpl.
  assert (forall dx, f_div dx NaN = NaN) as Hnan by (by intros [| | |]).
  rewrite Hnan. apply fails_bind_lift. by intros ? ?.
Qed.

Lemma rows_of_harray_map f v :
  length (rows_of (harray_map f v)) = length (rows_of v).
Proof. destruct v; simpl; [done | apply length_map]. Qed.

Lemma normalised_at_rows a h l v' :
  normalised_at a h !! l = Some v' ->
  exists v, h !! l = Some v /\ length (rows_of v') = length (rows_of v).
Proof.
  destruct a as [[l'|w]|]; simpl; try (intros; by eexists).
  destruct (h !! l') as [u|] eqn:E; [|intros; by eexists].
  destruct (decide (l' = l)) as [->|Hne].
  - rewrite lookup_insert_eq. intros [= <-]. exists u.
    split; [done | apply rows_of_harray_map].
  - rewrite lookup_insert_ne by done. intros; by eexists.
Qed.

(** X10: A [data] array with fewer layers than the [depth] array is never
    accepted: the rows of [data] are picked with the indices that sort
    the layers of [depth], the largest of them is out of range, and the
    call raises before [griddata] is reached. *)
Theorem transect_missing_layers_fails lon lat depth data nx nz z s d da :
  read_arg depth s = (Ok d, s) ->
  read_arg data s = (Ok da, s) ->
  (length (rows_of da) < length (rows_of d))%nat ->
  exists e,
    (transect lon lat depth data nx nz z s).1 = Raise e
    /\ calls (transect lon lat depth data nx nz z s).2 = calls s.
Proof.
  intros Hd Hda Hlt. unfold transect.
  apply fails_bind; [apply quiet_negate_positive | intros dh s2 Hdh].
  assert (length (rows_of dh) = length (rows_of d)) as Hrows.
  { pose proof (negate_positive_value _ _ _ Hd) as Hv. rewrite Hdh in Hv.
    injection Hv as ->. apply rows_of_harray_map. }
  pose proof (negate_positive_heap depth s) as Hh2. rewrite Hdh in Hh2.
  cbn [snd] in Hh2.
  apply fails_bind; [apply quiet_vertical_axis | intros zv s3 Hz].
  pose proof (vertical_axis_heap (rows_of dh) nz z s2) as Hh3.
  rewrite Hz in Hh3. cbn [snd] in Hh3.
  apply fails_bind; [apply quiet_read_arg | intros da' s4 Hda'].
  assert (length (rows_of da') = length (rows_of da)) as Hrows'.
  { destruct data as [l|v]; simpl in Hda, Hda'.
    - destruct (heap s !! l) as [u|] eqn:E; [|done]. injection Hda as ->.
      destruct (heap s3 !! l) as [u3|] eqn:E3; [|done].
      injection Hda' as -> _. rewrite Hh3 in E3.
      apply normalised_at_rows in E3 as (u2 & E2 & ->). rewrite Hh2 in E2.
      apply normalised_at_rows in E2 as (u1 & E1 & ->). congruence.
    - unfold Py.ret in *. congruence. }
  do 3 (apply fails_bind_lift; intros ? _).
  apply fails_bind_lift; intros kz _.
  apply fails_bind_lift; intros dmax _.
  apply fails_bind_lift; intros col0 Hcol0.
  apply fails_bind_lift; intros dmin _.
  apply fails_bind_lift; intros sorted _.
  apply fails_bind_lift; intros zl0 _.
  apply fails_bind_lift; intros d0 _.
  apply fails_bind_lift; intros dmid Hdmid.
  exfalso. unfold take_rows in Hdmid.
  apply sequence_length in Hcol0. rewrite length_map in Hcol0.
  assert (length (rows_of da') ∈ argsort col0) as Hin.
  { rewrite argsort_perm. apply elem_of_seq. lia. }
  apply list_elem_of_lookup in Hin as [jz Hjz].
  destruct (sequence_lookup _ _ jz
              (index (rows_of da') (length (rows_of da'))) Hdmid)
    as (row & Hr & _).
  { by rewrite map_fmap, list_lookup_fmap, Hjz. }
  apply index_Ok, lookup_lt_Some in Hr. lia.
Qed.

(** *** The observation plots: which observations are drawn *)

Lemma where_from_filter {A} (cond : A -> bool) k (l : list A) :
  where_from cond k l
  = (filter (fun io => cond io.2 = true) (zip (seq k (length l)) l)).*1.
Proof.
  revert k. induction l as [|a l IH]; intros k; [done|].
  simpl. rewrite filter_cons. simpl.
  destruct (cond a) eqn:E.
  - rewrite decide_True by done. simpl. by rewrite IH.
  - rewrite decide_False by done. by rewrite IH.
Qed.

Lemma enumerate_lookup {A} (l : list A) :
  Forall (fun io => l !! io.1 = Some io.2) (enumerate l).
Proof.
  unfold enumerate. apply Forall_lookup. intros j [i a] Hj.
  apply lookup_zip_with_Some in Hj as (i' & a' & [= <- <-] & Hi & Ha).
  apply lookup_seq in Hi as [-> _]. done.
Qed.

Lemma Forall_filter_sub {A} (P : A -> Prop) (Q : A -> Prop)
    `{forall x, Decision (Q x)} (l : list A) :
  Forall P l -> Forall P (filter Q l).
Proof.
  intros Hl. apply Forall_forall. intros x Hx.
  apply list_elem_of_filter in Hx as [_ Hx].
  by apply (proj1 (Forall_forall _ _) Hl).
Qed.

Lemma selected_lookup p obs :
  Forall (fun io => obs !! io.1 = Some io.2) (selected p obs).
Proof. apply Forall_filter_sub, enumerate_lookup. Qed.

(** Fancy indexing with the indices of selected entries cannot fail. *)
Lemma take_rows_sel {A B} (g : A -> B) (l : list A) (sel : list (nat * A)) :
  Forall (fun io => l !! io.1 = Some io.2) sel ->
  take_rows (map g l) (sel.*1) = Ok (map (fun io => g io.2) sel).
Proof.
  intros H. unfold take_rows. apply sequence_Ok.
  induction H as [|[i a] sel Hi _ IH]; [done|].
  simpl in Hi. rewrite fmap_cons. cbn [map fmap list_fmap fst snd].
  f_equal; [|exact IH].
  unfold index. by rewrite map_fmap, list_lookup_fmap, Hi.
Qed.

Lemma compress_sel {A} (q : A -> bool) (f : A -> nat) (sel : list A) :
  compress (map f sel) (map q sel)
  = Ok (map f (filter (fun a => q a = true) sel)).
Proof.
  unfold compress. rewrite !length_map, Nat.eqb_refl. f_equal.
  induction sel as [|a sel IH]; [done|].
  simpl. rewrite !filter_cons. simpl.
  destruct (q a) eqn:E.
  - rewrite !decide_True by done. simpl. by rewrite IH.
  - rewrite !decide_False by (by rewrite ?E). done.
Qed.

Lemma filter_all {A} (P : A -> Prop) `{forall x, Decision (P x)}
    (l : list A) :
  Forall P l -> filter P l = l.
Proof.
  induction 1 as [|a l Ha _ IH]; [done|].
  rewrite filter_cons, decide_True by done. by rewrite IH.
Qed.

Lemma restrict_time_sel obs (sel : list (nat * observation)) time :
  Forall (fun io => obs !! io.1 = Some io.2) sel ->
  restrict_time obs (sel.*1) time
  = Ok ((filter (fun io => time_match time io.2 = true) sel).*1).
Proof.
  intros Hsel. unfold restrict_time, time_match. destruct time as [t|].
  - rewrite (take_rows_sel obs_time obs sel Hsel). cbn [rbind].
    unfold in1d. rewrite List.map_map.
    apply (compress_sel (fun io => existsb (Qeq_bool (obs_time io.2)) t) fst).
  - by rewrite filter_all by (by apply Forall_forall).
Qed.

(** The indices [plot_obs_spatial] arrives at are those of the
    observations that match. *)
Lemma spatial_idx obs otype prov depth time :
  restrict_time obs
    (match prov with
     | Some prov =>
         np_where (fun o => (obs_type o =? otype)%Z
                            && (obs_provenance o =? prov)%Z
                            && (Qeq_bool (obs_z o) 0
                                || Qeq_bool (obs_depth o) depth)) obs
     | None =>
         np_where (fun o => (obs_type o =? otype)%Z
                            && (Qeq_bool (obs_z o) 0
                                || Qeq_bool (obs_depth o) depth)) obs
     end) time
  = Ok ((filter (fun io => time_match time io.2 = true)
                (selected (spatial_match otype prov depth) obs)).*1).
Proof.
  rewrite <- (restrict_time_sel obs
                (selected (spatial_match otype prov depth) obs) time)
    by apply selected_lookup.
  f_equal.
  unfold np_where, selected, enumerate, spatial_match.
  destruct prov as [p|]; rewrite where_from_filter; [done|].
  do 2 f_equal. apply list_filter_iff. intros [i o]. simpl.
  by rewrite andb_true_r.
Qed.

Lemma profile_idx obs otype prov time :
  restrict_time obs
    (match prov with
     | Some prov =>
         np_where (fun o => (obs_type o =? otype)%Z
                            && (obs_provenance o =? prov)%Z
                            && (Qltb (obs_z o) 0 || Qltb (obs_depth o) 0)) obs
     | None =>
         np_where (fun o => (obs_type o =? otype)%Z
                            && (Qltb (obs_z o) 0 || Qltb (obs_depth o) 0)) obs
     end) time
  = Ok ((filter (fun io => time_match time io.2 = true)
                (selected (profile_match otype prov) obs)).*1).
Proof.
  rewrite <- (restrict_time_sel obs
                (selected (profile_match otype prov) obs) time)
    by apply selected_lookup.
  f_equal.
  unfold np_where, selected, enumerate, profile_match.
  destruct prov as [p|]; rewrite where_from_filter; [done|].
  do 2 f_equal. apply list_filter_iff. intros [i o]. simpl.
  by rewrite andb_true_r.
Qed.

(** X11: What [plot_obs_spatial] does is decided by the observations that
    match the type, the provenance, the level and the times asked for.
    When none of them has an index other than zero it draws nothing and
    returns.  Otherwise it makes the scatter call: with [x], [y] or [c]
    among the keywords of the caller the call raises a [TypeError] and
    nothing is drawn; without them there is one scatter plot of exactly
    the matching observations, in the order of the file, with the
    defaults when no keyword is given, followed by the colour bar. *)
Theorem plot_obs_spatial_draws obs type prov time depth gridcoord error kw s :
  let sel := filter (fun io => time_match time io.2 = true)
               (selected (spatial_match (astype type) (asprovenance <$> prov)
                                        depth) (asobs obs)) in
  plot_obs_spatial obs type prov time depth gridcoord error kw s
  = if any_nonzero (sel.*1)
    then if clashes ["x"; "y"; "c"] kw
         then (Raise TypeError, s)
         else (Ok tt,
               s ++ [Scatter
                       (map (fun io => if gridcoord then obs_x io.2
                                       else obs_lon io.2) sel)
                       (map (fun io => if gridcoord then obs_y io.2
                                       else obs_lat io.2) sel)
                       (map (fun io => if error then np_sqrt (obs_error io.2)
                                       else Fin (obs_value io.2)) sel)
                       (match kw with [] => scatter_defaults | _ => kw end);
                     Colorbar])
    else (Ok tt, s).
Proof.
  intros sel. unfold plot_obs_spatial.
  unfold Py.bind at 1. unfold Py.lift at 1. rewrite spatial_idx. fold sel.
  destruct (any_nonzero sel.*1); [|done]. cbn [negb].
  assert (Forall (fun io => asobs obs !! io.1 = Some io.2) sel) as Hsel
    by apply Forall_filter_sub, selected_lookup.
  assert (clashes ["x"; "y"; "c"] scatter_defaults = false) as Hd
    by (vm_compute; reflexivity).
  unfold scatter_defaults in Hd.
  destruct kw as [|kv kw'].
  - destruct gridcoord, error; cbn [negb];
      unfold Py.bind, Py.lift;
      rewrite !(take_rows_sel _ _ _ Hsel); unfold scatter; rewrite Hd;
      unfold draw, Py.modify; by rewrite <- app_assoc.
  - destruct gridcoord, error; cbn [negb];
      unfold Py.bind, Py.lift;
      rewrite !(take_rows_sel _ _ _ Hsel); unfold scatter;
      (destruct (clashes ["x"; "y"; "c"] (kv :: kw')); [done|]);
      unfold draw, Py.modify; by rewrite <- app_assoc.
Qed.

(** X12: The test [idx.any()] looks at the indices, not at their number: when
    the first observation of the file is the only one that matches,
    [plot_obs_spatial] draws nothing. *)
Theorem plot_obs_spatial_lone_first obs type prov time depth gridcoord error
    kw s o :
  filter (fun io => time_match time io.2 = true)
    (selected (spatial_match (astype type) (asprovenance <$> prov) depth)
              (asobs obs))
  = [(0%nat, o)] ->
  plot_obs_spatial obs type prov time depth gridcoord error kw s = (Ok tt, s).
Proof.
  intros Hsel. unfold plot_obs_spatial.
  unfold Py.bind at 1. unfold Py.lift at 1. rewrite spatial_idx, Hsel. done.
Qed.

Lemma Qsum_indicator {A} (c : A -> bool) (l : list A) :
  0 <= Qsum (map (fun a => if c a then 1 else 0) l)
  /\ (existsb c l = true -> 0 < Qsum (map (fun a => if c a then 1 else 0) l))
  /\ (existsb c l = false
      -> Qsum (map (fun a => if c a then 1 else 0) l) == 0).
Proof.
  induction l as [|a l (IH0 & IH1 & IH2)]; simpl.
  - split_and!; [lra | done | reflexivity].
  - unfold Qsum in *. simpl. destruct (c a); simpl.
    + split_and!; [lra | intros _; lra | done].
    + split_and!; [lra | intros H; specialize (IH1 H); lra
                  | intros H; specialize (IH2 H); lra].
Qed.

(** The mean of a boolean array is true when one entry is. *)
Lemma truthy_mean_indicator {A} (c : A -> bool) (l : list A) :
  l <> [] ->
  truthy (f_mean (map (fun a => if c a then 1 else 0) l)) = existsb c l.
Proof.
  intros Hl. destruct (Qsum_indicator c l) as (H0 & H1 & H2).
  remember (map (fun a => if c a then 1 else 0) l) as ind eqn:Eind.
  assert (ind <> []) as Hind by (subst; by destruct l).
  destruct ind as [|q ind']; [done|].
  change (f_mean (q :: ind'))
    with (Fin (Qsum (q :: ind')
               / inject_Z (Z.of_nat (length (q :: ind'))))).
  assert (0 < inject_Z (Z.of_nat (length (q :: ind')))) as Hn
    by (apply inject_nat_pos; simpl; lia).
  set (n := inject_Z (Z.of_nat (length (q :: ind')))) in *.
  set (S := Qsum (q :: ind')) in *.
  unfold truthy. destruct (existsb c l) eqn:Ex.
  - specialize (H1 eq_refl). apply negb_true_iff, Qeq_bool_false.
    intros Hq.
    assert (0 < S / n) as Hpos
      by (by apply Qlt_shift_div_l; [|rewrite Qmult_0_l]).
    lra.
  - specialize (H2 eq_refl). apply negb_false_iff, Qeq_bool_iff.
    rewrite H2. unfold Qdiv. ring.
Qed.

(** X13: [plot_obs_profile] never raises.  When a matching observation has an
    index other than zero it plots exactly the matching observations, in
    the order of the file, against one vertical coordinate for all of
    them: [obs.z] when one of them has a negative [z] (a positive one on
    grid coordinates), [obs.depth] otherwise.  When no observation
    matches, or only the first one of the file, it plots nothing. *)
Theorem plot_obs_profile_draws obs type prov time (gridcoord error : bool)
    kw s :
  let sel := filter (fun io => time_match time io.2 = true)
               (selected (profile_match (astype type) (asprovenance <$> prov))
                         (asobs obs)) in
  let use_z := if gridcoord
               then existsb (fun io : nat * observation =>
                               Qltb 0 (obs_z io.2)) sel
               else existsb (fun io : nat * observation =>
                               Qltb (obs_z io.2) 0) sel in
  plot_obs_profile obs type prov time gridcoord error kw s
  = (Ok tt,
     if any_nonzero (sel.*1)
     then s ++ [Plot
                  (map (fun io => if error then np_sqrt (obs_error io.2)
                                  else Fin (obs_value io.2)) sel)
                  (map (fun io => if use_z then obs_z io.2
                                  else obs_depth io.2) sel)
                  "k+" kw]
     else s).
Proof.
  intros sel use_z. unfold plot_obs_profile.
  unfold Py.bind at 1. unfold Py.lift at 1. rewrite profile_idx. fold sel.
  destruct (any_nonzero sel.*1) eqn:Eany; [|done]. cbn [negb].
  assert (sel <> []) as Hne by (intros Hnil; by rewrite Hnil in Eany).
  assert (Forall (fun io => asobs obs !! io.1 = Some io.2) sel) as Hsel
    by apply Forall_filter_sub, selected_lookup.
  unfold Py.bind at 1. unfold Py.lift at 1.
  rewrite (take_rows_sel _ _ _ Hsel).
  rewrite !List.map_map.
  rewrite !(truthy_mean_indicator _ sel Hne).
  subst use_z.
  destruct gridcoord, error; cbn [negb];
    (match goal with
     | |- context [if existsb ?c sel then _ else _] =>
         destruct (existsb c sel)
     end);
    unfold Py.bind, Py.lift;
    rewrite !(take_rows_sel _ _ _ Hsel); unfold draw, Py.modify; done.
Qed.

(** *** The standard-deviation files: indices and slices *)

Lemma arange_step_bounds a b st :
  Forall (fun v => (a <= v < b)%Z) (arange_step a b st).
Proof.
  unfold arange_step. rewrite map_fmap. apply Forall_fmap, Forall_forall.
  intros i Hi. apply elem_of_seq in Hi. simpl.
  pose proof (Z.mul_div_le (b - a + Z.pos st - 1) (Z.pos st) ltac:(lia))
    as Hq.
  set (q := ((b - a + Z.pos st - 1) / Z.pos st)%Z) in *.
  assert (Z.of_nat i < q)%Z as Hi' by lia.
  split; nia.
Qed.

Lemma arange_unit a b :
  arange_step a b 1
  = map (fun i => (a + Z.of_nat i)%Z) (seq 0 (Z.to_nat (b - a))).
Proof.
  unfold arange_step.
  replace ((b - a + 1 - 1) / 1)%Z with (b - a)%Z
    by (rewrite Z.div_1_r; lia).
  apply List.map_ext. intros i. lia.
Qed.

Lemma np_index_in_range {A} (l : list A) (i : Z) :
  (0 <= i < Z.of_nat (length l))%Z ->
  np_index l i = index l (Z.to_nat i).
Proof.
  intros Hi. unfold np_index.
  assert ((i <? - Z.of_nat (length l))%Z = false) as ->
    by (apply Z.ltb_ge; lia).
  assert ((Z.of_nat (length l) <=? i)%Z = false) as ->
    by (apply Z.leb_gt; lia).
  assert ((i <? 0)%Z = false) as -> by (apply Z.ltb_ge; lia). done.
Qed.

(** Indexing with a range inside the array is the slice. *)
Lemma np_take_range {A} (l : list A) a b :
  (0 <= a)%Z -> (b <= Z.of_nat (length l))%Z ->
  np_take l (arange_step a b 1)
  = Ok (take (Z.to_nat (b - a)) (drop (Z.to_nat a) l)).
Proof.
  intros Ha Hb. unfold np_take. apply sequence_Ok. rewrite arange_unit.
  apply list_eq. intros i.
  rewrite !map_fmap, !list_lookup_fmap.
  destruct (decide (i < Z.to_nat (b - a))%nat) as [Hi|Hi].
  - rewrite (proj2 (lookup_seq 0 _ i i)) by (split; [done|lia]). simpl.
    rewrite lookup_take_lt by done. rewrite lookup_drop.
    rewrite np_index_in_range by lia. unfold index.
    replace (Z.to_nat (a + Z.of_nat i)) with (Z.to_nat a + i)%nat by lia.
    destruct (lookup_lt_is_Some_2 l (Z.to_nat a + i)%nat) as [x ->]; [lia|].
    done.
  - rewrite lookup_take_ge by lia.
    rewrite (lookup_ge_None_2 (seq 0 (Z.to_nat (b - a))) i)
      by (rewrite length_seq; lia).
    done.
Qed.

Lemma np_take_raises {A} (l : list A) idx i :
  i ∈ idx -> np_index l i = Raise IndexError ->
  np_take l idx = Raise IndexError.
Proof.
  assert (forall j, np_index l j = Raise IndexError
                    \/ exists x, np_index l j = Ok x) as Hcases.
  { intros j. unfold np_index, index.
    destruct (_ || _); [by left|].
    destruct (l !! _); [right; by eexists | by left]. }
  intros Hin Hi. unfold np_take.
  induction idx as [|j idx IH]; [by apply elem_of_nil in Hin|].
  simpl. destruct (Hcases j) as [-> | [x Hx]]; [done|].
  rewrite Hx. simpl. apply elem_of_cons in Hin as [->|Hin]; [congruence|].
  by rewrite IH.
Qed.

(** A loop whose body cannot fail and appends to the log. *)
Lemma for_each_log {E A B} (f : A -> Py.M (list E) B) (g : A -> B)
    (h : A -> list E) (l : list A) s :
  Forall (fun a => forall s, f a s = (Ok (g a), s ++ h a)) l ->
  Py.for_each f l s = (Ok (map g l), s ++ mjoin (map h l)).
Proof.
  intros H. revert s. induction H as [|a l Ha _ IH]; intros s.
  - simpl. unfold Py.ret. by rewrite app_nil_r.
  - cbn [Py.for_each]. unfold Py.bind. rewrite Ha, IH. unfold Py.ret.
    simpl. by rewrite <- app_assoc.
Qed.

Lemma create_loop (dims : list string) (names : list string) s :
  Py.for_each (fun f => log_event (CreateVariable f dims)) names s
  = (Ok (map (fun _ => tt) names),
     s ++ map (fun f => CreateVariable f dims) names).
Proof.
  rewrite (for_each_log _ (fun _ => tt)
             (fun f => [CreateVariable f dims])); [|by apply Forall_forall].
  do 2 f_equal. induction names as [|f names IH]; [done|].
  simpl. by rewrite IH.
Qed.

Lemma mjoin_singletons {A B} (f : A -> B) (l : list A) :
  mjoin (map (fun a => [f a]) l) = map f l.
Proof. induction l as [|a l IH]; [done|]. simpl. by rewrite IH. Qed.

(** *** gen_std_i *)

(** X14: For a padding and a number of skipped records that are not
    negative, and a file in which every field processed has a record for
    every time, [gen_std_i] cannot fail.  Window [n] starts [n] window lengths
    after record [skip] and holds the [std_window + 2 * pad] records
    from there on; every window ends before the last record of the
    file.  Per window the routine writes the mean time of the window,
    then for every field the deviation over the window, clipped, then
    syncs. *)
Theorem gen_std_i_writes nc out_vars std_window pad skip fields s :
  (0 <= pad)%Z -> (0 <= skip)%Z ->
  Forall (fun vr => (length (ds_time nc) <= length vr.2)%nat)
         (std_fields nc (fields_or roms_fields fields)) ->
  let flds := std_fields nc (fields_or roms_fields fields) in
  let w := Z.to_nat (Z.pos std_window + 2 * pad) in
  let starts := arange_step (skip + pad)
                  (Z.of_nat (length (ds_time nc)) - Z.pos std_window - pad)
                  std_window in
  Forall (fun t => (skip <= t - pad
                    /\ t - pad + Z.of_nat w < Z.of_nat (length (ds_time nc)))%Z)
         starts
  /\ gen_std_i nc out_vars std_window pad skip fields s
     = (Ok tt,
        s ++ created ["ocean_time"; "s_rho"; "eta_rho"; "xi_rho"] out_vars flds
          ++ mjoin (map (fun nt : nat * Z =>
                           let lo := Z.to_nat (nt.2 - pad) in
                           PutTime nt.1 (f_mean (take w (drop lo (ds_time nc))))
                           :: map (fun vr : string * list (list Q) =>
                                     PutRecord vr.1 nt.1
                                       (map clip_std
                                          (np_std (take w (drop lo vr.2)))))
                                  flds
                           ++ [Sync])
                        (enumerate starts))
          ++ [CloseOut; CloseIn]).
Proof.
  intros Hpad Hskip Hvars flds w starts.
  assert (Forall (fun t => (skip <= t - pad
                    /\ t - pad + Z.of_nat w < Z.of_nat (length (ds_time nc)))%Z)
                 starts) as Hstarts.
  { eapply Forall_impl; [apply arange_step_bounds|].
    intros t Ht. simpl in Ht. unfold w. lia. }
  split; [exact Hstarts|].
  unfold gen_std_i. fold (fields_or roms_fields fields). fold flds.
  unfold Py.bind at 1. rewrite create_loop. fold starts.
  unfold Py.bind at 1.
  rewrite (for_each_log _ (fun _ => tt)
             (fun nt : nat * Z =>
                let lo := Z.to_nat (nt.2 - pad) in
                PutTime nt.1 (f_mean (take w (drop lo (ds_time nc))))
                :: map (fun vr : string * list (list Q) =>
                          PutRecord vr.1 nt.1
                            (map clip_std (np_std (take w (drop lo vr.2)))))
                       flds
                ++ [Sync])).
  - unfold Py.bind, log_event, Py.modify, created. cbn [fst snd].
    by rewrite <- !app_assoc.
  - apply Forall_forall. intros [n t] Hnt s0. cbn [fst snd].
    assert (t ∈ starts) as Ht by (by apply elem_of_zip_r in Hnt).
    apply (proj1 (Forall_forall _ _) Hstarts) in Ht as [Ht1 Ht2].
    assert (forall A (l : list A),
              (length (ds_time nc) <= length l)%nat ->
              np_take l (arange_step (t - pad) (t + Z.pos std_window + pad) 1)
              = Ok (take w (drop (Z.to_nat (t - pad)) l))) as Htake.
    { intros A l Hl. rewrite np_take_range by (unfold w in Ht2; lia).
      do 2 f_equal. unfold w. lia. }
    unfold Py.bind at 1. unfold Py.lift at 1. rewrite Htake by done.
    unfold Py.bind at 1. unfold log_event at 1, Py.modify at 1.
    unfold Py.bind at 1.
    rewrite (for_each_log _ (fun _ => tt)
               (fun vr : string * list (list Q) =>
                  [PutRecord vr.1 n
                     (map clip_std
                        (np_std (take w (drop (Z.to_nat (t - pad)) vr.2))))])).
    + unfold log_event, Py.modify. rewrite mjoin_singletons.
      by rewrite <- !app_assoc.
    + apply Forall_forall. intros [v recs] Hv s1. cbn [fst snd].
      unfold Py.bind, Py.lift. rewrite Htake; [done|].
      exact (proj1 (Forall_forall _ _) Hvars (v, recs) Hv).
Qed.

Lemma logs_ret P {A} (a : A) : logs P (Py.ret a).
Proof. intros s. exists []. by rewrite app_nil_r. Qed.

Lemma logs_lift P {A} (r : result A) : logs P (Py.lift r).
Proof. intros s. exists []. by rewrite app_nil_r. Qed.

Lemma logs_event P e : P e -> logs P (log_event e).
Proof. intros He s. exists [e]. split; [done | by constructor]. Qed.

Lemma logs_bind P {A B} (m : Py.M (list nc_event) A)
    (k : A -> Py.M (list nc_event) B) :
  logs P m -> (forall a, logs P (k a)) -> logs P (Py.bind m k).
Proof.
  intros Hm Hk s. unfold Py.bind. destruct (Hm s) as (e1 & H1 & HP1).
  destruct (m s) as [[a|e] s1]; simpl in *; [|by exists e1].
  destruct (Hk a s1) as (e2 & H2 & HP2). exists (e1 ++ e2).
  split; [|by apply Forall_app]. by rewrite H2, H1, app_assoc.
Qed.

Lemma logs_for_each P {A B} (f : A -> Py.M (list nc_event) B) l :
  (forall a, logs P (f a)) -> logs P (Py.for_each f l).
Proof.
  intros Hf. induction l as [|a l IH]; [apply logs_ret|].
  cbn [Py.for_each]. apply logs_bind; [apply Hf | intros b].
  apply logs_bind; [apply IH | intros bs]. apply logs_ret.
Qed.

Lemma clip_std_le d : f_ltb (Fin 10) (clip_std d) = false.
Proof. unfold clip_std. by destruct (f_ltb (Fin 10) d) eqn:E. Qed.

(** X15: Whatever the file and the arguments, and whether the call returns
    or raises, [gen_std_i] only appends to the log of the files and
    writes no deviation above 10: such a value is written as zero. *)
Theorem gen_std_i_clipped nc out_vars std_window pad skip fields s :
  exists evs,
    (gen_std_i nc out_vars std_window pad skip fields s).2 = s ++ evs
    /\ Forall clipped evs.
Proof.
  revert s. change (logs clipped (gen_std_i nc out_vars std_window pad skip
                                            fields)).
  unfold gen_std_i.
  apply logs_bind; [apply logs_for_each; intros f; by apply logs_event|].
  intros _. apply logs_bind; [|intros _].
  - apply logs_for_each. intros [n t].
    apply logs_bind; [apply logs_lift | intros tm].
    apply logs_bind; [by apply logs_event | intros _].
    apply logs_bind; [|intros _; by apply logs_event].
    apply logs_for_each. intros [v recs].
    apply logs_bind; [apply logs_lift | intros r].
    apply logs_event. simpl. rewrite map_fmap.
    apply Forall_fmap, Forall_forall. intros d _. apply clip_std_le.
  - apply logs_bind; [by apply logs_event | intros _]. by apply logs_event.
Qed.

(** *** gen_std_f *)

(** X16: The filter [records <= len(time)] lets the number of time records
    itself through, which is no index of the file: a call whose records
    include it fails with an IndexError, after the variables were added
    to the output file and before anything is written or closed. *)
Theorem gen_std_f_record_past_end nc out_vars records fields s :
  Z.of_nat (length (ds_time nc)) ∈ records ->
  gen_std_f nc out_vars (Some records) fields s
  = (Raise IndexError,
     s ++ created ["ocean_time"; "eta_rho"; "xi_rho"] out_vars
            (std_fields nc (fields_or {["sustr"; "svstr"; "shflux"; "ssflux"]}
                                      fields))).
Proof.
  intros Hin. unfold gen_std_f.
  fold (fields_or {["sustr"; "svstr"; "shflux"; "ssflux"]} fields).
  unfold Py.bind at 1. rewrite create_loop.
  unfold Py.bind at 1. unfold Py.lift at 1.
  rewrite (np_take_raises _ _ (Z.of_nat (length (ds_time nc)))); [done| |].
  - apply list_elem_of_filter. split; [lia | done].
  - unfold np_index.
    assert ((Z.of_nat (length (ds_time nc))
             <=? Z.of_nat (length (ds_time nc)))%Z = true) as ->
      by (apply Z.leb_le; lia).
    by rewrite orb_true_r.
Qed.

(** X17: Without [records], and on a file in which every field processed
    has a record for every time, [gen_std_f] cannot fail: it writes the mean
    of all the times, then for every field the deviation over all the
    records of the time axis as record 0, not clipped, syncing after
    each, and closes both files. *)
Theorem gen_std_f_all_records nc out_vars fields s :
  Forall (fun vr => (length (ds_time nc) <= length vr.2)%nat)
         (std_fields nc (fields_or {["sustr"; "svstr"; "shflux"; "ssflux"]}
                                   fields)) ->
  let flds := std_fields nc (fields_or {["sustr"; "svstr"; "shflux"; "ssflux"]}
                                       fields) in
  gen_std_f nc out_vars None fields s
  = (Ok tt,
     s ++ created ["ocean_time"; "eta_rho"; "xi_rho"] out_vars flds
       ++ [PutTimeAll (f_mean (ds_time nc))]
       ++ mjoin (map (fun vr : string * list (list Q) =>
                        [PutRecord vr.1 0
                           (np_std (take (length (ds_time nc)) vr.2));
                         Sync])
                     flds)
       ++ [CloseOut; CloseIn]).
Proof.
  intros Hvars flds. unfold gen_std_f.
  fold (fields_or {["sustr"; "svstr"; "shflux"; "ssflux"]} fields). fold flds.
  assert (forall A (l : list A),
            (length (ds_time nc) <= length l)%nat ->
            np_take l (arange_step 0 (Z.of_nat (length (ds_time nc))) 1)
            = Ok (take (length (ds_time nc)) l)) as Htake.
  { intros A l Hl. rewrite np_take_range by lia.
    rewrite Z.sub_0_r, Nat2Z.id. done. }
  unfold Py.bind at 1. rewrite create_loop.
  unfold Py.bind at 1. unfold Py.lift at 1. rewrite Htake by done.
  rewrite firstn_all.
  unfold Py.bind at 1. unfold log_event at 1, Py.modify at 1.
  unfold Py.bind at 1.
  rewrite (for_each_log _ (fun _ => tt)
             (fun vr : string * list (list Q) =>
                [PutRecord vr.1 0 (np_std (take (length (ds_time nc)) vr.2));
                 Sync])).
  - unfold Py.bind, log_event, Py.modify, created. cbn [fst snd].
    by rewrite <- !app_assoc.
  - apply Forall_forall. intros [v recs] Hv s1. cbn [fst snd].
    unfold Py.bind at 1. unfold Py.lift at 1.
    rewrite Htake by exact (proj1 (Forall_forall _ _) Hvars (v, recs) Hv).
    unfold Py.bind, log_event, Py.modify. cbn [fst snd].
    by rewrite <- app_assoc.
Qed.

End Analysis.

(** ** The routines on the sample inputs *)

Abbreviation constant_depth_ref :=
  (constant_depth unit Standin.adddim Standin.oasurf Standin.oavol).
Abbreviation depth_average_ref :=
  (depth_average Standin.stretching Standin.roms_depth Standin.roms_thickness
                 Standin.rho2u Standin.rho2v).
Abbreviation transect_ref :=
  (transect Standin.earth_distance Standin.log10 Standin.griddata).

(** ** Witnesses and counterexamples *)

(** *** constant_depth *)

(** C4, the claim fails: a field of rank 5 is not rejected; its one slice
    along the first axis is dispatched and the call returns. *)
Lemma constant_depth_rank5_dispatched :
  ndim Sample.field5 = 5%nat
  /\ exists r j,
      constant_depth_ref Sample.field5 Sample.grid (-50) None (-2) []
      = (Ok r, [j]).
Proof. split; [reflexivity|]. eexists _, _. vm_compute. reflexivity. Qed.

Lemma constant_depth_rank_witness :
  constant_depth_ref Sample.field2 Sample.grid (-50) None (-2) []
  = (Raise IndexError, [])
  /\ exists r js,
      constant_depth_ref Sample.field5 Sample.grid (-50) None (-2) []
      = (Ok r, [] ++ js)
      /\ length js = 1%nat.
Proof.
  split.
  - apply (proj1 (constant_depth_rank unit Standin.adddim Standin.oasurf
                    Standin.oavol Sample.field2 Sample.grid (-50) None (-2) [])).
    + cbv. lia.
    + cbv. lia.
  - apply (proj2 (constant_depth_rank unit Standin.adddim Standin.oasurf
                    Standin.oavol Sample.field5 Sample.grid (-50) None (-2) [])).
    cbv. lia.
Defined.

(** *** depth_average *)

(** C2 (the code departs from the claim): for a field on the u-grid and
    with the free surface given, the point between a water cell and a
    land cell comes out unmasked, with a finite value.  With [zeta] the
    thickness is wrapped by [np.ma.masked_array(. * mask_rho, 0)], whose
    second argument is the mask, so nothing is masked and the land cell
    holds an unmasked zero; [rho2u] averages it with the thickness of the
    water cell into a positive one.  Without [zeta] the routine uses
    [np.ma.masked_equal(. * mask_rho, 0)], the land cell is masked, and
    the same point comes out masked. *)
Theorem depth_average_u_point_beside_land :
  hget (Grid.mask_rho Sample.grid) 0 1 = Some 0
  /\ shape3 Sample.field_u = shape3 (Grid.thick_u Sample.grid)
  /\ (exists c,
        depth_average_ref Sample.field_u Sample.grid (-100) 0
                          (Some Sample.zeta) = Ok [[c]]
        /\ msk c = false /\ dat c == 5)
  /\ (exists c,
        depth_average_ref Sample.field_u Sample.grid (-100) 0 None
        = Ok [[c]]
        /\ msk c = true).
Proof.
  split_and!; [reflexivity | reflexivity | |].
  - eexists. split_and!; [vm_compute; reflexivity | reflexivity |].
    vm_compute. reflexivity.
  - eexists. split; [vm_compute; reflexivity | reflexivity].
Qed.

Lemma depth_average_land_masked_witness :
  exists out c,
    depth_average_ref Sample.field Sample.grid (-100) 0 (Some Sample.zeta)
    = Ok out
    /\ hget out 0 1 = Some c /\ msk c = true.
Proof.
  eapply depth_average_land_masked with (m := 0).
  - reflexivity.
  - reflexivity.
  - cbv. repeat constructor; discriminate.
  - reflexivity.
  - reflexivity.
  - reflexivity.
  - reflexivity.
  - reflexivity.
Defined.

(** *** transect *)

(** C3, the claim fails: called with the caller's own array of positive
    depths, [transect] returns and leaves that array negated. *)
Lemma transect_mutates_depth :
  is_ok (transect_ref Sample.lon Sample.lat (Ref 0%nat) (Ref 1%nat) 4 5 None
                      Sample.state_pos).1 = true
  /\ heap Sample.state_pos !! 0%nat = Some (H2 [[10; 10]; [100; 100]])
  /\ heap (transect_ref Sample.lon Sample.lat (Ref 0%nat) (Ref 1%nat) 4 5 None
                        Sample.state_pos).2 !! 0%nat
     = Some (H2 [[-10; -10]; [-100; -100]]).
Proof. split_and!; vm_compute; reflexivity. Qed.

Lemma transect_heap_effect_witness :
  heap (transect_ref Sample.lon Sample.lat (Ref 0%nat) (Ref 1%nat) 4 5 None
                     Sample.state_pos).2 !! 0%nat
  = Some (harray_map neg_pos Sample.depth_pos)
  /\ heap (transect_ref Sample.lon Sample.lat (Ref 0%nat) (Ref 1%nat) 4 5 None
                        Sample.state_pos).2 !! 1%nat
     = Some Sample.data2.
Proof.
  destruct (transect_heap_effect Standin.earth_distance Standin.log10
              Standin.griddata Sample.lon Sample.lat (Ref 0%nat) (Ref 1%nat)
              4 5 None Sample.state_pos) as [H1 H2].
  - reflexivity.
  - split.
    + rewrite H1. reflexivity.
    + rewrite H2; [reflexivity | discriminate | discriminate].
Defined.

(** C5, the claim fails: a data array with one layer more than the depth
    array is not rejected; the call reaches [griddata] and returns. *)
Lemma transect_mismatch_accepted :
  length (rows_of Sample.depth_neg) <> length (rows_of Sample.data3)
  /\ is_ok (transect_ref Sample.lon Sample.lat (Lit Sample.depth_neg)
                         (Lit Sample.data3) 4 5 None Sample.state_empty).1
     = true
  /\ length (calls (transect_ref Sample.lon Sample.lat (Lit Sample.depth_neg)
                                 (Lit Sample.data3) 4 5 None
                                 Sample.state_empty).2) = 1%nat.
Proof. split_and!; [simpl; lia | vm_compute; reflexivity..]. Qed.

Lemma transect_degenerate_fails_witness :
  (exists e,
     (transect_ref [0] [0] (Lit Sample.depth_neg) (Lit Sample.data2) 4 5 None
                   Sample.state_empty).1 = Raise e
     /\ calls (transect_ref [0] [0] (Lit Sample.depth_neg) (Lit Sample.data2)
                            4 5 None Sample.state_empty).2 = [])
  /\ (exists e,
        (transect_ref [0; 0] [0; 0] (Lit Sample.depth_neg) (Lit Sample.data2)
                      4 5 None Sample.state_empty).1 = Raise e
        /\ calls (transect_ref [0; 0] [0; 0] (Lit Sample.depth_neg)
                               (Lit Sample.data2) 4 5 None
                               Sample.state_empty).2 = []).
Proof.
  split.
  - apply (transect_degenerate_fails Standin.earth_distance Standin.log10
             Standin.griddata [0] [0] (Lit Sample.depth_neg)
             (Lit Sample.data2) 4 5 None Sample.state_empty).
    left. simpl. lia.
  - apply (transect_degenerate_fails Standin.earth_distance Standin.log10
             Standin.griddata [0; 0] [0; 0] (Lit Sample.depth_neg)
             (Lit Sample.data2) 4 5 None Sample.state_empty).
    right. repeat constructor.
Defined.

(** C7, the claim fails: on a path that goes two degrees east and one
    back, over a vertical axis with a spacing of 10, the mean waypoint
    spacing is 166792.5 and the factor of the claim 10000, but the
    distances handed to [griddata] are divided by 1000: the code takes
    the mean of the differences of the distances from the first
    waypoint, 55597.5. *)
Lemma transect_zscale_mean_spacing :
  match transect_ref Sample.lon_back Sample.lat_back (Lit Sample.depth_back)
                     (Lit Sample.data_back) 4 10 None Sample.state_empty with
  | (Ok (x, zax, ndat), s') =>
      exists c dx dz v,
        calls s' = [c]
        /\ f_mean (waypoint_spacing Standin.earth_distance Sample.lon_back
                                    Sample.lat_back) = Fin dx
        /\ f_abs (f_mean (diff zax)) = Fin dz
        /\ Qmaximum 1 (pow10 (Qfloor (Standin.log10 (dx / dz)))) = 10000
        /\ src_x c
           = mjoin (replicate 4
                      (scaled 1000 (path_dist Standin.earth_distance
                                      Sample.lon_back Sample.lat_back)))
        /\ tgt_x c = mjoin (replicate (length zax) (scaled 1000 x))
        /\ src_x c !! 1%nat = Some v
        /\ v == 222390 / 1000 /\ ~ v == 222390 / 10000
  | _ => False
  end.
Proof.
  destruct (transect_ref Sample.lon_back Sample.lat_back
              (Lit Sample.depth_back) (Lit Sample.data_back) 4 10 None
              Sample.state_empty)
    as [[[[x zax] ndat]|e] s'] eqn:E; vm_compute in E;
    [injection E as <- <- <- <- | discriminate E].
  eexists _, _, _, _.
  split_and!; [reflexivity | vm_compute; reflexivity
               | vm_compute; reflexivity | vm_compute; reflexivity
               | reflexivity | reflexivity | reflexivity | reflexivity |].
  intros H. vm_compute in H. discriminate H.
Qed.

Lemma transect_zscale_witness :
  match transect_ref Sample.lon Sample.lat (Lit Sample.depth_neg)
                     (Lit Sample.data2) 4 5 None Sample.state_empty with
  | (Ok (x, zax, ndat), s') =>
      exists c rows,
        calls s' = [c]
        /\ src_x c = mjoin (replicate rows
                              (scaled 1000 (path_dist Standin.earth_distance
                                              Sample.lon Sample.lat)))
        /\ tgt_x c = mjoin (replicate (length zax) (scaled 1000 x))
  | _ => False
  end.
Proof.
  destruct (transect_ref Sample.lon Sample.lat (Lit Sample.depth_neg)
              (Lit Sample.data2) 4 5 None Sample.state_empty)
    as [[[[x zax] ndat]|e] s'] eqn:E.
  - destruct (transect_zscale _ _ _ _ _ _ _ _ _ _ _ _ _ _ _ E)
      as (dx & dz & c & rows & Hdx & Hdz & Hc & Hsrc & Htgt).
    exists c, rows. split; [exact Hc|].
    pose proof E as E'. vm_compute in E'. injection E' as <- <- <- <-.
    vm_compute in Hdx. injection Hdx as <-.
    vm_compute in Hdz. injection Hdz as <-.
    split; [exact Hsrc | exact Htgt].
  - vm_compute in E. discriminate E.
Defined.



(** C9, the claim fails: over water one metre deep the first target depth
    is -3, below every source depth, the padding row at -2 included. *)
Lemma transect_target_below_padding :
  match transect_ref Sample.lon Sample.lat (Lit Sample.depth_shallow)
                     (Lit Sample.data_shallow) 3 3 None Sample.state_empty with
  | (Ok _, s') =>
      exists c t,
        calls s' = [c] /\ t ∈ tgt_z c /\ Forall (fun sz => t < sz) (src_z c)
  | _ => False
  end.
Proof.
  vm_compute. eexists _, _. split; [reflexivity|]. split.
  - apply list_elem_of_here.
  - repeat constructor.
Qed.

Lemma transect_padding_witness :
  match transect_ref Sample.lon Sample.lat (Lit Sample.depth_neg)
                     (Lit Sample.data2) 4 5 None Sample.state_empty with
  | (Ok (x, zax, ndat), s') =>
      exists c,
        calls s' = [c]
        /\ src_z c = [-200; -200; -100; -100; -10; -10; 0; 0]
        /\ src_val c = [2; 2; 2; 2; 1; 1; 1; 1]
        /\ Forall (fun t => -200 <= t <= 0) (tgt_z c)
  | _ => False
  end.
Proof.
  destruct (transect_ref Sample.lon Sample.lat (Lit Sample.depth_neg)
              (Lit Sample.data2) 4 5 None Sample.state_empty)
    as [[[[x zax] ndat]|e] s'] eqn:E.
  - destruct (transect_padding _ _ _ _ _ _ _ _ _ _ _ _ _ _ _ E)
      as (da & dh & dmin & zl & sorted & dmid & keys & d0 & dN & c & Hda & Hdh
          & Hdmin & Hzl & Hsorted & Hdmid & Hkeys & Hfirst & Hd0 & HdN & Hc
          & Hsrcz & Hsrcv & Hbound).
    exists c. split; [exact Hc|].
    vm_compute in Hdh. injection Hdh as <-.
    vm_compute in Hdmin. injection Hdmin as <-.
    pose proof E as E'. vm_compute in E'. injection E' as _ _ _ Hs.
    rewrite <- Hs in Hc. injection Hc as <-.
    split_and!; [reflexivity | reflexivity |].
    eapply Forall_impl; [apply Hbound; [reflexivity | lra]|].
    intros t [H1 H2]. split; lra.
  - vm_compute in E. discriminate E.
Defined.

(** *** The sign convention *)

Lemma depth_sign_normalised_witness :
  (exists r jobs,
     constant_depth_ref Sample.field4 Sample.grid 50 None (-2) []
     = (Ok r, jobs)
     /\ length jobs = 2%nat
     /\ Forall (fun j => job_fz j
                         = nd_scale (Standin.adddim (ones [1; 2]%nat)) (-50))
               jobs)
  /\ (exists r jobs,
        constant_depth_ref Sample.field4 Sample.grid (-50) None (-2) []
        = (Ok r, jobs)
        /\ length jobs = 2%nat
        /\ Forall (fun j => job_fz j
                            = nd_scale (Standin.adddim (ones [1; 2]%nat)) (-50))
                  jobs)
  /\ match transect_ref Sample.lon Sample.lat (Ref 0%nat) (Ref 1%nat) 4 5 None
                        Sample.state_pos with
     | (Ok (x, zax, ndat), s') =>
         exists c, calls s' = [c]
                   /\ src_z c = [-200; -200; -100; -100; -10; -10; 0; 0]
                   /\ zax = linspace (-102) (-10) 5
     | _ => False
     end
  /\ depth_average_ref Sample.field_var Sample.grid 60 0 None
     = depth_average_ref Sample.field_var Sample.grid (-60) 0 None.
Proof.
  destruct (depth_sign_normalised unit Standin.adddim Standin.oasurf
              Standin.oavol Standin.stretching Standin.roms_depth
              Standin.roms_thickness Standin.rho2u Standin.rho2v
              Standin.earth_distance Standin.log10 Standin.griddata)
    as (_ & Hcd & Hda & Htr & _).
  split_and!.
  - destruct (constant_depth_ref Sample.field4 Sample.grid 50 None (-2) [])
      as [[r|e] jobs] eqn:E; [|vm_compute in E; discriminate E].
    destruct (Hcd _ _ _ _ _ _ _ _ E)
      as (nx & ny & jobs' & Hnx & Hny & Hnt & Hs & Hr & Hfz).
    vm_compute in Hnx. injection Hnx as <-.
    vm_compute in Hny. injection Hny as <-.
    vm_compute in Hnt. injection Hnt as Hnt.
    simpl in Hs. subst jobs'.
    exists r, jobs. split_and!; [done | done |].
    exact Hfz.
  - destruct (constant_depth_ref Sample.field4 Sample.grid (-50) None (-2) [])
      as [[r|e] jobs] eqn:E; [|vm_compute in E; discriminate E].
    destruct (Hcd _ _ _ _ _ _ _ _ E)
      as (nx & ny & jobs' & Hnx & Hny & Hnt & Hs & Hr & Hfz).
    vm_compute in Hnx. injection Hnx as <-.
    vm_compute in Hny. injection Hny as <-.
    vm_compute in Hnt. injection Hnt as Hnt.
    simpl in Hs. subst jobs'.
    exists r, jobs. split_and!; [done | done |].
    exact Hfz.
  - destruct (transect_ref Sample.lon Sample.lat (Ref 0%nat) (Ref 1%nat) 4 5
                None Sample.state_pos)
      as [[[[x zax] ndat]|e] s'] eqn:E; [|vm_compute in E; discriminate E].
    destruct (Htr _ _ _ _ _ _ _ _ _ _ _ _ E)
      as (v & c & col0 & sorted & dmin & dmax & Hv & Hcol0 & Hsorted & Hdmin
          & Hdmax & Hc & Hsrc & Htgt & Hnone & _).
    vm_compute in Hv. injection Hv as <-.
    vm_compute in Hcol0. injection Hcol0 as <-.
    vm_compute in Hsorted. injection Hsorted as <-.
    vm_compute in Hdmin. injection Hdmin as <-.
    vm_compute in Hdmax. injection Hdmax as <-.
    exists c. split_and!; [exact Hc | | ].
    + rewrite Hsrc. reflexivity.
    + rewrite (Hnone eq_refl). reflexivity.
  - rewrite (Hda Sample.field_var Sample.grid 60 0 None).
    rewrite (Hda Sample.field_var Sample.grid (-60) 0 None). reflexivity.
Defined.

(** ** Instances of the further properties *)

(** *** constant_depth *)

Lemma constant_depth_jobs_witness :
  exists nx ny x y pmap slices,
    shape_from_end Sample.field4 1 = Ok nx
    /\ shape_from_end Sample.field4 2 = Ok ny
    /\ meshgrid (arange nx) (arange ny) = (x, y)
    /\ pmap = (Standin.oasurf x y x x y None 5 1 1).2
    /\ Forall2 (fun i d => index_first4 Sample.field4 i = Ok d)
               (seq 0 2) slices
    /\ let jobs :=
         map (fun d => Job x y (Grid.depth_rho Sample.grid) (squeeze d)
                           (nd_scale (Standin.adddim (ones [ny; nx]))
                                     (norm_depth 50)) pmap) slices in
       constant_depth_ref Sample.field4 Sample.grid 50 None (-2) []
       = (Ok (ma_stack (map (dinterp unit Standin.oavol) jobs)), [] ++ jobs).
Proof.
  apply (constant_depth_jobs unit Standin.adddim Standin.oasurf
           Standin.oavol Sample.field4 Sample.grid 50 None (-2) []).
  cbv. lia.
Defined.

Lemma constant_depth_mask_witness :
  exists r jobs,
    constant_depth_ref Sample.field4 Sample.grid 50 None (-2) []
    = (Ok r, jobs)
    /\ Forall (fun c => msk c = true
                        <-> inject_Z (9 * 10 ^ 10) < Qabs (dat c))
              (mcells r).
Proof.
  destruct (constant_depth_ref Sample.field4 Sample.grid 50 None (-2) [])
    as [[r|e] jobs] eqn:E.
  - exists r, jobs. split; [reflexivity|].
    exact (constant_depth_mask unit Standin.adddim Standin.oasurf
             Standin.oavol _ _ _ _ _ _ _ _ E).
  - vm_compute in E. discriminate E.
Defined.

(** *** depth_average *)

Lemma depth_average_between_witness :
  exists out c,
    depth_average_ref Sample.field_var Sample.grid (-100) 0 None = Ok out
    /\ hget out 0 0 = Some c /\ msk c = false /\ 4 <= dat c <= 6.
Proof.
  destruct (depth_average_ref Sample.field_var Sample.grid (-100) 0 None)
    as [out|e] eqn:E.
  - pose proof E as E'. vm_compute in E'. injection E' as <-.
    eexists _, _. split; [reflexivity|]. split; [reflexivity|].
    split; [reflexivity|].
    eapply (depth_average_between Standin.stretching Standin.roms_depth
              Standin.roms_thickness Standin.rho2u Standin.rho2v
              Sample.field_var Sample.grid (-100) 0 None _ 0%nat 0%nat _
              [unmasked 4; unmasked 6] [-75; -25] [50; 50] 1 4 6).
    + reflexivity.
    + reflexivity.
    + exact E.
    + reflexivity.
    + reflexivity.
    + reflexivity.
    + reflexivity.
    + reflexivity.
    + simpl. lia.
    + repeat constructor; simpl; lra.
    + repeat constructor; simpl; lra.
    + reflexivity.
  - vm_compute in E. discriminate E.
Defined.

Lemma depth_average_top_above_layers_witness :
  exists out c,
    depth_average_ref Sample.field_var Sample.grid (-100) (-10) None = Ok out
    /\ hget out 0 0 = Some c
    /\ (msk c = true
        \/ exists f0, [unmasked 4; unmasked 6] !! 0%nat = Some f0
                      /\ dat c == dat f0).
Proof.
  destruct (depth_average_ref Sample.field_var Sample.grid (-100) (-10) None)
    as [out|e] eqn:E.
  - pose proof E as E'. vm_compute in E'. injection E' as <-.
    eexists _, _. split; [reflexivity|]. split; [reflexivity|].
    eapply (depth_average_top_above_layers Standin.stretching
              Standin.roms_depth Standin.roms_thickness Standin.rho2u
              Standin.rho2v Sample.field_var Sample.grid (-100) (-10) None
              _ 0%nat 0%nat _ [unmasked 4; unmasked 6] [-75; -25] [50; 50] 1).
    + reflexivity.
    + reflexivity.
    + exact E.
    + reflexivity.
    + reflexivity.
    + reflexivity.
    + reflexivity.
    + reflexivity.
    + vm_compute. discriminate.
    + repeat constructor.
  - vm_compute in E. discriminate E.
Defined.

(** *** transect *)

Lemma transect_shape_witness :
  match transect_ref Sample.lon Sample.lat (Lit Sample.depth_slope)
                     (Lit Sample.data_slope) 4 5 None Sample.state_empty with
  | (Ok (x, zax, ndat), _) =>
      length x = 4%nat /\ length zax = 5%nat /\ length ndat = 5%nat
      /\ Forall (fun row => length row = 4%nat) ndat
  | _ => False
  end.
Proof.
  destruct (transect_ref Sample.lon Sample.lat (Lit Sample.depth_slope)
              (Lit Sample.data_slope) 4 5 None Sample.state_empty)
    as [[[[x zax] ndat]|e] s'] eqn:E.
  - destruct (transect_shape _ _ _ _ _ _ _ _ _ _ _ _ _ _ _ E)
      as (Hx & Hz & Hn & Hrows).
    specialize (Hz eq_refl).
    split_and!; [exact Hx | exact Hz | congruence | exact Hrows].
  - vm_compute in E. discriminate E.
Defined.

Lemma transect_axes_witness :
  match transect_ref Sample.lon Sample.lat (Lit Sample.depth_slope)
                     (Lit Sample.data_slope) 4 5 None Sample.state_empty with
  | (Ok (x, zax, ndat), _) =>
      Forall (fun v => 0 <= v <= 111195) x /\ Forall (fun v => v <= 0) zax
  | _ => False
  end.
Proof.
  destruct (transect_ref Sample.lon Sample.lat (Lit Sample.depth_slope)
              (Lit Sample.data_slope) 4 5 None Sample.state_empty)
    as [[[[x zax] ndat]|e] s'] eqn:E.
  - destruct (transect_axes _ _ _ _ _ _ _ _ _ _ _ _ _ _ _ E)
      as ((dmax & Hdmax & _ & Hx) & Hz).
    vm_compute in Hdmax. injection Hdmax as <-.
    split; [|exact Hz].
    eapply Forall_impl; [exact Hx|]. intros v [H0 H1]. split; [exact H0|].
    eapply Qle_trans; [exact H1|]. vm_compute. discriminate.
  - vm_compute in E. discriminate E.
Defined.

Lemma transect_mask_column_witness :
  match transect_ref Sample.lon Sample.lat (Lit Sample.depth_slope)
                     (Lit Sample.data_slope) 4 5 None Sample.state_empty with
  | (Ok (x, zax, ndat), _) =>
      exists cell cell',
        hget ndat 1 1 = Some cell /\ msk cell = true
        /\ hget ndat 0 1 = Some cell' /\ msk cell' = true
  | _ => False
  end.
Proof.
  destruct (transect_ref Sample.lon Sample.lat (Lit Sample.depth_slope)
              (Lit Sample.data_slope) 4 5 None Sample.state_empty)
    as [[[[x zax] ndat]|e] s'] eqn:E.
  - pose proof E as E'. vm_compute in E'. injection E' as _ _ Hndat _.
    assert (exists cell, hget ndat 1 1 = Some cell /\ msk cell = true)
      as (cell & Hcell & Hmsk).
    { rewrite <- Hndat. eexists. split; reflexivity. }
    destruct (transect_mask_column _ _ _ _ _ _ _ _ _ _ _ _ _ _ _ E
                1%nat 0%nat 1%nat cell Hcell Hmsk ltac:(lia))
      as (cell' & Hcell' & Hmsk').
    by exists cell, cell'.
  - vm_compute in E. discriminate E.
Defined.

Lemma transect_short_axis_fails_witness :
  exists e,
    (transect_ref Sample.lon Sample.lat (Lit Sample.depth_neg)
                  (Lit Sample.data2) 4 1 None Sample.state_empty).1 = Raise e
    /\ calls (transect_ref Sample.lon Sample.lat (Lit Sample.depth_neg)
                           (Lit Sample.data2) 4 1 None Sample.state_empty).2
       = [].
Proof.
  apply (transect_short_axis_fails Standin.earth_distance Standin.log10
           Standin.griddata Sample.lon Sample.lat (Lit Sample.depth_neg)
           (Lit Sample.data2) 4 1 Sample.state_empty).
  lia.
Defined.

Lemma transect_missing_layers_fails_witness :
  exists e,
    (transect_ref Sample.lon Sample.lat (Lit Sample.depth_neg)
                  (Lit Sample.data1) 4 5 None Sample.state_empty).1 = Raise e
    /\ calls (transect_ref Sample.lon Sample.lat (Lit Sample.depth_neg)
                           (Lit Sample.data1) 4 5 None Sample.state_empty).2
       = [].
Proof.
  apply (transect_missing_layers_fails Standin.earth_distance Standin.log10
           Standin.griddata Sample.lon Sample.lat (Lit Sample.depth_neg)
           (Lit Sample.data1) 4 5 None Sample.state_empty
           Sample.depth_neg Sample.data1).
  - reflexivity.
  - reflexivity.
  - simpl. lia.
Defined.

(** *** The observation plots *)

Lemma plot_obs_spatial_draws_witness :
  plot_obs_spatial (list observation) Z Z Standin.asobs Standin.astype
    Standin.asprovenance Standin.np_sqrt Sample.obs_pair 2%Z None None 0
    false false [("c", KInt 1)] []
  = (Raise TypeError, [])
  /\ plot_obs_spatial (list observation) Z Z Standin.asobs Standin.astype
       Standin.asprovenance Standin.np_sqrt Sample.obs_pair 2%Z None None 0
       false false [] []
     = (Ok tt, [Scatter [151] [21] [Fin 8] scatter_defaults; Colorbar]).
Proof.
  split.
  - rewrite (plot_obs_spatial_draws (list observation) Z Z Standin.asobs
               Standin.astype Standin.asprovenance Standin.np_sqrt
               Sample.obs_pair 2%Z None None 0 false false [("c", KInt 1)] []).
    reflexivity.
  - rewrite (plot_obs_spatial_draws (list observation) Z Z Standin.asobs
               Standin.astype Standin.asprovenance Standin.np_sqrt
               Sample.obs_pair 2%Z None None 0 false false [] []).
    reflexivity.
Defined.

Lemma plot_obs_spatial_lone_first_witness :
  plot_obs_spatial (list observation) Z Z Standin.asobs Standin.astype
    Standin.asprovenance Standin.np_sqrt Sample.obs_pair 1%Z None None 0
    false false [] []
  = (Ok tt, []).
Proof.
  apply (plot_obs_spatial_lone_first (list observation) Z Z Standin.asobs
           Standin.astype Standin.asprovenance Standin.np_sqrt
           Sample.obs_pair 1%Z None None 0 false false [] []
           (Observation 1 100 0 1 1 0 150 20 0 7 1)).
  reflexivity.
Defined.

(** *** The standard-deviation files *)

Lemma gen_std_i_writes_witness :
  gen_std_i Standin.np_std Sample.roms_fields Sample.nc_small Sample.out_vars
            2 1 1 None []
  = (Ok tt,
     [CreateVariable "temp" ["ocean_time"; "s_rho"; "eta_rho"; "xi_rho"];
      PutTime 0 (Fin (10 # 4)); PutRecord "temp" 0 [Fin 3]; Sync;
      PutTime 1 (Fin (18 # 4)); PutRecord "temp" 1 [Fin 0]; Sync;
      CloseOut; CloseIn]).
Proof.
  assert (Forall (fun vr : string * list (list Q) =>
                    (length (ds_time Sample.nc_small) <= length vr.2)%nat)
                 (std_fields Sample.nc_small
                    (fields_or Sample.roms_fields None))) as Hv.
  { vm_compute. repeat constructor. }
  pose proof (gen_std_i_writes Standin.np_std Sample.roms_fields
                Sample.nc_small Sample.out_vars 2 1 1 None []
                ltac:(lia) ltac:(lia) Hv) as H.
  cbv zeta in H. destruct H as [_ H]. rewrite H. vm_compute. reflexivity.
Defined.

Lemma gen_std_f_record_past_end_witness :
  gen_std_f Standin.np_std Sample.nc_small Sample.out_vars
            (Some [0; 8]%Z) (Some {["temp"]}) []
  = (Raise IndexError,
     [CreateVariable "temp" ["ocean_time"; "eta_rho"; "xi_rho"]]).
Proof.
  rewrite (gen_std_f_record_past_end Standin.np_std Sample.nc_small
             Sample.out_vars [0; 8]%Z (Some {["temp"]}) []).
  - vm_compute. reflexivity.
  - apply list_elem_of_further, list_elem_of_here.
Defined.

Lemma gen_std_f_all_records_witness :
  gen_std_f Standin.np_std Sample.nc_frc Sample.out_vars None None []
  = (Ok tt,
     [CreateVariable "sustr" ["ocean_time"; "eta_rho"; "xi_rho"];
      PutTimeAll (Fin (3 # 3)); PutRecord "sustr" 0 [Fin 2; Fin 20]; Sync;
      CloseOut; CloseIn]).
Proof.
  assert (Forall (fun vr : string * list (list Q) =>
                    (length (ds_time Sample.nc_frc) <= length vr.2)%nat)
                 (std_fields Sample.nc_frc
                    (fields_or {["sustr"; "svstr"; "shflux"; "ssflux"]}
                               None))) as Hv.
  { vm_compute. repeat constructor. }
  pose proof (gen_std_f_all_records Standin.np_std Sample.nc_frc
                Sample.out_vars None [] Hv) as H.
  cbv zeta in H. rewrite H. vm_compute. reflexivity.
Defined.
